(** * RAG chat backend: a shallow embedding of the retrieval pipeline

    The development follows the JavaScript modules of the backend:
    - [DocumentManager]      word-window chunking ([chunkText]);
    - [RagPipeline]          cosine similarity, similarity search, prompt assembly;
    - [LlmService]           provider selection, retry with backoff, fallback, usage counters;
    - [ConversationManager]  the session map with bounded message history and idle expiry.
    - [ChatRoute]            the chat endpoint that ties the four together.

    JavaScript numbers that the code uses as counters, indices and
    millisecond amounts are integers and are modelled in [Z]; the numbers
    of the similarity computation are IEEE-754 doubles and are modelled by
    the primitive binary64 floats.  Strings are [string]; arrays are lists;
    the session [Map] is a [gmap] keyed by the session id. *)

From Stdlib Require Import ZArith List String Ascii Lia Bool DecimalString Sorted.
From Stdlib Require Import Floats.
From Stdlib Require Import DecimalPos DecimalZ.
From stdpp Require Import base list gmap strings.

Local Open Scope Z_scope.
Set Warnings "-inexact-float".

(** * Part I: the program *)

(** ** JavaScript prelude *)

Module JS.

(** A thrown [Error]: only its message is observable in this code. *)
Record Error := mkError { message : string }.

(** Completion of a synchronous call: a value or a thrown error. *)
Inductive completion (A : Type) : Type :=
| Normal (a : A)
| Throw (e : Error).
Arguments Normal {A} a.
Arguments Throw {A} e.

(** State of a promise as its consumers observe it: fulfilled, rejected, or
    never settled. *)
Inductive promise (A : Type) : Type :=
| Fulfilled (a : A)
| Rejected (e : Error)
| Pending.
Arguments Fulfilled {A} a.
Arguments Rejected {A} e.
Arguments Pending {A}.

(** [s.split(sep)] for a one-character separator: always at least one piece. *)
Fixpoint split (sep : ascii) (s : string) : list string :=
  match s with
  | EmptyString => [EmptyString]
  | String c rest =>
      if Ascii.eqb c sep then EmptyString :: split sep rest
      else match split sep rest with
           | w :: ws => String c w :: ws
           | [] => [String c EmptyString]
           end
  end.

(** [arr.join(sep)]. *)
Definition join (sep : string) (l : list string) : string := String.concat sep l.

(** [arr.length] as a JavaScript number. *)
Definition len {A} (l : list A) : Z := Z.of_nat (length l).

(** Relative index of [Array.prototype.slice]: negative counts from the end,
    everything is clamped to [0, len]. *)
Definition relIndex (n k : Z) : Z :=
  if k <? 0 then Z.max (n + k) 0 else Z.min k n.

(** [arr.slice(start, stop)]. *)
Definition slice {A} (l : list A) (start stop : Z) : list A :=
  let k := relIndex (len l) start in
  let final := relIndex (len l) stop in
  firstn (Z.to_nat (final - k)) (skipn (Z.to_nat k) l).

(** [arr.slice(-n)]: the last [n] elements for a positive [n] (and, as in
    JavaScript, the whole array for [n = 0]). *)
Definition lastN {A} (n : nat) (l : list A) : list A :=
  slice l (- Z.of_nat n) (len l).

(** Decimal rendering of an integer, as template literals do. *)
Definition showZ (z : Z) : string := NilZero.string_of_int (Z.to_int z).

(** ASCII case mapping of one character. *)
Definition upperChar (c : ascii) : ascii :=
  let n := nat_of_ascii c in
  if (97 <=? n)%nat && (n <=? 122)%nat then ascii_of_nat (n - 32) else c.

Definition lowerChar (c : ascii) : ascii :=
  let n := nat_of_ascii c in
  if (65 <=? n)%nat && (n <=? 90)%nat then ascii_of_nat (n + 32) else c.

Fixpoint mapString (f : ascii -> ascii) (s : string) : string :=
  match s with
  | EmptyString => EmptyString
  | String c rest => String (f c) (mapString f rest)
  end.

(** [s.toUpperCase()] and [s.toLowerCase()] on ASCII text. *)
Definition toUpperCase (s : string) : string := mapString upperChar s.
Definition toLowerCase (s : string) : string := mapString lowerChar s.

(** The ASCII white space that [trim] removes. *)
Definition isSpace (c : ascii) : bool :=
  let n := nat_of_ascii c in
  ((9 <=? n)%nat && (n <=? 13)%nat) || (n =? 32)%nat.

Fixpoint trimStart (s : string) : string :=
  match s with
  | EmptyString => EmptyString
  | String c rest => if isSpace c then trimStart rest else s
  end.

Fixpoint trimEnd (s : string) : string :=
  match s with
  | EmptyString => EmptyString
  | String c rest =>
      match trimEnd rest with
      | EmptyString => if isSpace c then EmptyString else String c EmptyString
      | rest' => String c rest'
      end
  end.

(** [s.trim()]. *)
Definition trim (s : string) : string := trimEnd (trimStart s).

(** [s.includes(key)]. *)
Fixpoint includes (s key : string) : bool :=
  String.prefix key s ||
  match s with
  | EmptyString => false
  | String _ rest => includes rest key
  end.

End JS.

Import JS.

(** ** documentManager.js: chunking *)

Module DocumentManager.

Record Config := { chunkSize : Z; chunkOverlap : Z }.

Definition config : Config := {| chunkSize := 300; chunkOverlap := 50 |}.

(** The [for] loop of [chunkText], one iteration per unit of fuel.  [None]
    means that the fuel ran out before the loop left. *)
Fixpoint chunkLoop (fuel : nat) (words : list string) (chunkSize overlap : Z)
  (i : Z) (chunks : list string) : option (list string) :=
  match fuel with
  | O => None
  | S fuel' =>
      if i <? len words then
        let chunk := join " " (slice words i (i + chunkSize)) in
        let chunks' := chunks ++ [chunk] in
        if i + chunkSize >=? len words then Some chunks'
        else chunkLoop fuel' words chunkSize overlap (i + (chunkSize - overlap)) chunks'
      else Some chunks
  end.

Definition chunkText (fuel : nat) (text : string) (chunkSize overlap : Z)
  : option (list string) :=
  chunkLoop fuel (split " " text) chunkSize overlap 0 [].

(** [chunkText(text)] with the default parameters of the module. *)
Definition chunkTextDefault (fuel : nat) (text : string) : option (list string) :=
  chunkText fuel text (chunkSize config) (chunkOverlap config).

(** Ceiling of [a / b] for positive [b]. *)
Definition ceilDiv (a b : Z) : Z := (a + b - 1) / b.

(** The windows the loop is meant to produce: [n] windows of [size] words,
    the [k]-th starting at word [i + k * stride]. *)
Definition windows (words : list string) (size stride i : Z) (n : nat) : list string :=
  map (fun k => join " " (slice words (i + Z.of_nat k * stride) (i + Z.of_nat k * stride + size)))
      (seq 0 n).

End DocumentManager.

(** ** ragPipeline.js: similarity, search, prompt assembly *)

Module RagPipeline.

(** An entry of the vector store: a chunk of [documentManager] together
    with its embedding. *)
Module Chunk.
Record t := mk {
  id : string;
  documentTitle : string;
  documentIndex : Z;
  chunkIndex : Z;
  content : string;
  wordCount : Z;
  embedding : list float
}.
End Chunk.

(** [{...chunk, similarity}]: a store entry with its score. *)
Module Scored.
Record t := mk { chunk : Chunk.t; similarity : float }.
End Scored.

(** An entry of the context handed to the prompt. *)
Module ContextEntry.
Record t := mk {
  id : string;
  title : string;
  content : string;
  similarity : float;
  order : Z
}.
End ContextEntry.

(** A history entry as [getFormattedHistory] produces it. *)
Module Msg.
Record t := mk { role : string; content : string }.
End Msg.

(** The module-level variables of the pipeline. *)
Record State := {
  vectorStore : list Chunk.t;
  similarityThreshold : float;
  maxRetrievedChunks : Z
}.

Definition initialState : State :=
  {| vectorStore := []; similarityThreshold := 0.7%float; maxRetrievedChunks := 3 |}.

(** One iteration of the accumulation loop of [calculateCosineSimilarity]:
    the accumulator is [(dotProduct, normA, normB)]. *)
Definition cosineStep (acc : float * float * float) (ab : float * float)
  : float * float * float :=
  let '(dotProduct, normA, normB) := acc in
  let '(a, b) := ab in
  ((dotProduct + a * b)%float, (normA + a * a)%float, (normB + b * b)%float).

Definition calculateCosineSimilarity (vecA vecB : list float) : completion float :=
  if negb (Nat.eqb (length vecA) (length vecB)) then
    Throw (mkError "Vectors must have the same dimensions")
  else
    let '(dotProduct, normA, normB) :=
      fold_left cosineStep (combine vecA vecB) (0%float, 0%float, 0%float) in
    let normA := PrimFloat.sqrt normA in
    let normB := PrimFloat.sqrt normB in
    if (normA =? 0)%float || (normB =? 0)%float then Normal 0%float
    else Normal (dotProduct / (normA * normB))%float.

(** [vectorStore.map(chunk => ({...chunk, similarity: ...}))]: the first
    throwing callback aborts the whole map. *)
Fixpoint scoreAll (queryEmbedding : list float) (store : list Chunk.t)
  : completion (list Scored.t) :=
  match store with
  | [] => Normal []
  | chunk :: rest =>
      match calculateCosineSimilarity queryEmbedding (Chunk.embedding chunk) with
      | Throw e => Throw e
      | Normal similarity =>
          match scoreAll queryEmbedding rest with
          | Throw e => Throw e
          | Normal scored => Normal (Scored.mk chunk similarity :: scored)
          end
      end
  end.

(** [Array.prototype.sort(comparefn)].  The language requires the sort to be
    stable; for a comparator that orders the elements consistently the
    result is then determined, and it is the one of this insertion sort:
    an element is moved behind another one only when [comparefn] is
    positive on the pair, and a result of zero leaves the two in their
    original order.  A NaN result counts as zero, as the language says.
    With NaN results the comparator need not be consistent and the language
    leaves the order to the implementation; an element that compares as
    NaN with its neighbours stays where it is here, as it does in a sort
    that detects runs of neighbours. *)
Section Sort.
Context {A : Type} (comparefn : A -> A -> float).

Fixpoint sortInsert (x : A) (sorted : list A) : list A :=
  match sorted with
  | [] => [x]
  | y :: rest =>
      if (0 <? comparefn x y)%float then y :: sortInsert x rest
      else x :: y :: rest
  end.

Definition sort (l : list A) : list A := fold_right sortInsert [] l.
End Sort.

(** The comparator of [similaritySearch]: [(a, b) => b.similarity - a.similarity]. *)
Definition bySimilarityDesc (a b : Scored.t) : float :=
  (Scored.similarity b - Scored.similarity a)%float.

Definition similaritySearch (st : State) (queryEmbedding : list float)
  : completion (list Scored.t) :=
  match scoreAll queryEmbedding (vectorStore st) with
  | Throw e => Throw e
  | Normal similarities =>
      let similarities := sort bySimilarityDesc similarities in
      let filteredResults :=
        slice
          (List.filter (fun result => (similarityThreshold st <=? Scored.similarity result)%float)
                       similarities)
          0 (maxRetrievedChunks st) in
      Normal filteredResults
  end.

(** The formatting step of [retrieveContext]:
    [relevantChunks.map((chunk, index) => ({..., order: index + 1}))]. *)
Definition formatContext (relevantChunks : list Scored.t) : list ContextEntry.t :=
  map (fun '(index, r) =>
         ContextEntry.mk (Chunk.id (Scored.chunk r))
                         (Chunk.documentTitle (Scored.chunk r))
                         (Chunk.content (Scored.chunk r))
                         (Scored.similarity r)
                         (Z.of_nat index + 1))
      (combine (seq 0 (length relevantChunks)) relevantChunks).

(** [setSimilarityThreshold] and [setMaxRetrievedChunks]. *)
Definition setSimilarityThreshold (st : State) (threshold : float) : completion State :=
  if (threshold <? 0)%float || (1 <? threshold)%float then
    Throw (mkError "Threshold must be between 0 and 1")
  else Normal {| vectorStore := vectorStore st;
                 similarityThreshold := threshold;
                 maxRetrievedChunks := maxRetrievedChunks st |}.

Definition setMaxRetrievedChunks (st : State) (maxChunks : Z) : completion State :=
  if (maxChunks <? 1) || (10 <? maxChunks) then
    Throw (mkError "Max chunks must be between 1 and 10")
  else Normal {| vectorStore := vectorStore st;
                 similarityThreshold := similarityThreshold st;
                 maxRetrievedChunks := maxChunks |}.

(** The line feed character of the template. *)
Definition nl : string := String (ascii_of_nat 10) EmptyString.

Definition systemInstruction : string :=
  ("You are a helpful AI assistant. Answer the user's question based ONLY on the provided context. "
   +:+ "If the context doesn't contain enough information to answer the question, say so clearly. "
   +:+ "Do not make up information or hallucinate answers." +:+ nl +:+ nl).

(** The body of the [forEach] over the recent history. *)
Definition appendHistoryLine (prompt : string) (msg : Msg.t) : string :=
  let role := if String.eqb (Msg.role msg) "user" then "User" else "Assistant" in
  prompt +:+ (role +:+ ": " +:+ Msg.content msg +:+ nl).

(** The body of the [forEach] over the context, with the index of the entry. *)
Definition appendContextBlock (prompt : string) (ic : nat * ContextEntry.t) : string :=
  let '(index, chunk) := ic in
  let prompt :=
    prompt +:+ ("[Document " +:+ showZ (Z.of_nat index + 1) +:+ ": "
                +:+ ContextEntry.title chunk +:+ "]" +:+ nl) in
  prompt +:+ (ContextEntry.content chunk +:+ nl +:+ nl).

(** [constructPrompt(userQuery, context, conversationHistory)].  The
    context is [None] when the caller passes [null] or [undefined]. *)
Definition constructPrompt (userQuery : string)
  (context : option (list ContextEntry.t)) (conversationHistory : list Msg.t) : string :=
  let prompt := EmptyString in
  let prompt := prompt +:+ "You are a helpful AI assistant. Answer the user's question based ONLY on the provided context. " in
  let prompt := prompt +:+ "If the context doesn't contain enough information to answer the question, say so clearly. " in
  let prompt := prompt +:+ ("Do not make up information or hallucinate answers." +:+ nl +:+ nl) in
  let prompt :=
    if 0 <? len conversationHistory then
      let prompt := prompt +:+ ("=== CONVERSATION HISTORY ===" +:+ nl) in
      let recentHistory := lastN 6 conversationHistory in
      let prompt := fold_left appendHistoryLine recentHistory prompt in
      prompt +:+ nl
    else prompt in
  let prompt :=
    match context with
    | Some context =>
        if 0 <? len context then
          let prompt := prompt +:+ ("=== RELEVANT CONTEXT ===" +:+ nl) in
          let prompt :=
            fold_left appendContextBlock (combine (seq 0 (length context)) context) prompt in
          prompt +:+ ("=== END OF CONTEXT ===" +:+ nl +:+ nl)
        else prompt
    | None => prompt
    end in
  let prompt := prompt +:+ ("=== USER QUESTION ===" +:+ nl) in
  let prompt := prompt +:+ userQuery in
  let prompt := prompt +:+ (nl +:+ nl +:+ "=== YOUR RESPONSE ===" +:+ nl) in
  prompt.

(** *** The template as the specification words it *)

(** One history line: [Role: content]. *)
Definition historyLine (msg : Msg.t) : string :=
  (if String.eqb (Msg.role msg) "user" then "User" else "Assistant")
  +:+ ": " +:+ Msg.content msg +:+ nl.

(** The history section: absent for an empty history, otherwise the header,
    one line for each of the last six entries, oldest first, and a blank line. *)
Definition historySection (history : list Msg.t) : string :=
  match history with
  | [] => EmptyString
  | _ => "=== CONVERSATION HISTORY ===" +:+ nl
         +:+ String.concat EmptyString
               (map historyLine (skipn (length history - 6) history))
         +:+ nl
  end.

(** One context block, headed by the 1-based rank of the entry. *)
Definition contextBlock (rank : nat) (entry : ContextEntry.t) : string :=
  "[Document " +:+ showZ (Z.of_nat rank) +:+ ": " +:+ ContextEntry.title entry +:+ "]" +:+ nl
  +:+ ContextEntry.content entry +:+ nl +:+ nl.

(** The blocks of the entries, the first of them with rank [from]. *)
Fixpoint contextBlocks (from : nat) (context : list ContextEntry.t) : string :=
  match context with
  | [] => EmptyString
  | entry :: rest => contextBlock from entry +:+ contextBlocks (S from) rest
  end.

(** The context section: absent for a missing or empty context. *)
Definition contextSection (context : option (list ContextEntry.t)) : string :=
  match context with
  | None | Some [] => EmptyString
  | Some entries =>
      "=== RELEVANT CONTEXT ===" +:+ nl +:+ contextBlocks 1 entries
      +:+ "=== END OF CONTEXT ===" +:+ nl +:+ nl
  end.

Definition questionSection (userQuery : string) : string :=
  "=== USER QUESTION ===" +:+ nl +:+ userQuery +:+ nl +:+ nl
  +:+ "=== YOUR RESPONSE ===" +:+ nl.

End RagPipeline.

(** *** The terms of the cosine, each on its own *)

Module CosineTerms.
Import RagPipeline.

(** The three sums of the loop, each on its own. *)
Definition dotProduct (vecA vecB : list float) : float :=
  fold_left (fun acc ab => (acc + fst ab * snd ab)%float) (combine vecA vecB) 0%float.

Definition sumSquares (vec : list float) : float :=
  fold_left (fun acc a => (acc + a * a)%float) vec 0%float.

Definition norm (vec : list float) : float := PrimFloat.sqrt (sumSquares vec).

(** A vector of zeros, of either sign. *)
Definition isZeroVector (vec : list float) : Prop :=
  Forall (fun a => a = 0%float \/ a = (-0)%float) vec.

End CosineTerms.

(** ** The rank of a double

    The comparator of the similarity search subtracts two scores and looks
    at the sign.  The finite doubles are the integer multiples of
    [2 ^ -1074]; that multiple, with the infinities beyond every finite
    value, orders the doubles that are not NaN. *)

Module FloatRank.

(** The rank on the bit-level description of a double. *)
Definition rank (x : spec_float) : Z :=
  match x with
  | S754_zero _ => 0
  | S754_nan => 0
  | S754_infinity s => cond_Zopp s (2 ^ 2100)
  | S754_finite s m e => cond_Zopp s (Zpos m * 2 ^ (e + 1074))
  end.

Definition isNan (x : spec_float) : bool :=
  match x with S754_nan => true | _ => false end.

(** What a float is when it is a signed non-zero number. *)
Definition signedNonzero (s : bool) (r : spec_float) : Prop :=
  (exists m e, r = S754_finite s m e) \/ r = S754_infinity s.

(** The rank of a primitive double. *)
Definition frank (x : float) : Z := rank (Prim2SF x).

End FloatRank.

(** *** The order the similarity search is to produce *)

Module SearchOrder.
Import RagPipeline FloatRank.

(** An entry of the scored store together with its position in the store. *)
Definition Tagged : Type := nat * Scored.t.

Definition tag (k : nat) (l : list Scored.t) : list Tagged :=
  combine (seq k (length l)) l.

Definition sim (a : Tagged) : float := Scored.similarity (snd a).

(** The comparator of the search, on tagged entries. *)
Definition taggedCompare (a b : Tagged) : float := bySimilarityDesc (snd a) (snd b).

Definition numeric (a : Tagged) : Prop := is_nan (sim a) = false.

(** The order the search is to produce, on ranks: the higher score first,
    and of two equal scores the one that comes first in the store. *)
Definition before (a b : Tagged) : Prop :=
  frank (sim b) < frank (sim a)
  \/ (frank (sim b) = frank (sim a) /\ (fst a < fst b)%nat).

(** The same order read with the comparisons of the doubles. *)
Definition descendingStable (a b : Tagged) : Prop :=
  (sim b <=? sim a)%float = true
  /\ ((sim b <? sim a)%float = true \/ (fst a < fst b)%nat).

End SearchOrder.

(** ** llmService.js: the gateway to the language model *)

Module LlmService.

Record Config := {
  provider : string;
  openaiApiKey : string;
  openaiModel : string;
  geminiApiKey : string;
  geminiModel : string;
  claudeApiKey : string;
  claudeModel : string;
  mistralApiKey : string;
  mistralModel : string;
  temperature : float;
  maxTokens : Z;
  timeout : Z;
  maxRetries : Z;
  retryDelay : Z
}.

(** The environment variables the configuration reads. *)
Record Env := {
  LLM_PROVIDER : option string;
  OPENAI_API_KEY : option string;
  GEMINI_API_KEY : option string;
  CLAUDE_API_KEY : option string;
  MISTRAL_API_KEY : option string
}.

(** [process.env.X || dflt]: an unset or empty variable gives the default. *)
Definition orDefault (v : option string) (dflt : string) : string :=
  match v with
  | Some (String c rest) => String c rest
  | _ => dflt
  end.

(** The module-level [config] object. *)
Definition config (env : Env) : Config := {|
  provider := orDefault (LLM_PROVIDER env) "gemini";
  openaiApiKey := orDefault (OPENAI_API_KEY env) "";
  openaiModel := "gpt-3.5-turbo";
  geminiApiKey := orDefault (GEMINI_API_KEY env) "";
  geminiModel := "gemini-1.0-pro";
  claudeApiKey := orDefault (CLAUDE_API_KEY env) "";
  claudeModel := "claude-3-haiku-20240307";
  mistralApiKey := orDefault (MISTRAL_API_KEY env) "";
  mistralModel := "mistral-tiny";
  temperature := 0.2%float;
  maxTokens := 500;
  timeout := 30000;
  maxRetries := 3;
  retryDelay := 1000
|}.

Definition getCurrentModel (cfg : Config) : string :=
  if String.eqb (provider cfg) "openai" then openaiModel cfg
  else if String.eqb (provider cfg) "gemini" then geminiModel cfg
  else if String.eqb (provider cfg) "claude" then claudeModel cfg
  else if String.eqb (provider cfg) "mistral" then mistralModel cfg
  else if String.eqb (provider cfg) "mock" then "mock-model"
  else "unknown".

Definition getCurrentApiKey (cfg : Config) : string :=
  if String.eqb (provider cfg) "openai" then openaiApiKey cfg
  else if String.eqb (provider cfg) "gemini" then geminiApiKey cfg
  else if String.eqb (provider cfg) "claude" then claudeApiKey cfg
  else if String.eqb (provider cfg) "mistral" then mistralApiKey cfg
  else if String.eqb (provider cfg) "mock" then "mock-key"
  else "".

(** [getApiConfig] and [buildRequestBody] build the request of a known
    provider and throw for any other name; only that partiality matters
    to the control flow. *)
Definition supportedProvider (cfg : Config) : bool :=
  String.eqb (provider cfg) "openai" || String.eqb (provider cfg) "gemini"
  || String.eqb (provider cfg) "claude" || String.eqb (provider cfg) "mistral"
  || String.eqb (provider cfg) "mock".

(** What the gateway returns to its callers.  The [fallback] flag is only
    present (and true) on the fallback response. *)
Module Response.
Record t := mk {
  content : string;
  tokensUsed : Z;
  model : string;
  provider : string;
  fallback : bool
}.
End Response.

(** What one HTTP exchange with the provider comes to, once the response
    body has been read and [parseResponse] has run: either the parsed
    content with its token count, or an error (a network failure, the
    timeout abort reported as [Request timeout], a non-success status
    reported as [API Error: ...], an unreadable body). *)
Inductive Exchange :=
| ResponseOk (content : string) (tokensUsed : Z)
| RequestFailed (message : string).

(** The provider as the gateway sees it: the outcome of the n-th request
    that is sent. *)
Definition Network := nat -> Exchange.

(** What the history records: a request handed to [fetch], its success or
    its failure with the error message, and a [setTimeout] of so many
    milliseconds that has elapsed. *)
Inductive Event :=
| Sent
| Succeeded
| Failed (message : string)
| Timer (ms : Z).

(** The module-level counters, the number of requests handed to [fetch] so
    far, and the history of requests and timers. *)
Record World := {
  totalTokensUsed : Z;
  requestCount : Z;
  fetched : nat;
  log : list Event
}.

Definition initialWorld : World :=
  {| totalTokensUsed := 0; requestCount := 0; fetched := 0; log := [] |}.

Definition logEvents (w : World) (evs : list Event) : World :=
  {| totalTokensUsed := totalTokensUsed w; requestCount := requestCount w;
     fetched := fetched w; log := log w ++ evs |}.

Definition dq : string := String (ascii_of_nat 34) EmptyString.

(** The keyword table of [generateMockResponse], in insertion order. *)
Definition responses : list (string * string) := [
  ("hello", "Hello! How can I help you today? I can assist with account management, security settings, billing inquiries, mobile app features, troubleshooting, and API integration.");
  ("hi", "Hi there! What can I help you with? I'm here to assist with account management, security settings, billing, mobile app features, troubleshooting, and API integration.");
  ("hey", "Hey! How can I assist you today? I can help with account management, security settings, billing inquiries, mobile app features, troubleshooting, and API integration.");
  ("good morning", "Good morning! How can I help you today? I'm your RAG-powered assistant ready to assist with account management, security settings, billing, and more.");
  ("good afternoon", "Good afternoon! What can I help you with today? I'm here to assist with account management, security settings, billing, mobile app features, and more.");
  ("good evening", "Good evening! How can I assist you today? I'm your RAG-powered assistant ready to help with account management, security settings, billing, and more.");
  ("thanks", "You're welcome! Is there anything else I can help you with?");
  ("thank you", "You're welcome! Is there anything else I can assist you with?");
  ("bye", "Goodbye! Feel free to come back anytime if you need help.");
  ("goodbye", "Goodbye! Have a great day and come back anytime you need assistance.");
  ("help", "I can help you with: account management, security settings, billing inquiries, mobile app features, troubleshooting, and API integration. What would you like to know?");
  ("password", "You can reset your password from Settings > Security. Click on " +:+ dq +:+ "Change Password" +:+ dq +:+ " and enter your current password followed by the new password.");
  ("account", "To set up a new account, click on the " +:+ dq +:+ "Sign Up" +:+ dq +:+ " button on the homepage. Enter your email address, create a strong password, and provide your full name.");
  ("2fa", "Two-Factor Authentication (2FA) adds an extra layer of security. Enable 2FA from Settings > Security > Two-Factor Authentication.");
  ("billing", "We accept various payment methods including credit cards, debit cards, and PayPal. You can update your payment method from Settings > Billing.");
  ("mobile", "Our mobile app is available for both iOS and Android devices. Download it from the App Store or Google Play Store.");
  ("troubleshoot", "If you're having trouble logging in, first check your internet connection, clear your browser cache and cookies, then try again.");
  ("api", "Our API allows developers to integrate our services. Visit the Developer Dashboard to generate an API key and access comprehensive documentation.");
  ("default", "I can help you with account management, security settings, billing inquiries, mobile app features, troubleshooting, and API integration. Please ask me about any of these topics or try rephrasing your question.")
].

Definition lookupKey (key : string) (table : list (string * string)) : option string :=
  snd <$> List.find (fun kv => String.eqb (fst kv) key) table.

(** [generateMockResponse]: the own keys of the table are modelled, the
    names a JavaScript object inherits ([constructor], [__proto__]) are not. *)
Definition generateMockResponse (prompt : string) : string :=
  let lowerPrompt := trim (toLowerCase prompt) in
  match lookupKey lowerPrompt responses with
  | Some response => response
  | None =>
      match List.find (fun kv => includes lowerPrompt (fst kv)) responses with
      | Some (_, response) => response
      | None => default EmptyString (lookupKey "default" responses)
      end
  end.

Definition generateFallbackResponse (error : string) : Response.t := {|
  Response.content := "I apologize, but I'm currently experiencing issues with the AI service. This might be due to API quota limits or temporary service disruptions. The RAG system is working correctly - I can still retrieve relevant documents, but I'm unable to generate AI responses right now. Please try again later or contact support if the issue persists.";
  Response.tokensUsed := 0;
  Response.model := "fallback-response";
  Response.provider := "fallback";
  Response.fallback := true
|}.

(** [makeAPICall]: the call itself can throw (an unsupported provider);
    otherwise it returns a promise.  The mock provider arms its 500 ms
    timer and resolves; a real provider sends one request and, when the
    exchange succeeds, adds to both counters before resolving. *)
Definition makeAPICall (cfg : Config) (net : Network) (prompt : string) (w : World)
  : completion (promise Response.t) * World :=
  if String.eqb (provider cfg) "mock" then
    (Normal (Fulfilled {| Response.content := generateMockResponse prompt;
                          Response.tokensUsed := 0;
                          Response.model := "mock-model";
                          Response.provider := "mock";
                          Response.fallback := false |}),
     logEvents w [Timer 500])
  else if negb (supportedProvider cfg) then
    (Throw (mkError ("Unsupported provider: " +:+ provider cfg)), w)
  else
    match net (fetched w) with
    | ResponseOk content tokensUsed =>
        (Normal (Fulfilled {| Response.content := content;
                              Response.tokensUsed := tokensUsed;
                              Response.model := getCurrentModel cfg;
                              Response.provider := provider cfg;
                              Response.fallback := false |}),
         {| totalTokensUsed := totalTokensUsed w + tokensUsed;
            requestCount := requestCount w + 1;
            fetched := S (fetched w);
            log := log w ++ [Sent; Succeeded] |})
    | RequestFailed message =>
        (Normal (Rejected (mkError message)),
         {| totalTokensUsed := totalTokensUsed w;
            requestCount := requestCount w;
            fetched := S (fetched w);
            log := log w ++ [Sent; Failed message] |})
    end.

(** The recursive [tryCall] inside the promise of [callLLM], one attempt
    per unit of fuel; [None] when the fuel runs out.  An exception thrown
    by [makeAPICall] rejects the promise when it happens in the executor
    (the first attempt) and is lost in a timer callback afterwards. *)
Fixpoint tryCall (fuel : nat) (cfg : Config) (net : Network) (prompt : string)
  (attempt : Z) (w : World) : option (promise Response.t * World) :=
  match fuel with
  | O => None
  | S fuel' =>
      match makeAPICall cfg net prompt w with
      | (Throw e, w1) => Some (if attempt =? 1 then Rejected e else Pending, w1)
      | (Normal (Fulfilled response), w1) =>
          Some (Fulfilled response,
                {| totalTokensUsed := totalTokensUsed w1;
                   requestCount := requestCount w1 + 1;
                   fetched := fetched w1;
                   log := log w1 |})
      | (Normal (Rejected error), w1) =>
          if attempt >=? maxRetries cfg then
            Some (Rejected (mkError ("LLM API failed after " +:+ showZ (maxRetries cfg)
                                     +:+ " attempts: " +:+ message error)), w1)
          else
            tryCall fuel' cfg net prompt (attempt + 1)
                    (logEvents w1 [Timer (retryDelay cfg * 2 ^ (attempt - 1))])
      | (Normal Pending, w1) => Some (Pending, w1)
      end
  end.

(** [callLLM]: the key check throws before any promise exists. *)
Definition callLLM (fuel : nat) (cfg : Config) (net : Network) (prompt : string)
  (w : World) : completion (option (promise Response.t * World)) :=
  if String.eqb (getCurrentApiKey cfg) "" then
    Throw (mkError ("API key is required. Set " +:+ toUpperCase (provider cfg)
                    +:+ "_API_KEY environment variable."))
  else Normal (tryCall fuel cfg net prompt 1 w).

(** [callLLMWithFallback]: [callLLM(prompt).catch(...)].  The handler is
    attached to the promise that [callLLM] returns; an exception thrown by
    the call itself passes through. *)
Definition callLLMWithFallback (fuel : nat) (cfg : Config) (net : Network)
  (prompt : string) (w : World) : completion (option (promise Response.t * World)) :=
  match callLLM fuel cfg net prompt w with
  | Throw e => Throw e
  | Normal None => Normal None
  | Normal (Some (Rejected error, w')) =>
      Normal (Some (Fulfilled (generateFallbackResponse (message error)), w'))
  | Normal (Some (p, w')) => Normal (Some (p, w'))
  end.

Definition resetUsageStats (w : World) : World :=
  {| totalTokensUsed := 0; requestCount := 0; fetched := fetched w; log := log w |}.

End LlmService.

(** *** The history that failing attempts leave behind *)

Module LlmTrace.
Import LlmService.

(** The history that [n] failing attempts leave behind, the first of them
    being attempt number [attempt] and request number [idx]: each request
    is followed by its failure, and every attempt but the last by the
    backoff timer. *)
Fixpoint backoffLog (delay : Z) (errs : nat -> string) (attempt : Z) (idx n : nat)
  : list Event :=
  match n with
  | O => []
  | S n' =>
      [Sent; Failed (errs idx)] ++
      match n' with
      | O => []
      | S _ => Timer (delay * 2 ^ (attempt - 1))
               :: backoffLog delay errs (attempt + 1) (S idx) n'
      end
  end.

(** Number of requests in a history. *)
Definition requestsIn (evs : list Event) : nat :=
  length (List.filter (fun ev => match ev with Sent => true | _ => false end) evs).

End LlmTrace.

(** ** conversationManager.js: sessions with bounded history *)

Module ConversationManager.

Record Config := { maxHistoryLength : Z; sessionTimeout : Z }.

Definition config : Config :=
  {| maxHistoryLength := 6; sessionTimeout := 3600000 |}.

(** The optional metadata a caller passes to [addMessage]. *)
Module MetadataArg.
Record t := mk {
  tokensUsed : option Z;
  model : option string;
  retrievedChunks : option Z;
  similarityScores : option (list float)
}.
Definition none : t := mk None None None None.
End MetadataArg.

Module MessageMetadata.
Record t := mk {
  tokensUsed : Z;
  model : string;
  retrievedChunks : Z;
  similarityScores : list float
}.
End MessageMetadata.

Module Message.
Record t := mk {
  id : string;
  role : string;
  content : string;
  timestamp : Z;
  metadata : MessageMetadata.t
}.
End Message.

Module SessionMetadata.
Record t := mk { userAgent : option string; ip : option string }.
End SessionMetadata.

(** A session.  Dates are kept as the millisecond count that their ISO
    string stands for. *)
Module Session.
Record t := mk {
  id : string;
  createdAt : Z;
  lastActivity : Z;
  messages : list Message.t;
  metadata : SessionMetadata.t;
  messageCount : Z
}.
End Session.

(** The module-level [sessions] map.  [saveSessions] writes a copy of it
    to disk and swallows its own errors; it does not touch the map and is
    left out. *)
Abbreviation Sessions := (gmap string Session.t).

(** What [getConversationHistory] returns for one message. *)
Module HistoryItem.
Record t := mk { role : string; content : string; timestamp : Z }.
End HistoryItem.

Definition isSessionExpired (cfg : Config) (now : Z) (session : Session.t) : bool :=
  now - Session.lastActivity session >? sessionTimeout cfg.

(** [getSession]: an expired session is deleted on the way. *)
Definition getSession (cfg : Config) (now : Z) (sessions : Sessions) (sessionId : string)
  : option Session.t * Sessions :=
  match sessions !! sessionId with
  | None => (None, sessions)
  | Some session =>
      if isSessionExpired cfg now session then (None, delete sessionId sessions)
      else (Some session, sessions)
  end.

(** [createSession], with the random id drawn by [generateSessionId]. *)
Definition createSession (now : Z) (sessionId : string) (sessions : Sessions)
  (metadata : SessionMetadata.t) : string * Sessions :=
  let session := Session.mk sessionId now now [] metadata 0 in
  (sessionId, <[sessionId := session]> sessions).

(** [getOrCreateSession]; [newId] is the id a fresh session would get. *)
Definition getOrCreateSession (cfg : Config) (now : Z) (newId : string)
  (sessions : Sessions) (sessionId : option string) (metadata : SessionMetadata.t)
  : string * Sessions :=
  match sessionId with
  | None | Some EmptyString => createSession now newId sessions metadata
  | Some sessionId =>
      match getSession cfg now sessions sessionId with
      | (Some session, sessions) =>
          let session :=
            Session.mk (Session.id session) (Session.createdAt session) now
                       (Session.messages session) (Session.metadata session)
                       (Session.messageCount session) in
          (sessionId, <[sessionId := session]> sessions)
      | (None, sessions) => createSession now newId sessions metadata
      end
  end.

(** The message object that [addMessage] builds: every metadata field the
    caller leaves out gets its default. *)
Definition buildMessage (now : Z) (messageId role content : string)
  (metadata : MetadataArg.t) : Message.t :=
  Message.mk messageId role content now
    (MessageMetadata.mk
       (default 0 (MetadataArg.tokensUsed metadata))
       (default EmptyString (MetadataArg.model metadata))
       (default 0 (MetadataArg.retrievedChunks metadata))
       (default [] (MetadataArg.similarityScores metadata))).

(** The trimming step: [messages.splice(0, excess)] when the list is longer
    than [maxHistoryLength]. *)
Definition trimHistory (cfg : Config) (messages : list Message.t) : list Message.t :=
  if len messages >? maxHistoryLength cfg then
    let excessMessages := len messages - maxHistoryLength cfg in
    skipn (Z.to_nat excessMessages) messages
  else messages.

(** [addMessage], with the clock reading and the random message id. *)
Definition addMessage (cfg : Config) (now : Z) (messageId : string)
  (sessions : Sessions) (sessionId role content : string) (metadata : MetadataArg.t)
  : completion Session.t * Sessions :=
  match getSession cfg now sessions sessionId with
  | (None, sessions) =>
      (Throw (mkError ("Session " +:+ sessionId +:+ " not found or expired")), sessions)
  | (Some session, sessions) =>
      let message := buildMessage now messageId role content metadata in
      let messages := Session.messages session ++ [message] in
      let session :=
        Session.mk (Session.id session) (Session.createdAt session) now
                   (trimHistory cfg messages) (Session.metadata session)
                   (Session.messageCount session + 1) in
      (Normal session, <[sessionId := session]> sessions)
  end.

(** [getConversationHistory]; [limit] is [None] for the default [null]. *)
Definition getConversationHistory (cfg : Config) (now : Z) (sessions : Sessions)
  (sessionId : string) (limit : option Z) : list HistoryItem.t * Sessions :=
  match getSession cfg now sessions sessionId with
  | (None, sessions) => ([], sessions)
  | (Some session, sessions) =>
      let messages := Session.messages session in
      let messages :=
        match limit with
        | Some limit =>
            if negb (limit =? 0) && (limit >? 0)
            then slice messages (- limit) (len messages)
            else messages
        | None => messages
        end in
      (map (fun msg => HistoryItem.mk (Message.role msg) (Message.content msg)
                                      (Message.timestamp msg)) messages,
       sessions)
  end.

(** [getFormattedHistory]: role and content only. *)
Definition getFormattedHistory (cfg : Config) (now : Z) (sessions : Sessions)
  (sessionId : string) : list RagPipeline.Msg.t * Sessions :=
  let '(history, sessions) := getConversationHistory cfg now sessions sessionId None in
  (map (fun msg => RagPipeline.Msg.mk (HistoryItem.role msg) (HistoryItem.content msg))
       history,
   sessions).

(** [clearConversation]. *)
Definition clearConversation (cfg : Config) (now : Z) (sessions : Sessions)
  (sessionId : string) : completion Session.t * Sessions :=
  match getSession cfg now sessions sessionId with
  | (None, sessions) =>
      (Throw (mkError ("Session " +:+ sessionId +:+ " not found or expired")), sessions)
  | (Some session, sessions) =>
      let session :=
        Session.mk (Session.id session) (Session.createdAt session) now
                   [] (Session.metadata session) 0 in
      (Normal session, <[sessionId := session]> sessions)
  end.

(** [deleteSession]. *)
Definition deleteSession (sessions : Sessions) (sessionId : string) : bool * Sessions :=
  match sessions !! sessionId with
  | Some _ => (true, delete sessionId sessions)
  | None => (false, sessions)
  end.

(** One call of [addMessage] as a caller issues it: the arguments, the
    clock reading at the call and the random id it draws. *)
Module AddCall.
Record t := mk {
  now : Z;
  messageId : string;
  role : string;
  content : string;
  metadata : MetadataArg.t
}.
End AddCall.

Definition messageOf (call : AddCall.t) : Message.t :=
  buildMessage (AddCall.now call) (AddCall.messageId call) (AddCall.role call)
               (AddCall.content call) (AddCall.metadata call).

(** A run of [addMessage] calls on one session id; the first call that
    throws ends the run. *)
Fixpoint addMessages (cfg : Config) (sessions : Sessions) (sessionId : string)
  (calls : list AddCall.t) : completion Sessions :=
  match calls with
  | [] => Normal sessions
  | call :: rest =>
      match addMessage cfg (AddCall.now call) (AddCall.messageId call) sessions
                       sessionId (AddCall.role call) (AddCall.content call)
                       (AddCall.metadata call) with
      | (Throw e, _) => Throw e
      | (Normal _, sessions) => addMessages cfg sessions sessionId rest
      end
  end.

End ConversationManager.

(** *** The window that the history trimming keeps *)

Module HistoryWindow.

(** The last [n] elements of a list. *)
Definition keepLast {A} (n : nat) (l : list A) : list A := skipn (length l - n) l.

End HistoryWindow.

(** ** Text: where the prelude is JavaScript's

    A JavaScript string is a sequence of UTF-16 code units; the prelude
    keeps a string as the sequence of its bytes.  For text of ASCII
    characters the two are the same sequence, and [length], [substring],
    [trim], [toLowerCase] and [toUpperCase] as the prelude has them are
    those of JavaScript.  The statements that depend on one of these
    functions are made for ASCII text. *)

Module Text.
Import LlmService.

Definition asciiChar (c : ascii) : bool := (nat_of_ascii c <? 128)%nat.

Fixpoint isAscii (s : string) : bool :=
  match s with
  | EmptyString => true
  | String c rest => asciiChar c && isAscii rest
  end.

(** The names that every object inherits from [Object.prototype].  A
    lookup [table[name]] with one of them finds the inherited function or
    object, whatever the own keys of [table] are. *)
Definition inheritedNames : list string :=
  ["constructor"; "__defineGetter__"; "__defineSetter__"; "hasOwnProperty";
   "__lookupGetter__"; "__lookupSetter__"; "isPrototypeOf"; "propertyIsEnumerable";
   "toString"; "valueOf"; "__proto__"; "toLocaleString"]%string.

Definition inheritedName (name : string) : bool :=
  existsb (String.eqb name) inheritedNames.

(** A prompt that [generateMockResponse] answers from its own table: ASCII
    text whose lower-case, trimmed form is none of the inherited names. *)
Definition plainPrompt (prompt : string) : Prop :=
  isAscii prompt = true /\ inheritedName (trim (toLowerCase prompt)) = false.

(** A provider whose answers are ASCII text. *)
Definition asciiAnswers (net : Network) : Prop :=
  forall (k : nat) (content : string) (tokensUsed : Z),
    net k = ResponseOk content tokensUsed -> isAscii content = true.

End Text.

(** ** documentManager.js: from documents to chunks *)

Module DocumentProcessing.
Import DocumentManager.

(** A document of [docs.json]: the two properties the module reads. *)
Module Document.
Record t := mk { title : string; content : string }.
End Document.

Module ChunkMetadata.
Record t := mk { source : string; title : string; chunkId : string }.
End ChunkMetadata.

(** A chunk as [processDocuments] builds it, before it gets an embedding. *)
Module TextChunk.
Record t := mk {
  id : string;
  documentTitle : string;
  documentIndex : Z;
  chunkIndex : Z;
  content : string;
  wordCount : Z;
  metadata : ChunkMetadata.t
}.
End TextChunk.

(** The template [doc_${docIndex}_chunk_${chunkIndex}]. *)
Definition chunkId (docIndex chunkIndex : nat) : string :=
  "doc_" +:+ showZ (Z.of_nat docIndex) +:+ "_chunk_" +:+ showZ (Z.of_nat chunkIndex).

(** The object pushed for one chunk of one document. *)
Definition makeChunk (doc : Document.t) (docIndex : nat) (entry : nat * string)
  : TextChunk.t :=
  let '(chunkIndex, chunk) := entry in
  {| TextChunk.id := chunkId docIndex chunkIndex;
     TextChunk.documentTitle := Document.title doc;
     TextChunk.documentIndex := Z.of_nat docIndex;
     TextChunk.chunkIndex := Z.of_nat chunkIndex;
     TextChunk.content := chunk;
     TextChunk.wordCount := len (split " " chunk);
     TextChunk.metadata :=
       {| ChunkMetadata.source := "docs.json";
          ChunkMetadata.title := Document.title doc;
          ChunkMetadata.chunkId := chunkId docIndex chunkIndex |} |}.

(** The [forEach] over the documents, from document number [docIndex] on:
    the chunks of each document are pushed in their order.  [None] when
    [chunkText] runs out of fuel on a document. *)
Fixpoint processFrom (fuel : nat) (docIndex : nat) (documents : list Document.t)
  (chunks : list TextChunk.t) : option (list TextChunk.t) :=
  match documents with
  | [] => Some chunks
  | doc :: rest =>
      match chunkTextDefault fuel (Document.content doc) with
      | None => None
      | Some textChunks =>
          processFrom fuel (S docIndex) rest
            (chunks ++ map (makeChunk doc docIndex)
                           (combine (seq 0 (length textChunks)) textChunks))
      end
  end.

(** [processDocuments]: the chunk list is emptied first. *)
Definition processDocuments (fuel : nat) (documents : list Document.t)
  : option (list TextChunk.t) :=
  processFrom fuel 0 documents [].

(** Whether a character occurs in a string. *)
Fixpoint hasChar (c : ascii) (s : string) : bool :=
  match s with
  | EmptyString => false
  | String d rest => Ascii.eqb d c || hasChar c rest
  end.

(** The number of chunks that a text of [w] words is cut into. *)
Definition chunkCount (size overlap w : Z) : Z :=
  if w <=? size then 1 else ceilDiv (w - overlap) (size - overlap).

(** The number of words of the longest document. *)
Definition longestDocument (documents : list Document.t) : nat :=
  fold_right (fun doc m => Nat.max (length (split " " (Document.content doc))) m)
             0%nat documents.

(** The number of chunks that the documents are cut into. *)
Definition totalChunks (documents : list Document.t) : Z :=
  fold_right (fun doc total =>
                chunkCount (chunkSize config) (chunkOverlap config)
                           (len (split " " (Document.content doc))) + total)
             0 documents.

(** The chunk that stands for window number [c] of document number
    [base + d]: the window starts [c] strides into the words of the
    document. *)
Definition windowChunk (doc : Document.t) (docIndex c : nat) : TextChunk.t :=
  makeChunk doc docIndex
    (c, join " " (slice (split " " (Document.content doc))
                        (Z.of_nat c * (chunkSize config - chunkOverlap config))
                        (Z.of_nat c * (chunkSize config - chunkOverlap config)
                         + chunkSize config))).

(** The chunks of one document: one for each of its windows, in the order
    of the windows. *)
Definition documentChunks (doc : Document.t) (docIndex : nat) : list TextChunk.t :=
  map (windowChunk doc docIndex)
      (seq 0 (Z.to_nat (chunkCount (chunkSize config) (chunkOverlap config)
                                   (len (split " " (Document.content doc)))))).

(** The chunks of the documents from number [docIndex] on, document after
    document. *)
Fixpoint allChunks (docIndex : nat) (documents : list Document.t) : list TextChunk.t :=
  match documents with
  | [] => []
  | doc :: rest => documentChunks doc docIndex ++ allChunks (S docIndex) rest
  end.

Definition chunkAt (documents : list Document.t) (base : nat) (chunk : TextChunk.t)
  : Prop :=
  exists (d c : nat) (doc : Document.t),
    nth_error documents d = Some doc
    /\ Z.of_nat c < chunkCount (chunkSize config) (chunkOverlap config)
                              (len (split " " (Document.content doc)))
    /\ chunk = windowChunk doc (base + d) c
    /\ 1 <= TextChunk.wordCount chunk <= chunkSize config.

(** The place of a chunk: its document and its number in the document. *)
Definition place (chunk : TextChunk.t) : Z * Z :=
  (TextChunk.documentIndex chunk, TextChunk.chunkIndex chunk).

End DocumentProcessing.

(** ** ragPipeline.js: retrieval and the query pipeline *)

Module Retrieval.
Import RagPipeline LlmService.

(** What [retrieveContext] returns; [mockResponse] is only present on the
    answer for the mock provider. *)
Module RetrievalResult.
Record t := mk {
  hasContext : bool;
  context : list ContextEntry.t;
  message : string;
  similarityScores : list float;
  mockResponse : option string
}.
End RetrievalResult.

(** [retrieveContext(query)], with the random embedding that
    [generateQueryEmbedding] draws for the query.  The whole body sits in
    a [try]: an exception of the search comes out as the error result. *)
Definition retrieveContext (env : Env) (st : State) (queryEmbedding : list float)
  (query : string) : RetrievalResult.t :=
  match similaritySearch st queryEmbedding with
  | Throw error =>
      {| RetrievalResult.hasContext := false;
         RetrievalResult.context := [];
         RetrievalResult.message := "An error occurred while searching for information.";
         RetrievalResult.similarityScores := [];
         RetrievalResult.mockResponse := None |}
  | Normal relevantChunks =>
      if len relevantChunks =? 0 then
        if match LLM_PROVIDER env with
           | Some name => String.eqb name "mock"
           | None => false
           end
        then
          {| RetrievalResult.hasContext := false;
             RetrievalResult.context := [];
             RetrievalResult.message := "Using mock response for general query.";
             RetrievalResult.similarityScores := [];
             RetrievalResult.mockResponse := Some (generateMockResponse query) |}
        else
          {| RetrievalResult.hasContext := false;
             RetrievalResult.context := [];
             RetrievalResult.message :=
               "I don't have enough information to answer this question.";
             RetrievalResult.similarityScores := [];
             RetrievalResult.mockResponse := None |}
      else
        let context := formatContext relevantChunks in
        {| RetrievalResult.hasContext := true;
           RetrievalResult.context := context;
           RetrievalResult.message :=
             "Found " +:+ showZ (len context) +:+ " relevant documents.";
           RetrievalResult.similarityScores := map Scored.similarity relevantChunks;
           RetrievalResult.mockResponse := None |}
  end.

(** What [processQuery] returns on its regular path. *)
Module QueryResult.
Record t := mk {
  success : bool;
  query : string;
  hasContext : bool;
  context : list ContextEntry.t;
  prompt : string;
  similarityScores : list float;
  retrievedChunks : Z;
  message : string;
  mockResponse : option string
}.
End QueryResult.

(** The text that stands in for the prompt when nothing was retrieved. *)
Definition noContextPrompt (userQuery : string) : string :=
  "I don't have enough information in my knowledge base to answer: " +:+ dq
  +:+ userQuery +:+ dq
  +:+ ". Please try rephrasing your question or contact support for more specific assistance.".

(** [processQuery(userQuery, conversationHistory)].  [retrieveContext]
    catches its own exceptions and [constructPrompt] has no step that
    throws, so the handler of the [try] around the body is never entered;
    the regular path is what is modelled. *)
Definition processQuery (env : Env) (st : State) (queryEmbedding : list float)
  (userQuery : string) (conversationHistory : list Msg.t) : QueryResult.t :=
  let retrievalResult := retrieveContext env st queryEmbedding userQuery in
  let prompt :=
    if RetrievalResult.hasContext retrievalResult then
      constructPrompt userQuery (Some (RetrievalResult.context retrievalResult))
                      conversationHistory
    else
      match RetrievalResult.mockResponse retrievalResult with
      | Some (String c rest) => String c rest
      | _ => noContextPrompt userQuery
      end in
  {| QueryResult.success := true;
     QueryResult.query := userQuery;
     QueryResult.hasContext := RetrievalResult.hasContext retrievalResult;
     QueryResult.context := RetrievalResult.context retrievalResult;
     QueryResult.prompt := prompt;
     QueryResult.similarityScores := RetrievalResult.similarityScores retrievalResult;
     QueryResult.retrievedChunks := len (RetrievalResult.context retrievalResult);
     QueryResult.message := RetrievalResult.message retrievalResult;
     QueryResult.mockResponse := RetrievalResult.mockResponse retrievalResult |}.

(** A call of one of the two setters. *)
Inductive Setter :=
| SetSimilarityThreshold (threshold : float)
| SetMaxRetrievedChunks (maxChunks : Z).

(** The state after a setter call: a call that throws has assigned nothing. *)
Definition applySetter (st : State) (call : Setter) : State :=
  match call with
  | SetSimilarityThreshold threshold =>
      match setSimilarityThreshold st threshold with
      | Normal st' => st'
      | Throw _ => st
      end
  | SetMaxRetrievedChunks maxChunks =>
      match setMaxRetrievedChunks st maxChunks with
      | Normal st' => st'
      | Throw _ => st
      end
  end.

Definition applySetters (st : State) (calls : list Setter) : State :=
  fold_left applySetter calls st.

(** What the setters keep true of the two tuning variables. *)
Definition tuned (st : State) : Prop :=
  1 <= maxRetrievedChunks st <= 10
  /\ (is_nan (similarityThreshold st) = true
      \/ ((0 <=? similarityThreshold st)%float = true
          /\ (similarityThreshold st <=? 1)%float = true)).

End Retrieval.

(** ** llmService.js: requests, settings and the connection test *)

Module JSMath.

(** [Math.min] and [Math.max] on two numbers: NaN if either is NaN, and
    the negative zero counts as less than the positive one. *)
Definition min (a b : float) : float :=
  if is_nan a || is_nan b then nan
  else if (a <? b)%float then a
  else if (b <? a)%float then b
  else if get_sign a then a else b.

Definition max (a b : float) : float :=
  if is_nan a || is_nan b then nan
  else if (a <? b)%float then b
  else if (b <? a)%float then a
  else if get_sign a then b else a.

End JSMath.

Module LlmRequests.
Import LlmService.

(** The JSON values that the request bodies are made of. *)
#[local] Unset Elimination Schemes.
Inductive Json :=
| JString (s : string)
| JInteger (z : Z)
| JNumber (x : float)
| JArray (items : list Json)
| JObject (fields : list (string * Json)).
#[local] Set Elimination Schemes.

(** What [getApiConfig] returns: the endpoint and the headers. *)
Record ApiConfig := { url : string; headers : list (string * string) }.

Definition getApiConfig (cfg : Config) : completion ApiConfig :=
  if String.eqb (provider cfg) "openai" then
    Normal {| url := "https://api.openai.com/v1/chat/completions";
              headers := [("Authorization", "Bearer " +:+ openaiApiKey cfg);
                          ("Content-Type", "application/json")] |}
  else if String.eqb (provider cfg) "gemini" then
    Normal {| url := "https://generativelanguage.googleapis.com/v1beta/models/"
                     +:+ geminiModel cfg +:+ ":generateContent?key=" +:+ geminiApiKey cfg;
              headers := [("Content-Type", "application/json")] |}
  else if String.eqb (provider cfg) "claude" then
    Normal {| url := "https://api.anthropic.com/v1/messages";
              headers := [("x-api-key", claudeApiKey cfg);
                          ("Content-Type", "application/json");
                          ("anthropic-version", "2023-06-01")] |}
  else if String.eqb (provider cfg) "mistral" then
    Normal {| url := "https://api.mistral.ai/v1/chat/completions";
              headers := [("Authorization", "Bearer " +:+ mistralApiKey cfg);
                          ("Content-Type", "application/json")] |}
  else if String.eqb (provider cfg) "mock" then
    Normal {| url := "mock://api";
              headers := [("Content-Type", "application/json")] |}
  else Throw (mkError ("Unsupported provider: " +:+ provider cfg)).

(** The one-message conversation of the chat-style bodies. *)
Definition userMessages (prompt : string) : Json :=
  JArray [JObject [("role", JString "user"); ("content", JString prompt)]].

Definition buildRequestBody (cfg : Config) (prompt : string) : completion Json :=
  if String.eqb (provider cfg) "openai" then
    Normal (JObject [("model", JString (openaiModel cfg));
                     ("messages", userMessages prompt);
                     ("temperature", JNumber (temperature cfg));
                     ("max_tokens", JInteger (maxTokens cfg))])
  else if String.eqb (provider cfg) "gemini" then
    Normal (JObject [("contents",
                      JArray [JObject [("parts",
                                        JArray [JObject [("text", JString prompt)]])]]);
                     ("generationConfig",
                      JObject [("temperature", JNumber (temperature cfg));
                               ("maxOutputTokens", JInteger (maxTokens cfg))])])
  else if String.eqb (provider cfg) "claude" then
    Normal (JObject [("model", JString (claudeModel cfg));
                     ("max_tokens", JInteger (maxTokens cfg));
                     ("temperature", JNumber (temperature cfg));
                     ("messages", userMessages prompt)])
  else if String.eqb (provider cfg) "mistral" then
    Normal (JObject [("model", JString (mistralModel cfg));
                     ("messages", userMessages prompt);
                     ("temperature", JNumber (temperature cfg));
                     ("max_tokens", JInteger (maxTokens cfg))])
  else if String.eqb (provider cfg) "mock" then
    Normal (JObject [("model", JString "mock-model");
                     ("prompt", JString prompt);
                     ("temperature", JNumber (temperature cfg));
                     ("max_tokens", JInteger (maxTokens cfg))])
  else Throw (mkError ("Unsupported provider: " +:+ provider cfg)).

(** The [config] object once [updateConfig] has run: the configuration the
    module starts with, and the two properties [model] and [apiKey] that
    only [updateConfig] sets. *)
Module Settings.
Record t := mk {
  config : Config;
  model : option string;
  apiKey : option string
}.
End Settings.

Definition initialSettings (env : Env) : Settings.t :=
  Settings.mk (LlmService.config env) None None.

(** The argument of [updateConfig]; a property the caller leaves out is
    [None]. *)
Module NewConfig.
Record t := mk {
  model : option string;
  temperature : option float;
  maxTokens : option Z;
  apiKey : option string
}.
End NewConfig.

(** Truthiness of an optional string and of an optional integer. *)
Definition truthyString (v : option string) : bool :=
  match v with
  | Some (String _ _) => true
  | _ => false
  end.

Definition truthyInteger (v : option Z) : bool :=
  match v with
  | Some z => negb (z =? 0)
  | None => false
  end.

Definition withTemperatureAndMaxTokens (cfg : Config) (t : float) (m : Z) : Config := {|
  provider := provider cfg;
  openaiApiKey := openaiApiKey cfg;
  openaiModel := openaiModel cfg;
  geminiApiKey := geminiApiKey cfg;
  geminiModel := geminiModel cfg;
  claudeApiKey := claudeApiKey cfg;
  claudeModel := claudeModel cfg;
  mistralApiKey := mistralApiKey cfg;
  mistralModel := mistralModel cfg;
  temperature := t;
  maxTokens := m;
  timeout := timeout cfg;
  maxRetries := maxRetries cfg;
  retryDelay := retryDelay cfg
|}.

Definition updateConfig (settings : Settings.t) (newConfig : NewConfig.t) : Settings.t :=
  let model :=
    if truthyString (NewConfig.model newConfig) then NewConfig.model newConfig
    else Settings.model settings in
  let temperature :=
    match NewConfig.temperature newConfig with
    | Some t => JSMath.max 0 (JSMath.min 2 t)
    | None => temperature (Settings.config settings)
    end in
  let maxTokens :=
    if truthyInteger (NewConfig.maxTokens newConfig)
    then default 0 (NewConfig.maxTokens newConfig)
    else maxTokens (Settings.config settings) in
  let apiKey :=
    if truthyString (NewConfig.apiKey newConfig) then NewConfig.apiKey newConfig
    else Settings.apiKey settings in
  Settings.mk (withTemperatureAndMaxTokens (Settings.config settings) temperature maxTokens)
              model apiKey.

(** A run of [updateConfig] calls. *)
Definition applyUpdates (settings : Settings.t) (updates : list NewConfig.t)
  : Settings.t :=
  fold_left updateConfig updates settings.

(** An update that names neither a temperature nor a token limit. *)
Definition namesNoSampling (newConfig : NewConfig.t) : Prop :=
  NewConfig.temperature newConfig = None
  /\ truthyInteger (NewConfig.maxTokens newConfig) = false.

(** What [testConnection] resolves to. *)
Module TestResult.
Record t := mk {
  success : bool;
  message : string;
  model : option string;
  response : option string;
  error : option string
}.
End TestResult.

Definition testPrompt : string :=
  "Hello! Please respond with 'Connection successful' if you can read this.".

(** [testConnection], the declaration at the end of the module, which is
    the one in force: [callLLM(...).then(...).catch(...)].  The first
    hundred characters of the answer are its first hundred bytes when the
    answer is ASCII text. *)
Definition testConnection (fuel : nat) (settings : Settings.t) (net : Network)
  (w : World) : completion (option (promise TestResult.t * World)) :=
  match callLLM fuel (Settings.config settings) net testPrompt w with
  | Throw e => Throw e
  | Normal None => Normal None
  | Normal (Some (Fulfilled response, w')) =>
      Normal (Some (Fulfilled
        {| TestResult.success := true;
           TestResult.message := "Connection successful";
           TestResult.model := Settings.model settings;
           TestResult.response :=
             Some (String.substring 0 100 (Response.content response));
           TestResult.error := None |}, w'))
  | Normal (Some (Rejected error, w')) =>
      Normal (Some (Fulfilled
        {| TestResult.success := false;
           TestResult.message := "Connection failed";
           TestResult.model := None;
           TestResult.response := None;
           TestResult.error := Some (JS.message error) |}, w'))
  | Normal (Some (Pending, w')) => Normal (Some (Pending, w'))
  end.

End LlmRequests.

(** *** The history of a call that recovers *)

Module LlmRetryTrace.
Import LlmService.

(** The history of [n] failing attempts that are all retried: each request
    is followed by its failure and by the backoff timer. *)
Fixpoint retryLog (delay : Z) (errs : nat -> string) (attempt : Z) (idx n : nat)
  : list Event :=
  match n with
  | O => []
  | S n' =>
      [Sent; Failed (errs idx); Timer (delay * 2 ^ (attempt - 1))]
      ++ retryLog delay errs (attempt + 1) (S idx) n'
  end.

(** The milliseconds that the timers of a history add up to. *)
Definition waited (evs : list Event) : Z :=
  fold_right (fun ev total => match ev with Timer ms => ms + total | _ => total end) 0 evs.

(** The requests that the loop may still send when it is at attempt
    [attempt]. *)
Definition remaining (cfg : Config) (attempt : Z) : nat :=
  Z.to_nat (Z.max 1 (maxRetries cfg - attempt + 1)).

(** The most requests one call may send. *)
Definition requestBudget (cfg : Config) : nat := Z.to_nat (Z.max 1 (maxRetries cfg)).

(** The prefix of the error message with which [callLLM] gives up. *)
Definition gaveUp (cfg : Config) (e : Error) : Prop :=
  exists cause,
    message e = "LLM API failed after " +:+ showZ (maxRetries cfg) +:+ " attempts: " +:+ cause.

End LlmRetryTrace.

(** ** conversationManager.js: maintenance of the session map *)

Module SessionMaintenance.
Import ConversationManager.

(** [cleanupExpiredSessions]: the ids of the expired sessions are collected
    first and deleted afterwards. *)
Definition cleanupExpiredSessions (cfg : Config) (now : Z) (sessions : Sessions)
  : Sessions :=
  let expiredSessions :=
    map fst (List.filter (fun entry => isSessionExpired cfg now (snd entry))
                         (map_to_list sessions)) in
  fold_left (fun sessions sessionId => delete sessionId sessions)
            expiredSessions sessions.

(** What [loadSessions] finds on disk: no file, a file that cannot be read
    or parsed, or a parsed file with its [sessions] object, if it has one,
    as the list of its entries. *)
Inductive StorageFile :=
| NoFile
| Unreadable
| Stored (entries : option (list (string * Session.t))).

(** [loadSessions]: without a file the map stays as it is; otherwise it is
    cleared and the entries that have not expired are set one by one. *)
Definition loadSessions (cfg : Config) (now : Z) (file : StorageFile)
  (sessions : Sessions) : Sessions :=
  match file with
  | NoFile => sessions
  | Unreadable => ∅
  | Stored entries =>
      fold_left (fun sessions entry =>
                   if negb (isSessionExpired cfg now (snd entry))
                   then <[fst entry := snd entry]> sessions
                   else sessions)
                (default [] entries) ∅
  end.

(** The calls that change or read the session map, each with the clock
    reading and the random ids it draws. *)
Inductive Request :=
| CreateSession (now : Z) (newId : string) (metadata : SessionMetadata.t)
| GetOrCreateSession (now : Z) (newId : string) (sessionId : option string)
    (metadata : SessionMetadata.t)
| AddMessage (now : Z) (messageId sessionId role content : string)
    (metadata : MetadataArg.t)
| GetConversationHistory (now : Z) (sessionId : string) (limit : option Z)
| ClearConversation (now : Z) (sessionId : string)
| DeleteSession (sessionId : string)
| CleanupExpiredSessions (now : Z).

(** The session map after one call; a call that throws leaves the map as
    the call left it when it threw. *)
Definition step (cfg : Config) (sessions : Sessions) (request : Request) : Sessions :=
  match request with
  | CreateSession now newId metadata => snd (createSession now newId sessions metadata)
  | GetOrCreateSession now newId sessionId metadata =>
      snd (getOrCreateSession cfg now newId sessions sessionId metadata)
  | AddMessage now messageId sessionId role content metadata =>
      snd (addMessage cfg now messageId sessions sessionId role content metadata)
  | GetConversationHistory now sessionId limit =>
      snd (getConversationHistory cfg now sessions sessionId limit)
  | ClearConversation now sessionId => snd (clearConversation cfg now sessions sessionId)
  | DeleteSession sessionId => snd (deleteSession sessions sessionId)
  | CleanupExpiredSessions now => cleanupExpiredSessions cfg now sessions
  end.

Definition run (cfg : Config) (sessions : Sessions) (requests : list Request) : Sessions :=
  fold_left (step cfg) requests sessions.

(** What holds of every session of a map the module has built: it is filed
    under its own id, it holds no more messages than the history bound, and
    its counter is at least the number of messages it holds. *)
Definition sessionInvariant (cfg : Config) (sessionId : string) (session : Session.t)
  : Prop :=
  Session.id session = sessionId
  /\ len (Session.messages session) <= maxHistoryLength cfg
  /\ len (Session.messages session) <= Session.messageCount session.

Definition storeInvariant (cfg : Config) (sessions : Sessions) : Prop :=
  map_Forall (sessionInvariant cfg) sessions.

(** The clock readings of a run of [addMessage] calls lie close enough
    together: each call comes no later than the timeout after the activity
    before it. *)
Fixpoint withinTimeout (cfg : Config) (lastActivity : Z) (calls : list AddCall.t) : Prop :=
  match calls with
  | [] => True
  | call :: rest =>
      AddCall.now call - lastActivity <= sessionTimeout cfg
      /\ withinTimeout cfg (AddCall.now call) rest
  end.

(** The time of the last activity after a run of calls. *)
Definition lastActivityAfter (lastActivity : Z) (calls : list AddCall.t) : Z :=
  List.last (map AddCall.now calls) lastActivity.

End SessionMaintenance.

(** ** routes/chat.js: the chat endpoint *)

Module ChatRoute.
Import RagPipeline LlmService LlmRequests ConversationManager Retrieval Text.

(** A property of the parsed request body, as far as the route tells
    values apart: a string; a value that is not a string and is falsy (the
    property is missing, or it is [null], [false] or [0]); a value that is
    not a string and is truthy (another number, [true], an array, an
    object). *)
Inductive Field :=
| Str (s : string)
| FalsyValue
| TruthyValue.

Definition truthy (v : Field) : bool :=
  match v with
  | Str (String _ _) | TruthyValue => true
  | Str EmptyString | FalsyValue => false
  end.

Definition isString (v : Field) : bool :=
  match v with
  | Str _ => true
  | _ => false
  end.

(** The text of a property that is a string. *)
Definition text (v : Field) : string :=
  match v with
  | Str s => s
  | _ => EmptyString
  end.

(** The body of a request: the two properties the route reads. *)
Module Body.
Record t := mk { sessionId : Field; message : Field }.
End Body.

Module Validation.
Record t := mk { isValid : bool; error : option string }.
End Validation.

(** [validateRequest]: the five checks in their order; [None] is a body
    that is missing. *)
Definition validateRequest (body : option Body.t) : Validation.t :=
  match body with
  | None => Validation.mk false (Some "Request body is required"%string)
  | Some body =>
      if negb (truthy (Body.message body)) || negb (isString (Body.message body)) then
        Validation.mk false (Some "Message is required and must be a string"%string)
      else if (String.length (trim (text (Body.message body))) =? 0)%nat then
        Validation.mk false (Some "Message cannot be empty"%string)
      else if (2000 <? String.length (text (Body.message body)))%nat then
        Validation.mk false (Some "Message is too long (max 2000 characters)"%string)
      else if truthy (Body.sessionId body) && negb (isString (Body.sessionId body)) then
        Validation.mk false (Some "SessionId must be a string"%string)
      else Validation.mk true None
  end.

(** A request whose message, if it is a string, is ASCII text: its length
    and its trimmed form are then what the validation computes. *)
Definition asciiMessage (body : option Body.t) : Prop :=
  match body with
  | Some body => isAscii (text (Body.message body)) = true
  | None => True
  end.

(** The session id as it reaches [getOrCreateSession], which treats every
    falsy value alike; after the validation the property is a string or
    is falsy. *)
Definition requestedSession (v : Field) : option string :=
  match v with
  | Str s => Some s
  | _ => None
  end.

(** The module-level state of the services behind the route. *)
Record System := {
  initialized : bool;
  sessions : Sessions;
  world : World;
  pipeline : State
}.

Definition withSessions (sys : System) (sessions : Sessions) : System :=
  {| initialized := initialized sys; sessions := sessions;
     world := world sys; pipeline := pipeline sys |}.

Definition withSessionsAndWorld (sys : System) (sessions : Sessions) (w : World)
  : System :=
  {| initialized := initialized sys; sessions := sessions;
     world := w; pipeline := pipeline sys |}.

(** What one request draws from outside: the clock reading at each of its
    steps, the random ids, and the random embedding of the query. *)
Record Draws := {
  startTime : Z;
  sessionTime : Z;
  userMessageTime : Z;
  historyTime : Z;
  replyTime : Z;
  apologyTime : Z;
  endTime : Z;
  newSessionId : string;
  userMessageId : string;
  replyMessageId : string;
  apologyMessageId : string;
  queryEmbedding : list float
}.

(** The [data] of a success response. *)
Module ChatResponse.
Record t := mk {
  reply : string;
  sessionId : string;
  tokensUsed : Z;
  retrievedChunks : Z;
  processingTimeMs : Z;
  hasContext : bool;
  timestamp : Z
}.
End ChatResponse.

(** What the client gets: a success response, an error response with its
    status and message, or no response at all. *)
Inductive Outcome :=
| Success (data : ChatResponse.t)
| Failure (statusCode : Z) (message : string)
| NoResponse.

Definition unexpectedError : string :=
  "An unexpected error occurred while processing your request.".

Definition apology : string :=
  "I apologize, but I encountered an error while generating a response. Please try again.".

(** The [catch] handler after the call of the model, on the system as it
    is when the handler runs: it stores the apology and sends it; if
    storing throws, the rejection is handled by nobody and no response is
    sent. *)
Definition replyWithApology (draws : Draws) (now : System) (activeSessionId : string)
  (ragResult : QueryResult.t) : Outcome * System :=
  match addMessage ConversationManager.config (apologyTime draws)
                   (apologyMessageId draws) (sessions now) activeSessionId
                   "assistant" apology MetadataArg.none with
  | (Throw _, sessions) => (NoResponse, withSessions now sessions)
  | (Normal _, sessions) =>
      (Success {| ChatResponse.reply := apology;
                  ChatResponse.sessionId := activeSessionId;
                  ChatResponse.tokensUsed := 0;
                  ChatResponse.retrievedChunks := QueryResult.retrievedChunks ragResult;
                  ChatResponse.processingTimeMs := endTime draws - startTime draws;
                  ChatResponse.hasContext := QueryResult.hasContext ragResult;
                  ChatResponse.timestamp := endTime draws |},
       withSessions now sessions)
  end.

(** The callbacks on the promise of [callLLMWithFallback].  They run when
    the promise settles, outside the [try] of the handler and on the
    system as it is by then: [now] is the state at that moment, which
    other requests may have changed since the handler returned.  An
    exception of the [then] callback is passed on to the [catch] handler. *)
Definition onSettled (draws : Draws) (now : System) (activeSessionId : string)
  (ragResult : QueryResult.t) (settled : promise Response.t) : Outcome * System :=
  match settled with
  | Pending => (NoResponse, now)
  | Rejected _ => replyWithApology draws now activeSessionId ragResult
  | Fulfilled llmResponse =>
      let response := Response.content llmResponse in
      let tokensUsed := Response.tokensUsed llmResponse in
      match addMessage ConversationManager.config (replyTime draws)
                       (replyMessageId draws) (sessions now) activeSessionId
                       "assistant" response
                       (MetadataArg.mk
                          (Some tokensUsed) None
                          (Some (QueryResult.retrievedChunks ragResult))
                          (Some (QueryResult.similarityScores ragResult))) with
      | (Throw _, sessions) =>
          replyWithApology draws (withSessions now sessions) activeSessionId ragResult
      | (Normal _, sessions) =>
          (Success
             {| ChatResponse.reply := response;
                ChatResponse.sessionId := activeSessionId;
                ChatResponse.tokensUsed := tokensUsed;
                ChatResponse.retrievedChunks := QueryResult.retrievedChunks ragResult;
                ChatResponse.processingTimeMs := endTime draws - startTime draws;
                ChatResponse.hasContext := QueryResult.hasContext ragResult;
                ChatResponse.timestamp := endTime draws |},
           withSessions now sessions)
      end
  end.

(** The second half of [handleChatRequest], from the call of the pipeline
    on.  With context the model is called and its answer is stored and
    sent by [onSettled]; here the callbacks run on the state that the call
    left, that is, with no other request handled between the call and its
    settlement.  Without context the reply is what the pipeline returned.
    [None] when the fuel of the call of the model runs out. *)
Definition respond (fuel : nat) (env : Env) (net : Network) (draws : Draws)
  (sys : System) (activeSessionId message : string) (conversationHistory : list Msg.t)
  (sessions : Sessions) : option (Outcome * System) :=
  let ragResult :=
    processQuery env (pipeline sys) (queryEmbedding draws) message conversationHistory in
  if QueryResult.hasContext ragResult then
    match callLLMWithFallback fuel (LlmService.config env) net
                              (QueryResult.prompt ragResult) (world sys) with
    | Throw _ => Some (Failure 500 unexpectedError, withSessions sys sessions)
    | Normal None => None
    | Normal (Some (settled, w)) =>
        Some (onSettled draws (withSessionsAndWorld sys sessions w) activeSessionId
                        ragResult settled)
    end
  else
    let response :=
      if truthyString (QueryResult.mockResponse ragResult) then
        default EmptyString (QueryResult.mockResponse ragResult)
      else if negb (String.eqb (QueryResult.prompt ragResult) EmptyString)
              && negb (includes (QueryResult.prompt ragResult)
                                "I don't have enough information") then
        QueryResult.prompt ragResult
      else QueryResult.prompt ragResult in
    match addMessage ConversationManager.config (replyTime draws)
                     (replyMessageId draws) sessions activeSessionId
                     "assistant" response MetadataArg.none with
    | (Throw _, sessions) =>
        Some (Failure 500 unexpectedError, withSessions sys sessions)
    | (Normal _, sessions) =>
        Some (Success
                {| ChatResponse.reply := response;
                   ChatResponse.sessionId := activeSessionId;
                   ChatResponse.tokensUsed := 0;
                   ChatResponse.retrievedChunks := QueryResult.retrievedChunks ragResult;
                   ChatResponse.processingTimeMs := endTime draws - startTime draws;
                   ChatResponse.hasContext := QueryResult.hasContext ragResult;
                   ChatResponse.timestamp := endTime draws |},
              withSessions sys sessions)
    end.

(** [handleChatRequest]: validation, the initialization check, the session,
    the user's message and the history, and then the reply.  An exception
    of one of these steps is caught by the handler and answered 500. *)
Definition handleChatRequest (fuel : nat) (env : Env) (net : Network) (draws : Draws)
  (sys : System) (userAgent ip : option string) (body : option Body.t)
  : option (Outcome * System) :=
  let validation := validateRequest body in
  if negb (Validation.isValid validation) then
    Some (Failure 400 (default EmptyString (Validation.error validation)), sys)
  else if negb (initialized sys) then
    Some (Failure 503 "System is still initializing. Please try again.", sys)
  else
    let sessionId :=
      match body with Some body => Body.sessionId body | None => FalsyValue end in
    let message :=
      text (match body with Some body => Body.message body | None => FalsyValue end) in
    let '(activeSessionId, sessions) :=
      getOrCreateSession ConversationManager.config (sessionTime draws)
                         (newSessionId draws) (sessions sys) (requestedSession sessionId)
                         (SessionMetadata.mk userAgent ip) in
    match addMessage ConversationManager.config (userMessageTime draws)
                     (userMessageId draws) sessions activeSessionId
                     "user" message MetadataArg.none with
    | (Throw _, sessions) => Some (Failure 500 unexpectedError, withSessions sys sessions)
    | (Normal _, sessions) =>
        let '(conversationHistory, sessions) :=
          getFormattedHistory ConversationManager.config (historyTime draws)
                              sessions activeSessionId in
        respond fuel env net draws sys activeSessionId message conversationHistory
                sessions
    end.


(** The clock readings of a request lie close enough together for the
    session to stay alive through it. *)
Definition inTime (draws : Draws) : Prop :=
  userMessageTime draws - sessionTime draws <= sessionTimeout ConversationManager.config
  /\ historyTime draws - userMessageTime draws <= sessionTimeout ConversationManager.config
  /\ replyTime draws - userMessageTime draws <= sessionTimeout ConversationManager.config.

(** The two messages that a request adds to its session. *)
Definition userMessage (draws : Draws) (message : string) : Message.t :=
  buildMessage (userMessageTime draws) (userMessageId draws) "user" message
               MetadataArg.none.

Definition replyMessage (draws : Draws) (response : string) (metadata : MetadataArg.t)
  : Message.t :=
  buildMessage (replyTime draws) (replyMessageId draws) "assistant" response metadata.

(** The history entry of a message. *)
Definition formatted (message : Message.t) : Msg.t :=
  Msg.mk (Message.role message) (Message.content message).

End ChatRoute.

(** ** Sample inputs, used to exercise the statements *)

Module Samples.
Import DocumentManager RagPipeline LlmService ConversationManager.

(** A text of 301 one-letter words. *)
Definition sampleText : string := join " " (repeat "w"%string 301).

(** An embedding of the store's dimension, 1536, with entries in [-1, 1]:
    three ones followed by zeros. *)
Definition threeOnes : list float := [1; 1; 1]%float ++ repeat 0%float 1533.

Definition sampleChunk (name : string) (embedding : list float) : Chunk.t :=
  Chunk.mk name "Guide" 0 0 "text" 1 embedding.

(** A store of four two-dimensional entries, two of them with the same
    score for the query [[1, 0]]. *)
Definition sampleState : State :=
  {| vectorStore := [sampleChunk "doc_0_chunk_0" [0; 1]%float;
                     sampleChunk "doc_0_chunk_1" [3; 4]%float;
                     sampleChunk "doc_0_chunk_2" [1; 0]%float;
                     sampleChunk "doc_0_chunk_3" [2; 0]%float];
     similarityThreshold := 0.5%float;
     maxRetrievedChunks := 3 |}.

Definition sampleQuery : list float := [1; 0]%float.

(** A store in which the first component of the second entry is [2 ^ 1023]:
    its dot product with the query [[2, 0]] overflows. *)
Definition overflowState : State :=
  {| vectorStore := [sampleChunk "doc_0_chunk_0" [4; 3]%float;
                     sampleChunk "doc_0_chunk_1" [0x1p1023; 0]%float;
                     sampleChunk "doc_0_chunk_2" [12; 5]%float];
     similarityThreshold := 0.7%float;
     maxRetrievedChunks := 3 |}.

(** Environments: nothing set; OpenAI with a key; the mock provider. *)
Definition noEnv : Env :=
  {| LLM_PROVIDER := None; OPENAI_API_KEY := None; GEMINI_API_KEY := None;
     CLAUDE_API_KEY := None; MISTRAL_API_KEY := None |}.

Definition envOpenai : Env :=
  {| LLM_PROVIDER := Some "openai"; OPENAI_API_KEY := Some "sk-test";
     GEMINI_API_KEY := None; CLAUDE_API_KEY := None; MISTRAL_API_KEY := None |}.

Definition envMock : Env :=
  {| LLM_PROVIDER := Some "mock"; OPENAI_API_KEY := None; GEMINI_API_KEY := None;
     CLAUDE_API_KEY := None; MISTRAL_API_KEY := None |}.

(** A provider that is down, and one that answers. *)
Definition netDown : Network := fun _ => RequestFailed "Request timeout".
Definition netUp : Network := fun _ => ResponseOk "ok" 42.

(** A session created at time 0 and seven messages added one second apart. *)
Definition sampleSessions : Sessions :=
  {[ "s1"%string := Session.mk "s1" 0 0 [] (SessionMetadata.mk None None) 0 ]}.

Definition sampleCall (k : Z) (text : string) : AddCall.t :=
  AddCall.mk (1000 * k) ("m" +:+ showZ k)
             (if Z.even k then "assistant" else "user") text MetadataArg.none.

Definition sampleCalls : list AddCall.t :=
  [sampleCall 1 "one"; sampleCall 2 "two"; sampleCall 3 "three"; sampleCall 4 "four";
   sampleCall 5 "five"; sampleCall 6 "six"; sampleCall 7 "seven"].

Definition sampleSessionsAfter : Sessions :=
  match addMessages ConversationManager.config sampleSessions "s1" sampleCalls with
  | Normal sessions => sessions
  | Throw _ => sampleSessions
  end.

End Samples.

(** ** Further sample inputs *)

Module Scenarios.
Import DocumentManager DocumentProcessing RagPipeline LlmService LlmRequests
       ConversationManager SessionMaintenance ChatRoute Samples.

(** A call that comes one millisecond more than the timeout after the
    first sample call. *)
Definition lateCall : AddCall.t :=
  AddCall.mk 3601001 "late" "user" "still there?" MetadataArg.none.

(** The session of [sampleSessions] as a client left it at time 1000. *)
Definition idleSession : Session.t :=
  Session.mk "s1" 0 1000 [] (SessionMetadata.mk None None) 0.

(** The session of [sampleSessions] once it holds the first three sample
    messages. *)
Definition busySession : Session.t :=
  Session.mk "s1" 0 3000
             (map messageOf [sampleCall 1 "one"; sampleCall 2 "two"; sampleCall 3 "three"])
             (SessionMetadata.mk None None) 3.

(** A stored file with a session last active at time 5000 and one last
    active at time 0, read at time 3600001. *)
Definition storedEntries : list (string * Session.t) :=
  [("a"%string, Session.mk "a" 0 5000 [] (SessionMetadata.mk None None) 0);
   ("b"%string, Session.mk "b" 0 0 [] (SessionMetadata.mk None None) 0)].

(** A day in the life of the session map. *)
Definition sampleRequests : list Request :=
  [CreateSession 0 "s1" (SessionMetadata.mk (Some "curl") None);
   AddMessage 10 "m1" "s1" "user" "hello" MetadataArg.none;
   GetOrCreateSession 20 "s2" (Some "nobody") (SessionMetadata.mk None None);
   AddMessage 30 "m2" "s2" "user" "hi" MetadataArg.none;
   ClearConversation 40 "s1";
   GetConversationHistory 4000000 "s1" None;
   CleanupExpiredSessions 4000000;
   DeleteSession "s2"].

(** A configuration whose provider name is none of the known ones, with a
    key for every provider. *)
Definition unknownProvider : LlmService.Config := {|
  provider := "cohere";
  openaiApiKey := "sk-1"; openaiModel := "gpt-3.5-turbo";
  geminiApiKey := "g-1"; geminiModel := "gemini-1.0-pro";
  claudeApiKey := "c-1"; claudeModel := "claude-3-haiku-20240307";
  mistralApiKey := "m-1"; mistralModel := "mistral-tiny";
  temperature := 0.2%float; maxTokens := 500; timeout := 30000;
  maxRetries := 3; retryDelay := 1000
|}.

(** A provider that fails twice and answers the third request. *)
Definition netFlaky : Network :=
  fun k => if (k <? 2)%nat then RequestFailed "API Error: 503 - overloaded"
           else ResponseOk "ok" 42.


(** A request of a new client, and the draws of its handling: the steps
    are ten milliseconds apart. *)
Definition helloBody : Body.t :=
  Body.mk FalsyValue (Str "How do I reset my password?").

Definition sampleDraws : Draws :=
  {| startTime := 1000; sessionTime := 1010; userMessageTime := 1020;
     historyTime := 1030; replyTime := 1040; apologyTime := 1050; endTime := 1060;
     newSessionId := "s9"; userMessageId := "u1"; replyMessageId := "a1";
     apologyMessageId := "a2"; queryEmbedding := sampleQuery |}.

(** The services before the start has finished. *)
Definition startingSystem : System :=
  {| initialized := false; sessions := ∅; world := initialWorld;
     pipeline := initialState |}.

(** The services after a start with an empty store, and with the sample
    store. *)
Definition emptySystem : System :=
  {| initialized := true; sessions := ∅; world := initialWorld;
     pipeline := initialState |}.

Definition sampleSystem : System :=
  {| initialized := true; sessions := ∅; world := initialWorld;
     pipeline := sampleState |}.

(** Two documents: a short one, and one of 301 words. *)
Definition sampleDocuments : list Document.t :=
  [Document.mk "Security" "reset your password from the settings page";
   Document.mk "Guide" sampleText].

Definition sampleTextChunks : list TextChunk.t :=
  default [] (processDocuments 301 sampleDocuments).

(** An update that asks for a temperature above the range. *)
Definition hotUpdate : NewConfig.t := NewConfig.mk None (Some 3.5%float) None None.

End Scenarios.

(** * Part II: the properties *)

(** *** Facts about the prelude used by the chunker *)

Module JSFacts.

Lemma len_nonneg {A} (l : list A) : 0 <= len l.
Proof. unfold len. lia. Qed.

Lemma split_nonempty (sep : ascii) (s : string) : split sep s <> [].
Proof.
  destruct s as [|c rest]; simpl; [discriminate|].
  destruct (Ascii.eqb c sep); [discriminate|].
  destruct (split sep rest); discriminate.
Qed.

Lemma len_split_pos (sep : ascii) (s : string) : 1 <= len (split sep s).
Proof.
  pose proof (split_nonempty sep s) as H. unfold len.
  destruct (split sep s); [congruence | simpl; lia].
Qed.

(** Joining the pieces with the separator gives the string back. *)
Lemma join_split (sep : ascii) (s : string) :
  join (String sep EmptyString) (split sep s) = s.
Proof.
  unfold join. induction s as [|c rest IH]; simpl; [reflexivity|].
  destruct (Ascii.eqb c sep) eqn:E.
  - apply Ascii.eqb_eq in E. subst c.
    pose proof (split_nonempty sep rest) as Hne.
    destruct (split sep rest) as [|w ws]; [congruence|].
    simpl in *. now rewrite IH.
  - pose proof (split_nonempty sep rest) as Hne.
    destruct (split sep rest) as [|w ws]; [congruence|].
    simpl in *. destruct ws; simpl in *; now rewrite <- IH.
Qed.

(** A slice that starts inside the array and stops at or after its end is
    the suffix from the start index. *)
Lemma slice_to_end {A} (l : list A) (i j : Z) :
  0 <= i -> len l <= j -> slice l i j = skipn (Z.to_nat i) l.
Proof.
  intros Hi Hj. unfold slice, relIndex.
  pose proof (len_nonneg l) as Hl.
  destruct (i <? 0) eqn:E1; [apply Z.ltb_lt in E1; lia|].
  destruct (j <? 0) eqn:E2; [apply Z.ltb_lt in E2; lia|].
  rewrite (Z.min_r j (len l)) by lia.
  destruct (Z.le_gt_cases i (len l)) as [Hle|Hgt].
  - rewrite (Z.min_l i (len l)) by lia.
    apply firstn_all2. rewrite length_skipn. unfold len in *. lia.
  - rewrite (Z.min_r i (len l)) by lia.
    rewrite Z.sub_diag. simpl.
    symmetry. apply skipn_all2. unfold len in *. lia.
Qed.

Lemma slice_whole {A} (l : list A) (j : Z) : len l <= j -> slice l 0 j = l.
Proof. intros H. rewrite slice_to_end by lia. reflexivity. Qed.

End JSFacts.

(** *** Chunking: the loop against its window description *)

Module ChunkTextFacts.
Import DocumentManager JSFacts.

Lemma windows_length words size stride i n :
  length (windows words size stride i n) = n.
Proof. unfold windows. now rewrite length_map, length_seq. Qed.

Lemma windows_succ words size stride i n :
  windows words size stride i (S n) =
  join " " (slice words i (i + size)) :: windows words size stride (i + stride) n.
Proof.
  unfold windows. cbn [seq map]. rewrite <- seq_shift, List.map_map.
  f_equal.
  - change (Z.of_nat 0) with 0. now rewrite Z.mul_0_l, Z.add_0_r.
  - apply List.map_ext. intros k.
    replace (i + stride + Z.of_nat k * stride) with (i + Z.of_nat (S k) * stride) by lia.
    reflexivity.
Qed.

Lemma windows_last words size stride i n :
  List.last (windows words size stride i (S n)) EmptyString =
  join " " (slice words (i + Z.of_nat n * stride) (i + Z.of_nat n * stride + size)).
Proof.
  unfold windows. rewrite seq_S, map_app. simpl. now rewrite last_last.
Qed.

(** With a positive stride the loop emits the windows at [i], [i + stride],
    ... and leaves at the first window that reaches the end of the words. *)
Lemma chunkLoop_windows words size overlap :
  forall (m fuel : nat) (i : Z) (acc : list string),
    (m < fuel)%nat ->
    (forall k, 0 <= k <= Z.of_nat m -> i + k * (size - overlap) < len words) ->
    (forall k, 0 <= k < Z.of_nat m -> i + k * (size - overlap) + size < len words) ->
    len words <= i + Z.of_nat m * (size - overlap) + size ->
    chunkLoop fuel words size overlap i acc =
    Some (acc ++ windows words size (size - overlap) i (S m)).
Proof.
  induction m as [|m IH]; intros fuel i acc Hfuel Hin Hnot Hend.
  - destruct fuel as [|fuel]; [lia|]. cbn [chunkLoop].
    specialize (Hin 0 ltac:(lia)).
    change (Z.of_nat 0) with 0 in Hend.
    replace (i <? len words) with true by (symmetry; apply Z.ltb_lt; lia).
    replace (i + size >=? len words) with true by (symmetry; apply Z.geb_le; lia).
    unfold windows. cbn [seq map]. change (Z.of_nat 0) with 0.
    now rewrite Z.mul_0_l, Z.add_0_r.
  - destruct fuel as [|fuel]; [lia|]. cbn [chunkLoop].
    pose proof (Hin 0 ltac:(lia)) as H0.
    pose proof (Hnot 0 ltac:(lia)) as H1.
    replace (i <? len words) with true by (symmetry; apply Z.ltb_lt; lia).
    replace (i + size >=? len words) with false
      by (symmetry; rewrite Z.geb_leb; apply Z.leb_gt; lia).
    rewrite (IH fuel (i + (size - overlap))); try lia.
    + rewrite (windows_succ words size (size - overlap) i (S m)).
      now rewrite <- app_assoc.
    + intros k Hk. specialize (Hin (k + 1) ltac:(lia)). lia.
    + intros k Hk. specialize (Hnot (k + 1) ltac:(lia)). lia.
Qed.

(** With a stride of zero or less and more words than one window holds,
    the index never advances past the first window: no amount of fuel
    lets the loop leave. *)
Lemma chunkLoop_stuck words size overlap :
  size <= overlap -> size < len words -> 0 < len words ->
  forall (fuel : nat) (i : Z) (acc : list string),
    i <= 0 -> chunkLoop fuel words size overlap i acc = None.
Proof.
  intros Hso Hw Hpos. induction fuel as [|fuel IH]; intros i acc Hi; [reflexivity|].
  cbn [chunkLoop].
  replace (i <? len words) with true by (symmetry; apply Z.ltb_lt; lia).
  replace (i + size >=? len words) with false
    by (symmetry; rewrite Z.geb_leb; apply Z.leb_gt; lia).
  apply IH. lia.
Qed.

Lemma chunkText_stuck (text : string) (size overlap : Z) (fuel : nat) :
  size <= overlap -> size < len (split " " text) ->
  chunkText fuel text size overlap = None.
Proof.
  intros Hso Hw. unfold chunkText.
  pose proof (len_split_pos " " text).
  apply chunkLoop_stuck; lia.
Qed.

End ChunkTextFacts.

(** *** Chunking: the properties of the specification *)

Module ChunkTextSpec.
Import DocumentManager JSFacts ChunkTextFacts Samples.

(** C4. With the default window of 300 words and overlap of 50, a text of
    [w > 300] words is cut into exactly [n = ceil ((w - 50) / (300 - 50))]
    chunks (the loop returns once it is given as much fuel as there are
    words).  Chunk number [k] is the window of 300 words that starts at
    word [250 * k]; the last chunk starts at word [i = 250 * (n - 1)],
    which is a word of the text, and [i + 300 >= w]: it runs to the end of
    the word list. *)
Theorem chunkText_default_count_and_reach (text : string) (fuel : nat) :
  300 < len (split " " text) ->
  (length (split " " text) <= fuel)%nat ->
  exists (chunks : list string) (i : Z),
    chunkTextDefault fuel text = Some chunks /\
    len chunks = ceilDiv (len (split " " text) - 50) (300 - 50) /\
    chunks = windows (split " " text) 300 250 0 (length chunks) /\
    i = 250 * (len chunks - 1) /\
    List.last chunks EmptyString = join " " (slice (split " " text) i (i + 300)) /\
    0 <= i < len (split " " text) /\ len (split " " text) <= i + 300 /\
    slice (split " " text) i (i + 300) = skipn (Z.to_nat i) (split " " text).
Proof.
  intros Hw Hfuel.
  set (words := split " " text) in *.
  set (w := len words) in *.
  set (n := ceilDiv (w - 50) (300 - 50)).
  assert (Hn : 250 * n <= w + 199 /\ w + 199 < 250 * n + 250).
  { unfold n, ceilDiv.
    replace (w - 50 + (300 - 50) - 1) with (w + 199) by lia.
    change (300 - 50) with 250.
    pose proof (Z.div_mod (w + 199) 250 ltac:(lia)).
    pose proof (Z.mod_pos_bound (w + 199) 250 ltac:(lia)). lia. }
  assert (Hn1 : 1 <= n) by lia.
  set (m := Z.to_nat (n - 1)).
  assert (Hm : Z.of_nat m = n - 1) by (unfold m; lia).
  exists (windows words 300 250 0 (S m)), (Z.of_nat m * 250).
  assert (Hlen : w = Z.of_nat (length words)) by reflexivity.
  assert (Hcount : len (windows words 300 250 0 (S m)) = n)
    by (unfold len; rewrite windows_length; lia).
  split; [|split; [|split; [|split; [|split; [|split; [|split]]]]]].
  - unfold chunkTextDefault, chunkText. simpl chunkSize. simpl chunkOverlap.
    fold words.
    rewrite (chunkLoop_windows words 300 50 m fuel 0 []); fold w.
    + reflexivity.
    + lia.
    + intros k Hk. change (300 - 50) with 250. lia.
    + intros k Hk. change (300 - 50) with 250. lia.
    + change (300 - 50) with 250. lia.
  - exact Hcount.
  - now rewrite windows_length.
  - rewrite Hcount. lia.
  - rewrite windows_last. now rewrite Z.add_0_l.
  - lia.
  - lia.
  - apply slice_to_end; fold w; lia.
Qed.

Lemma chunkText_default_count_and_reach_witness :
  300 < len (split " " sampleText) /\
  (length (split " " sampleText) <= 301)%nat /\
  exists (chunks : list string) (i : Z),
    chunkTextDefault 301 sampleText = Some chunks /\
    len chunks = ceilDiv (len (split " " sampleText) - 50) (300 - 50) /\
    chunks = windows (split " " sampleText) 300 250 0 (length chunks) /\
    i = 250 * (len chunks - 1) /\
    List.last chunks EmptyString = join " " (slice (split " " sampleText) i (i + 300)) /\
    0 <= i < len (split " " sampleText) /\ len (split " " sampleText) <= i + 300 /\
    slice (split " " sampleText) i (i + 300) = skipn (Z.to_nat i) (split " " sampleText).
Proof.
  assert (H1 : 300 < len (split " " sampleText)) by (vm_compute; reflexivity).
  assert (H2 : (length (split " " sampleText) <= 301)%nat)
    by (apply Nat.leb_le; vm_compute; reflexivity).
  exact (conj H1 (conj H2 (chunkText_default_count_and_reach sampleText 301 H1 H2))).
Defined.

(** C9, as the code has it.  [chunkText] checks nothing about its
    parameters and has no error path: with [overlap >= size] and a text of
    at most [size] words the first window already reaches the end, and the
    whole text comes back as the single chunk. *)
Theorem chunkText_unguarded_single_chunk
  (text : string) (size overlap : Z) (fuel : nat) :
  size <= overlap ->
  len (split " " text) <= size ->
  (1 <= fuel)%nat ->
  chunkText fuel text size overlap = Some [text].
Proof.
  intros Hso Hw Hfuel. unfold chunkText.
  destruct fuel as [|fuel]; [lia|]. cbn [chunkLoop].
  pose proof (len_split_pos " " text) as Hpos.
  replace (0 <? len (split " " text)) with true by (symmetry; apply Z.ltb_lt; lia).
  replace (0 + size >=? len (split " " text)) with true
    by (symmetry; apply Z.geb_le; lia).
  rewrite slice_whole by lia.
  now rewrite (join_split " " text).
Qed.

Lemma chunkText_unguarded_single_chunk_witness :
  2 <= 5 /\ len (split " " "to be") <= 2 /\ (1 <= 1)%nat /\
  chunkText 1 "to be" 2 5 = Some ["to be"%string].
Proof.
  assert (H1 : 2 <= 5) by lia.
  assert (H2 : len (split " " "to be") <= 2) by (vm_compute; discriminate).
  assert (H3 : (1 <= 1)%nat) by lia.
  exact (conj H1 (conj H2 (conj H3
    (chunkText_unguarded_single_chunk "to be" 2 5 1 H1 H2 H3)))).
Defined.

(** C9 as stated fails: for the one-word text "a" with [size = 1] and
    [overlap = 1] (stride 0) the call returns the chunk list ["a"] as an
    ordinary value; nothing is raised. *)
Lemma chunkText_stride_zero_returns :
  chunkText 1 "a" 1 1 = Some ["a"%string].
Proof. reflexivity. Qed.

End ChunkTextSpec.

(** *** Prompt assembly: the accumulating code against the template *)

Module PromptFacts.
Import RagPipeline JSFacts.

Lemma append_cons (c : ascii) (s1 s2 : string) :
  String c s1 +:+ s2 = String c (s1 +:+ s2).
Proof. reflexivity. Qed.

Lemma append_assoc (s1 s2 s3 : string) : (s1 +:+ s2) +:+ s3 = s1 +:+ (s2 +:+ s3).
Proof.
  induction s1 as [|c s1 IH]; [reflexivity|].
  rewrite !append_cons. now rewrite IH.
Qed.

Lemma append_nil_r (s : string) : s +:+ EmptyString = s.
Proof.
  induction s as [|c s IH]; [reflexivity|].
  rewrite append_cons. now rewrite IH.
Qed.

Lemma append_eq_nil (s1 s2 : string) : s1 +:+ s2 = EmptyString -> s1 = EmptyString.
Proof. destruct s1; [reflexivity | rewrite append_cons; discriminate]. Qed.

Lemma concat_empty_cons (x : string) (l : list string) :
  String.concat EmptyString (x :: l) = x +:+ String.concat EmptyString l.
Proof. destruct l; simpl; [now rewrite append_nil_r | reflexivity]. Qed.

(** [arr.slice(-n)] with a positive [n] drops all but the last [n] elements. *)
Lemma lastN_skipn {A} (n : nat) (l : list A) :
  (0 < n)%nat -> lastN n l = skipn (length l - n) l.
Proof.
  intros Hn. unfold lastN, slice, relIndex, len.
  replace (- Z.of_nat n <? 0) with true by (symmetry; apply Z.ltb_lt; lia).
  replace (Z.of_nat (length l) <? 0) with false by (symmetry; apply Z.ltb_ge; lia).
  rewrite Z.min_id.
  replace (Z.to_nat (Z.max (Z.of_nat (length l) + - Z.of_nat n) 0))
    with (length l - n)%nat by lia.
  apply firstn_all2. rewrite length_skipn. lia.
Qed.

Lemma fold_appendHistoryLine (l : list Msg.t) (prompt : string) :
  fold_left appendHistoryLine l prompt =
  prompt +:+ String.concat EmptyString (map historyLine l).
Proof.
  revert prompt. induction l as [|msg l IH]; intros prompt.
  - simpl. now rewrite append_nil_r.
  - cbn [fold_left map]. rewrite IH, concat_empty_cons.
    unfold appendHistoryLine, historyLine. rewrite !append_assoc. reflexivity.
Qed.

Lemma fold_appendContextBlock (l : list ContextEntry.t) (k : nat) (prompt : string) :
  fold_left appendContextBlock (combine (seq k (length l)) l) prompt =
  prompt +:+ contextBlocks (S k) l.
Proof.
  revert k prompt. induction l as [|entry l IH]; intros k prompt.
  - simpl. now rewrite append_nil_r.
  - cbn [length seq combine fold_left contextBlocks]. rewrite IH.
    unfold appendContextBlock, contextBlock.
    replace (Z.of_nat k + 1) with (Z.of_nat (S k)) by lia.
    rewrite !append_assoc. reflexivity.
Qed.

Lemma formatContext_order_from (l : list Scored.t) :
  forall (k i : nat) (e : ContextEntry.t),
    nth_error
      (map (fun '(index, r) =>
              ContextEntry.mk (Chunk.id (Scored.chunk r))
                (Chunk.documentTitle (Scored.chunk r))
                (Chunk.content (Scored.chunk r))
                (Scored.similarity r) (Z.of_nat index + 1))
           (combine (seq k (length l)) l)) i = Some e ->
    ContextEntry.order e = Z.of_nat (k + i) + 1.
Proof.
  induction l as [|r l IH]; intros k i e H.
  - destruct i; discriminate.
  - destruct i as [|i]; cbn in H.
    + inversion H; subst; simpl. f_equal. lia.
    + apply IH in H. rewrite H. lia.
Qed.

(** The entries that [retrieveContext] builds carry their 1-based rank in
    the [order] field. *)
Lemma formatContext_order (relevant : list Scored.t) (i : nat) (e : ContextEntry.t) :
  nth_error (formatContext relevant) i = Some e ->
  ContextEntry.order e = Z.of_nat i + 1.
Proof. intros H. now apply formatContext_order_from in H. Qed.

(** The template, section after section. *)
Lemma constructPrompt_template (userQuery : string)
  (context : option (list ContextEntry.t)) (history : list Msg.t) :
  constructPrompt userQuery context history =
  systemInstruction +:+ historySection history +:+ contextSection context
  +:+ questionSection userQuery.
Proof.
  unfold constructPrompt, systemInstruction, questionSection.
  assert (Hh :
    forall p, (if 0 <? len history
               then fold_left appendHistoryLine (lastN 6 history)
                      (p +:+ ("=== CONVERSATION HISTORY ===" +:+ nl)) +:+ nl
               else p) = p +:+ historySection history).
  { intros p. destruct history as [|m h].
    - cbn. now rewrite append_nil_r.
    - replace (0 <? len (m :: h)) with true
        by (symmetry; apply Z.ltb_lt; unfold len; simpl length; lia).
      rewrite fold_appendHistoryLine, lastN_skipn by lia.
      unfold historySection. rewrite !append_assoc. reflexivity. }
  assert (Hc :
    forall p, match context with
              | Some context =>
                  if 0 <? len context
                  then fold_left appendContextBlock
                         (combine (seq 0 (length context)) context)
                         (p +:+ ("=== RELEVANT CONTEXT ===" +:+ nl))
                       +:+ ("=== END OF CONTEXT ===" +:+ nl +:+ nl)
                  else p
              | None => p
              end = p +:+ contextSection context).
  { intros p. destruct context as [[|c l]|].
    - cbn. now rewrite append_nil_r.
    - replace (0 <? len (c :: l)) with true
        by (symmetry; apply Z.ltb_lt; unfold len; simpl length; lia).
      rewrite fold_appendContextBlock.
      unfold contextSection. rewrite !append_assoc. reflexivity.
    - cbn. now rewrite append_nil_r. }
  rewrite Hh, Hc. rewrite !append_assoc. reflexivity.
Qed.

Lemma historySection_empty_iff (history : list Msg.t) :
  historySection history = EmptyString <-> history = [].
Proof.
  split; [|intros ->; reflexivity].
  destruct history; [reflexivity|]. discriminate.
Qed.

Lemma contextSection_empty_iff (context : option (list ContextEntry.t)) :
  contextSection context = EmptyString <-> (context = None \/ context = Some []).
Proof.
  split.
  - destruct context as [[|c l]|]; [now right | discriminate | now left].
  - intros [-> | ->]; reflexivity.
Qed.

End PromptFacts.

(** *** Prompt assembly: the property of the specification *)

Module PromptSpec.
Import RagPipeline PromptFacts.

(** C8. [constructPrompt] emits its sections in the fixed order system
    instruction, conversation history, retrieved context, user question.
    The history section is empty exactly for an empty history, and
    otherwise renders the last six entries (all of them when there are
    fewer), oldest first, one [Role: content] line each.  The context
    section is empty exactly for a missing or empty context, and otherwise
    holds one [[Document <rank>: <title>]] block with the chunk content per
    entry, in list order with ranks from 1; for a context built by
    [retrieveContext] the rank is the [order] field of the entry. *)
Theorem constructPrompt_ordered_sections (userQuery : string)
  (context : option (list ContextEntry.t)) (history : list Msg.t) :
  constructPrompt userQuery context history =
    systemInstruction +:+ historySection history +:+ contextSection context
    +:+ questionSection userQuery
  /\ (historySection history = EmptyString <-> history = [])
  /\ (history <> [] ->
      historySection history =
        "=== CONVERSATION HISTORY ===" +:+ nl
        +:+ String.concat EmptyString (map historyLine (skipn (length history - 6) history))
        +:+ nl
      /\ length (skipn (length history - 6) history) = Nat.min 6 (length history))
  /\ (contextSection context = EmptyString <-> (context = None \/ context = Some []))
  /\ (forall entries, context = Some entries -> entries <> [] ->
      contextSection context =
        "=== RELEVANT CONTEXT ===" +:+ nl +:+ contextBlocks 1 entries
        +:+ "=== END OF CONTEXT ===" +:+ nl +:+ nl)
  /\ (forall relevant i e,
        context = Some (formatContext relevant) ->
        nth_error (formatContext relevant) i = Some e ->
        contextBlock (S i) e =
          "[Document " +:+ showZ (ContextEntry.order e) +:+ ": " +:+ ContextEntry.title e
          +:+ "]" +:+ nl +:+ ContextEntry.content e +:+ nl +:+ nl).
Proof.
  split; [apply constructPrompt_template|].
  split; [apply historySection_empty_iff|].
  split.
  { intros Hne. split.
    - destruct history; [congruence | reflexivity].
    - rewrite length_skipn. lia. }
  split; [apply contextSection_empty_iff|].
  split.
  { intros entries -> Hne. destruct entries; [congruence | reflexivity]. }
  intros relevant i e _ Hnth.
  apply formatContext_order in Hnth. unfold contextBlock.
  replace (Z.of_nat (S i)) with (ContextEntry.order e) by lia.
  reflexivity.
Qed.

End PromptSpec.

(** *** The product of two square roots

    The division of the cosine has the product of two square roots as its
    divisor.  This part shows, from the bit-level specification of the
    primitive operations, that the product of two square roots that are
    not zero is not zero. *)

Module FloatProduct.

(** The number of binary digits of a positive number brackets it between
    two powers of two. *)
Lemma digits2_pos_bounds (p : positive) :
  2 ^ (Zpos (digits2_pos p) - 1) <= Zpos p < 2 ^ Zpos (digits2_pos p).
Proof.
  induction p as [p IH | p IH |]; cbn [digits2_pos].
  - rewrite Pos2Z.inj_succ.
    replace (Z.succ (Zpos (digits2_pos p)) - 1) with (Z.succ (Zpos (digits2_pos p) - 1)) by lia.
    rewrite !Z.pow_succ_r by lia. lia.
  - rewrite Pos2Z.inj_succ.
    replace (Z.succ (Zpos (digits2_pos p)) - 1) with (Z.succ (Zpos (digits2_pos p) - 1)) by lia.
    rewrite !Z.pow_succ_r by lia. lia.
  - cbn. lia.
Qed.

Lemma iter_pos_nat {A} (f : A -> A) (p : positive) (x : A) :
  SpecFloat.iter_pos f p x = Nat.iter (Pos.to_nat p) f x.
Proof.
  revert x. induction p as [p IH | p IH |]; intros x; cbn [SpecFloat.iter_pos].
  - rewrite !IH, Pos2Nat.inj_xI.
    replace (S (2 * Pos.to_nat p)) with (Pos.to_nat p + (Pos.to_nat p + 1))%nat by lia.
    rewrite !Nat.iter_add. reflexivity.
  - rewrite !IH, Pos2Nat.inj_xO.
    replace (2 * Pos.to_nat p)%nat with (Pos.to_nat p + Pos.to_nat p)%nat by lia.
    now rewrite Nat.iter_add.
  - reflexivity.
Qed.

Lemma shr_1_halves (mrs : shr_record) :
  0 <= shr_m mrs -> shr_m (shr_1 mrs) = shr_m mrs / 2.
Proof.
  destruct mrs as [m r s]. cbn [shr_m shr_1]. intros Hm.
  destruct m as [|[p|p|]|p]; cbn [shr_m]; [reflexivity| | |reflexivity|lia].
  - rewrite Pos2Z.inj_xI. apply (Z.div_unique _ 2 _ 1); lia.
  - rewrite Pos2Z.inj_xO. apply (Z.div_unique _ 2 _ 0); lia.
Qed.

Lemma iter_shr_1_divides (n : nat) (mrs : shr_record) :
  0 <= shr_m mrs ->
  shr_m (Nat.iter n shr_1 mrs) = shr_m mrs / 2 ^ Z.of_nat n.
Proof.
  intros Hm. induction n as [|n IH].
  - change (Nat.iter 0 shr_1 mrs) with mrs. change (2 ^ Z.of_nat 0) with 1.
    now rewrite Z.div_1_r.
  - rewrite Nat.iter_succ, shr_1_halves.
    + rewrite IH, Nat2Z.inj_succ, Z.pow_succ_r by lia.
      rewrite Z.div_div by lia. now rewrite Z.mul_comm.
    + rewrite IH. apply Z.div_pos; lia.
Qed.

Lemma shr_record_of_loc_mantissa (m : Z) (l : location) : shr_m (shr_record_of_loc m l) = m.
Proof. now destruct l as [|[]]. Qed.

(** Rounding a positive number whose value is at least the smallest
    positive double keeps it positive: [shr_fexp] leaves a mantissa of at
    least 1 and an exponent that is not below that of the subnormals. *)
Lemma shr_fexp_keeps_positive (m e : Z) (l : location) :
  1 <= m -> -1073 <= Zdigits2 m + e ->
  1 <= shr_m (fst (shr_fexp prec emax m e l))
  /\ e <= snd (shr_fexp prec emax m e l)
  /\ -1074 <= snd (shr_fexp prec emax m e l).
Proof.
  intros Hm Hd. unfold shr_fexp, shr.
  destruct m as [|p|p]; try lia. cbn [Zdigits2] in *.
  pose proof (digits2_pos_bounds p) as [Hlo Hhi].
  set (d := Zpos (digits2_pos p)) in *.
  assert (Hfexp : fexp prec emax (d + e) = Z.max (d + e - 53) (-1074)) by reflexivity.
  rewrite Hfexp.
  destruct (Z.max (d + e - 53) (-1074) - e) as [|q|q] eqn:Hq; cbn [fst snd].
  - rewrite shr_record_of_loc_mantissa. lia.
  - rewrite iter_pos_nat, iter_shr_1_divides, shr_record_of_loc_mantissa
      by (rewrite shr_record_of_loc_mantissa; lia).
    rewrite positive_nat_Z. split; [|lia].
    assert (Hle : Zpos q <= d - 1) by lia.
    assert (2 ^ Zpos q <= 2 ^ (d - 1)) by (apply Z.pow_le_mono_r; lia).
    apply Z.div_le_lower_bound; lia.
  - rewrite shr_record_of_loc_mantissa. lia.
Qed.

Lemma round_nearest_even_ge (m : Z) (l : location) : m <= round_nearest_even m l.
Proof. destruct l as [|[]]; cbn; try lia. destruct (Z.even m); lia. Qed.

Lemma Zdigits2_pos (m : Z) : 1 <= m -> 1 <= Zdigits2 m.
Proof. destruct m; cbn; lia. Qed.

(** What [binary_round_aux] gives for such a number: never a zero, and an
    exponent that is not below the one it started from. *)
Lemma binary_round_aux_positive (s : bool) (m e : Z) (l : location) :
  1 <= m -> -1073 <= Zdigits2 m + e ->
  match binary_round_aux prec emax s m e l with
  | S754_zero _ => False
  | S754_finite _ _ e' => e <= e'
  | _ => True
  end.
Proof.
  intros Hm Hd. unfold binary_round_aux.
  destruct (shr_fexp_keeps_positive m e l Hm Hd) as (H1 & He1 & Hmin1).
  destruct (shr_fexp prec emax m e l) as [mrs' e'] eqn:E1. cbn [fst snd] in *.
  pose proof (round_nearest_even_ge (shr_m mrs') (loc_of_shr_record mrs')) as Hr.
  set (m1 := round_nearest_even (shr_m mrs') (loc_of_shr_record mrs')) in *.
  assert (Hm1 : 1 <= m1) by lia.
  pose proof (Zdigits2_pos m1 Hm1) as Hd1.
  destruct (shr_fexp_keeps_positive m1 e' loc_Exact Hm1 ltac:(lia)) as (H2 & He2 & _).
  destruct (shr_fexp prec emax m1 e' loc_Exact) as [mrs'' e''] eqn:E2.
  cbn [fst snd] in *.
  destruct (shr_m mrs'') as [|q|q]; try lia.
  destruct (e'' <=? emax - prec); [lia | exact I].
Qed.

Lemma finite_exponent (x : float) (s : bool) (m : positive) (e : Z) :
  Prim2SF x = S754_finite s m e ->
  -1074 <= e /\ (-1074 < e -> Zpos (digits2_pos m) = 53).
Proof.
  intros Hx. pose proof (Prim2SF_valid x) as Hv. rewrite Hx in Hv.
  cbn [SpecFloat.valid_binary] in Hv. unfold bounded, canonical_mantissa in Hv.
  apply andb_true_iff in Hv as [Hc _]. apply Z.eqb_eq in Hc.
  change (fexp prec emax (Zpos (digits2_pos m) + e))
    with (Z.max (Zpos (digits2_pos m) + e - 53) (-1074)) in Hc.
  lia.
Qed.

(** The square root of a double, when it is a finite number other than
    zero, is at least [2 ^ -537]: it is a normal number. *)
Lemma sqrt_finite_large (x : float) (s : bool) (m : positive) (e : Z) :
  Prim2SF (PrimFloat.sqrt x) = S754_finite s m e ->
  -536 <= Zpos (digits2_pos m) + e.
Proof.
  intros Hs. pose proof (finite_exponent _ _ _ _ Hs) as [_ Hnormal].
  enough (He : -589 <= e) by (specialize (Hnormal ltac:(lia)); lia).
  rewrite sqrt_spec in Hs. unfold SF64sqrt, SFsqrt in Hs.
  destruct (Prim2SF x) as [sx | [] | | [] mx ex] eqn:Hx; try discriminate.
  pose proof (finite_exponent _ _ _ _ Hx) as [Hex _].
  unfold SFsqrt_core_binary in Hs. cbn [Zdigits2] in Hs.
  set (d := Zpos (digits2_pos mx)) in *.
  assert (Hd : 1 <= d) by (unfold d; lia).
  change (fexp prec emax (Z.div2 (d + ex + 1)))
    with (Z.max (Z.div2 (d + ex + 1) - 53) (-1074)) in Hs.
  rewrite !Z.div2_div in Hs.
  pose proof (Z.div_mod (d + ex + 1) 2 ltac:(lia)) as Hdm1.
  pose proof (Z.mod_pos_bound (d + ex + 1) 2 ltac:(lia)) as Hmb1.
  pose proof (Z.div_mod ex 2 ltac:(lia)) as Hdm2.
  pose proof (Z.mod_pos_bound ex 2 ltac:(lia)) as Hmb2.
  set (e' := Z.min (Z.max ((d + ex + 1) / 2 - 53) (-1074)) (ex / 2)) in *.
  assert (He' : -589 <= e' /\ 0 <= ex - 2 * e') by (unfold e'; lia).
  set (m' := match ex - 2 * e' with
             | 0 => Zpos mx
             | Zpos _ => Z.shiftl (Zpos mx) (ex - 2 * e')
             | Zneg _ => 0
             end) in *.
  assert (Hm' : 1 <= m').
  { unfold m'. destruct (ex - 2 * e') as [|q|q] eqn:Hq; [lia| |lia].
    rewrite Z.shiftl_mul_pow2 by lia.
    pose proof (Z.pow_pos_nonneg 2 (Zpos q) ltac:(lia) ltac:(lia)). nia. }
  pose proof (Z.sqrtrem_spec m' ltac:(lia)) as Hsq.
  destruct (Z.sqrtrem m') as [q r].
  assert (Hq : 1 <= q) by nia.
  pose proof (binary_round_aux_positive false q e'
                (if r =? 0 then loc_Exact
                 else loc_Inexact (if r <=? q then Lt else Gt))
                Hq ltac:(pose proof (Zdigits2_pos q Hq); lia)) as Hround.
  rewrite Hs in Hround. lia.
Qed.

Lemma digits2_pos_mul (a b : positive) :
  Zpos (digits2_pos a) + Zpos (digits2_pos b) - 1 <= Zpos (digits2_pos (a * b)).
Proof.
  pose proof (digits2_pos_bounds a) as [Ha _].
  pose proof (digits2_pos_bounds b) as [Hb _].
  pose proof (digits2_pos_bounds (a * b)) as [_ Hab].
  destruct (Z.le_gt_cases (Zpos (digits2_pos a) + Zpos (digits2_pos b) - 1)
                          (Zpos (digits2_pos (a * b)))) as [H | H]; [exact H|].
  exfalso.
  assert (Hpow : 2 ^ Zpos (digits2_pos (a * b))
                 <= 2 ^ (Zpos (digits2_pos a) - 1 + (Zpos (digits2_pos b) - 1)))
    by (apply Z.pow_le_mono_r; lia).
  rewrite Z.pow_add_r in Hpow by lia.
  rewrite Pos2Z.inj_mul in Hab.
  pose proof (Z.pow_pos_nonneg 2 (Zpos (digits2_pos a) - 1) ltac:(lia) ltac:(lia)).
  pose proof (Z.pow_pos_nonneg 2 (Zpos (digits2_pos b) - 1) ltac:(lia) ltac:(lia)).
  nia.
Qed.

(** The product of two square roots that are not zero is not zero: each
    of them is at least [2 ^ -537], and [2 ^ -1074] is a double. *)
Lemma sqrt_product_nonzero (x y : float) :
  (PrimFloat.sqrt x =? 0)%float = false -> (PrimFloat.sqrt y =? 0)%float = false ->
  (PrimFloat.sqrt x * PrimFloat.sqrt y =? 0)%float = false.
Proof.
  rewrite !FloatAxioms.eqb_spec, mul_spec.
  change (Prim2SF 0) with (S754_zero false). unfold SF64mul.
  intros Hx Hy.
  destruct (Prim2SF (PrimFloat.sqrt x)) as [sx | sx | | sx mx ex] eqn:Ex;
    [discriminate Hx| | |];
    (destruct (Prim2SF (PrimFloat.sqrt y)) as [sy | sy | | sy my ey] eqn:Ey;
     [discriminate Hy| | |]); try reflexivity;
    try (now destruct sx, sy); try (now destruct sx); try (now destruct sy).
  cbn [SFmul].
  pose proof (sqrt_finite_large _ _ _ _ Ex) as Hlx.
  pose proof (sqrt_finite_large _ _ _ _ Ey) as Hly.
  pose proof (digits2_pos_mul mx my) as Hmul.
  pose proof (binary_round_aux_positive (xorb sx sy) (Zpos (mx * my)) (ex + ey) loc_Exact
                ltac:(lia) ltac:(cbn [Zdigits2]; lia)) as Hround.
  destruct (binary_round_aux prec emax (xorb sx sy) (Zpos (mx * my)) (ex + ey) loc_Exact)
    as [s | s | | s m e]; [destruct Hround | | |]; try reflexivity; now destruct s.
Qed.

End FloatProduct.

(** *** Cosine similarity *)

Module CosineFacts.
Import RagPipeline CosineTerms.

Lemma cosineStep_fold (vecA vecB : list float) :
  length vecA = length vecB ->
  forall d na nb,
    fold_left cosineStep (combine vecA vecB) (d, na, nb) =
    (fold_left (fun acc ab => (acc + fst ab * snd ab)%float) (combine vecA vecB) d,
     fold_left (fun acc a => (acc + a * a)%float) vecA na,
     fold_left (fun acc a => (acc + a * a)%float) vecB nb).
Proof.
  revert vecB. induction vecA as [|a vecA IH]; intros [|b vecB] Hlen d na nb;
    try discriminate; [reflexivity|].
  cbn [combine fold_left cosineStep fst snd]. apply IH. now inversion Hlen.
Qed.

(** With equal dimensions the function either takes the zero-norm exit or
    divides the dot product by the product of the norms. *)
Lemma cosine_same_length (vecA vecB : list float) :
  length vecA = length vecB ->
  calculateCosineSimilarity vecA vecB =
  if (norm vecA =? 0)%float || (norm vecB =? 0)%float then Normal 0%float
  else Normal (dotProduct vecA vecB / (norm vecA * norm vecB))%float.
Proof.
  intros Hlen. unfold calculateCosineSimilarity.
  rewrite Hlen, Nat.eqb_refl. cbn [negb].
  rewrite (cosineStep_fold vecA vecB Hlen). reflexivity.
Qed.

Lemma cosine_throws_iff (vecA vecB : list float) :
  calculateCosineSimilarity vecA vecB =
    Throw (mkError "Vectors must have the same dimensions")
  <-> length vecA <> length vecB.
Proof.
  split.
  - intros H Hlen. rewrite (cosine_same_length _ _ Hlen) in H.
    destruct (_ || _); discriminate.
  - intros Hne. unfold calculateCosineSimilarity.
    apply Nat.eqb_neq in Hne. now rewrite Hne.
Qed.

Lemma sumSquares_zero (vec : list float) :
  isZeroVector vec -> sumSquares vec = 0%float.
Proof.
  unfold sumSquares. induction 1 as [|a vec Ha _ IH]; [reflexivity|].
  cbn [fold_left]. destruct Ha as [-> | ->]; exact IH.
Qed.

Lemma norm_zero (vec : list float) :
  isZeroVector vec -> (norm vec =? 0)%float = true.
Proof. intros H. unfold norm. now rewrite sumSquares_zero. Qed.

End CosineFacts.

Module CosineSpec.
Import RagPipeline CosineFacts CosineTerms FloatProduct Samples.

(** C7, as the code has it.  [calculateCosineSimilarity] fails with the
    dimension error exactly when the lengths differ.  With equal lengths it
    returns 0 as soon as one of the computed norms is zero (in particular
    for a vector of zeros); otherwise it returns the double-precision
    quotient of the dot product by the product of the norms, and that
    product, the divisor, is never zero. *)
Theorem cosine_dimension_and_zero_norm (vecA vecB : list float) :
  (calculateCosineSimilarity vecA vecB =
     Throw (mkError "Vectors must have the same dimensions")
   <-> length vecA <> length vecB)
  /\ (length vecA = length vecB ->
      ((norm vecA =? 0)%float = true \/ (norm vecB =? 0)%float = true ->
       calculateCosineSimilarity vecA vecB = Normal 0%float)
      /\ (isZeroVector vecA \/ isZeroVector vecB ->
          calculateCosineSimilarity vecA vecB = Normal 0%float)
      /\ ((norm vecA =? 0)%float = false -> (norm vecB =? 0)%float = false ->
          calculateCosineSimilarity vecA vecB =
          Normal (dotProduct vecA vecB / (norm vecA * norm vecB))%float
          /\ (norm vecA * norm vecB =? 0)%float = false)).
Proof.
  split; [apply cosine_throws_iff|].
  intros Hlen. rewrite (cosine_same_length _ _ Hlen).
  split; [|split].
  - intros [H | H]; rewrite H; [reflexivity | now rewrite orb_true_r].
  - intros [H | H]; apply norm_zero in H; rewrite H;
      [reflexivity | now rewrite orb_true_r].
  - intros HA HB. split; [now rewrite HA, HB|].
    unfold norm in *. now apply sqrt_product_nonzero.
Qed.

(** C7 as stated fails in its range: for [a = b = threeOnes] the sums of
    squares are 3, the norms are [sqrt 3], their rounded product is just
    below 3, and the quotient is the double right above 1 (the same value
    results for the plain [[1, 1, 1]]). *)
Lemma cosine_exceeds_one :
  length threeOnes = 1536%nat
  /\ calculateCosineSimilarity threeOnes threeOnes = Normal 0x1.0000000000001p+0%float
  /\ calculateCosineSimilarity [1; 1; 1]%float [1; 1; 1]%float
     = Normal 0x1.0000000000001p+0%float
  /\ (0x1.0000000000001p+0 <=? 1)%float = false.
Proof. repeat split; vm_compute; reflexivity. Qed.

End CosineSpec.

(** ** The order of the doubles

    The comparator of the similarity search subtracts two scores and looks
    at the sign.  This part relates that sign, and the comparisons [<] and
    [<=], to an integer rank of the doubles, from the bit-level
    specification of the primitive operations. *)

Module FloatOrder.
Import FloatRank.

Lemma digits2_bounds (m : positive) :
  2 ^ (Zpos (digits2_pos m) - 1) <= Zpos m < 2 ^ Zpos (digits2_pos m).
Proof.
  induction m as [m IH | m IH |]; cbn [digits2_pos].
  - rewrite Pos2Z.inj_succ.
    replace (Z.succ (Zpos (digits2_pos m)) - 1) with (Z.succ (Zpos (digits2_pos m) - 1)) by lia.
    rewrite !Z.pow_succ_r by lia. lia.
  - rewrite Pos2Z.inj_succ.
    replace (Z.succ (Zpos (digits2_pos m)) - 1) with (Z.succ (Zpos (digits2_pos m) - 1)) by lia.
    rewrite !Z.pow_succ_r by lia. lia.
  - simpl. lia.
Qed.

Lemma valid_finite (s : bool) (m : positive) (e : Z) :
  valid_binary (S754_finite s m e) = true ->
  -1074 <= e <= 971 /\ Zpos m < 2 ^ 53 /\ (-1074 < e -> 2 ^ 52 <= Zpos m).
Proof.
  unfold SpecFloat.valid_binary, bounded, canonical_mantissa, fexp, emin, prec, emax.
  intros H. apply andb_prop in H as [Hc He].
  apply Z.eqb_eq in Hc. apply Z.leb_le in He.
  pose proof (digits2_bounds m) as [Hlo Hhi].
  set (d := Zpos (digits2_pos m)) in *.
  assert (Hd : d <= 53) by lia.
  split; [lia|]. split.
  - eapply Z.lt_le_trans; [exact Hhi|]. apply Z.pow_le_mono_r; lia.
  - intros Hlt. assert (d = 53) by lia. 
    replace 52 with (d - 1) by lia. exact Hlo.
Qed.


Lemma pow2_pos (k : Z) : 0 <= k -> 0 < 2 ^ k.
Proof. intros. apply Z.pow_pos_nonneg; lia. Qed.

Lemma magnitude_bounds (s : bool) (m : positive) (e : Z) :
  valid_binary (S754_finite s m e) = true ->
  0 < Zpos m * 2 ^ (e + 1074) < 2 ^ 2100.
Proof.
  intros Hv. apply valid_finite in Hv as (He & Hm & _).
  pose proof (pow2_pos (e + 1074) ltac:(lia)) as Hp.
  split; [apply Z.mul_pos_pos; lia|].
  assert (Hle : 2 ^ (e + 1074) <= 2 ^ 2045) by (apply Z.pow_le_mono_r; lia).
  replace 2100 with (53 + 2047) by lia.
  rewrite (Z.pow_add_r 2 53 2047) by lia.
  assert (2 ^ 2045 < 2 ^ 2047) by (apply Z.pow_lt_mono_r; lia).
  assert (0 < 2 ^ 53) by (apply pow2_pos; lia).
  nia.
Qed.

Lemma magnitude_lt (s1 s2 : bool) (m1 m2 : positive) (e1 e2 : Z) :
  valid_binary (S754_finite s1 m1 e1) = true ->
  valid_binary (S754_finite s2 m2 e2) = true ->
  e1 < e2 ->
  Zpos m1 * 2 ^ (e1 + 1074) < Zpos m2 * 2 ^ (e2 + 1074).
Proof.
  intros H1 H2 Hlt.
  apply valid_finite in H1 as (He1 & Hm1 & _).
  apply valid_finite in H2 as (He2 & _ & Hm2).
  specialize (Hm2 ltac:(lia)).
  replace (e2 + 1074) with ((e1 + 1074) + (e2 - e1)) by lia.
  rewrite (Z.pow_add_r 2 (e1 + 1074) (e2 - e1)) by lia.
  pose proof (pow2_pos (e1 + 1074) ltac:(lia)) as Hp.
  assert (Hq : 2 ^ 1 <= 2 ^ (e2 - e1)) by (apply Z.pow_le_mono_r; lia).
  change (2 ^ 1) with 2 in Hq.
  change (2 ^ 53) with (2 * 2 ^ 52) in Hm1.
  assert (HT : 0 < 2 ^ 52) by (apply pow2_pos; lia).
  generalize dependent (2 ^ 52). intros T Hm1 Hm2 HT.
  generalize dependent (2 ^ (e2 - e1)). intros Q HQ.
  generalize dependent (2 ^ (e1 + 1074)). intros P HP.
  assert (Zpos m1 * P < 2 * T * P) by nia.
  assert (2 * T * P <= 2 * Zpos m2 * P) by nia.
  assert (2 * Zpos m2 * P <= Zpos m2 * (P * Q)) by nia.
  lia.
Qed.

(** On valid numbers that are not NaN the comparison of the specification
    is the comparison of the ranks. *)
Lemma SFcompare_rank (x y : spec_float) :
  valid_binary x = true -> valid_binary y = true ->
  isNan x = false -> isNan y = false ->
  SFcompare x y = Some (rank x ?= rank y).
Proof.
  intros Hx Hy Nx Ny.
  destruct x as [sx | sx | | sx mx ex]; try discriminate;
  destruct y as [sy | sy | | sy my ey]; try discriminate;
  cbn [SFcompare rank]; f_equal.
  - destruct sy; cbn [cond_Zopp]; symmetry.
    + apply Z.compare_gt_iff. assert (0 < 2 ^ 2100) by (apply pow2_pos; lia). lia.
    + apply Z.compare_lt_iff. apply pow2_pos; lia.
  - pose proof (magnitude_bounds _ _ _ Hy).
    destruct sy; cbn [cond_Zopp]; symmetry;
      [apply Z.compare_gt_iff | apply Z.compare_lt_iff]; lia.
  - assert (0 < 2 ^ 2100) by (apply pow2_pos; lia).
    destruct sx; cbn [cond_Zopp]; symmetry;
      [apply Z.compare_lt_iff | apply Z.compare_gt_iff]; lia.
  - assert (0 < 2 ^ 2100) by (apply pow2_pos; lia).
    destruct sx, sy; cbn [cond_Zopp]; symmetry;
      first [apply Z.compare_eq_iff; lia | apply Z.compare_lt_iff; lia
            | apply Z.compare_gt_iff; lia].
  - assert (0 < 2 ^ 2100) by (apply pow2_pos; lia).
    pose proof (magnitude_bounds _ _ _ Hy).
    destruct sx; cbn [cond_Zopp]; symmetry;
      [apply Z.compare_lt_iff | apply Z.compare_gt_iff];
      destruct sy; cbn [cond_Zopp]; lia.
  - pose proof (magnitude_bounds _ _ _ Hx).
    destruct sx; cbn [cond_Zopp]; symmetry;
      [apply Z.compare_lt_iff | apply Z.compare_gt_iff]; lia.
  - assert (0 < 2 ^ 2100) by (apply pow2_pos; lia).
    pose proof (magnitude_bounds _ _ _ Hx).
    destruct sy; cbn [cond_Zopp]; symmetry;
      [apply Z.compare_gt_iff | apply Z.compare_lt_iff];
      destruct sx; cbn [cond_Zopp]; lia.
  - pose proof (magnitude_bounds _ _ _ Hx) as Bx.
    pose proof (magnitude_bounds _ _ _ Hy) as By.
    destruct sx, sy; cbn [cond_Zopp].
    + destruct (Z.compare_spec ex ey) as [Heq | Hlt | Hgt].
      * subst ey. symmetry.
        pose proof (valid_finite _ _ _ Hx) as (He & _).
        pose proof (pow2_pos (ex + 1074) ltac:(lia)) as Hp.
        change (Pos.compare_cont Eq mx my) with (Zpos mx ?= Zpos my).
        destruct (Z.compare_spec (Zpos mx) (Zpos my)) as [E | E | E]; cbn [CompOpp].
        -- apply Z.compare_eq_iff. rewrite E. reflexivity.
        -- apply Z.compare_gt_iff. nia.
        -- apply Z.compare_lt_iff. nia.
      * symmetry. apply Z.compare_gt_iff.
        pose proof (magnitude_lt _ _ _ _ _ _ Hx Hy Hlt). lia.
      * symmetry. apply Z.compare_lt_iff.
        pose proof (magnitude_lt _ _ _ _ _ _ Hy Hx Hgt). lia.
    + symmetry. apply Z.compare_lt_iff. lia.
    + symmetry. apply Z.compare_gt_iff. lia.
    + destruct (Z.compare_spec ex ey) as [Heq | Hlt | Hgt].
      * subst ey. symmetry.
        pose proof (valid_finite _ _ _ Hx) as (He & _).
        pose proof (pow2_pos (ex + 1074) ltac:(lia)) as Hp.
        change (Pos.compare_cont Eq mx my) with (Zpos mx ?= Zpos my).
        destruct (Z.compare_spec (Zpos mx) (Zpos my)) as [E | E | E].
        -- apply Z.compare_eq_iff. rewrite E. reflexivity.
        -- apply Z.compare_lt_iff. nia.
        -- apply Z.compare_gt_iff. nia.
      * symmetry. apply Z.compare_lt_iff.
        pose proof (magnitude_lt _ _ _ _ _ _ Hx Hy Hlt). lia.
      * symmetry. apply Z.compare_gt_iff.
        pose proof (magnitude_lt _ _ _ _ _ _ Hy Hx Hgt). lia.
Qed.


(** *** The right shift of the rounding procedure *)

Lemma shr_1_m (mrs : shr_record) :
  0 <= shr_m mrs -> shr_m (shr_1 mrs) = shr_m mrs / 2.
Proof.
  destruct mrs as [m r s]. cbn [shr_m shr_1]. intros Hm.
  destruct m as [|p|p]; [reflexivity | | lia].
  destruct p as [p|p|]; cbn [shr_m].
  - rewrite Pos2Z.inj_xI.
    apply Z.div_unique with (r := 1); lia.
  - rewrite Pos2Z.inj_xO.
    apply Z.div_unique with (r := 0); lia.
  - reflexivity.
Qed.

Lemma pow2_xO (p : positive) : 2 ^ Zpos p~0 = 2 ^ Zpos p * 2 ^ Zpos p.
Proof. rewrite <- Z.pow_add_r by lia. f_equal. lia. Qed.

Lemma pow2_xI (p : positive) : 2 ^ Zpos p~1 = 2 * (2 ^ Zpos p * 2 ^ Zpos p).
Proof.
  rewrite <- Z.pow_add_r by lia. rewrite <- Z.pow_succ_r by lia. f_equal. lia.
Qed.

Lemma iter_shr_1_m (p : positive) :
  forall mrs : shr_record,
    0 <= shr_m mrs ->
    shr_m (SpecFloat.iter_pos shr_1 p mrs) = shr_m mrs / 2 ^ Zpos p.
Proof.
  assert (Hdiv : forall a k, 0 <= a -> 0 <= k -> 0 <= a / 2 ^ k).
  { intros a k Ha Hk. apply Z.div_pos; [assumption | apply pow2_pos; lia]. }
  induction p as [p IH | p IH |]; intros mrs Hm; cbn [SpecFloat.iter_pos].
  - assert (H1 : 0 <= shr_m (shr_1 mrs)).
    { rewrite shr_1_m by assumption. apply Z.div_pos; lia. }
    rewrite IH by (rewrite IH by assumption; apply Hdiv; lia).
    rewrite IH by assumption. rewrite shr_1_m by assumption.
    rewrite !Z.div_div by (try apply pow2_pos; lia).
    now rewrite pow2_xI.
  - rewrite IH by (rewrite IH by assumption; apply Hdiv; lia).
    rewrite IH by assumption.
    rewrite !Z.div_div by (try apply pow2_pos; lia).
    now rewrite pow2_xO.
  - now apply shr_1_m.
Qed.

Lemma shr_record_of_loc_m (m : Z) (l : location) :
  shr_m (shr_record_of_loc m l) = m.
Proof. destruct l as [|[| |]]; reflexivity. Qed.

(** Shifting a positive mantissa at an exponent that is not below the
    smallest one never shifts all of its digits out. *)
Lemma shr_fexp_positive (m e : Z) (l : location) :
  0 < m -> -1074 <= e ->
  0 < shr_m (fst (shr_fexp prec emax m e l))
  /\ -1074 <= snd (shr_fexp prec emax m e l).
Proof.
  intros Hm He. unfold shr_fexp, shr, fexp, emin, prec, emax.
  destruct m as [|p|p]; try lia. cbn [Zdigits2].
  pose proof (digits2_bounds p) as [Hlo Hhi].
  set (d := Zpos (digits2_pos p)) in *.
  destruct (Z.max (d + e - 53) (3 - 1024 - 53) - e) as [|n|n] eqn:En;
    cbn [fst snd]; rewrite ?shr_record_of_loc_m; try (split; lia).
  rewrite iter_shr_1_m by (rewrite shr_record_of_loc_m; lia).
  rewrite shr_record_of_loc_m.
  split; [|lia].
  apply Z.div_str_pos. split; [apply pow2_pos; lia|].
  eapply Z.le_trans; [|exact Hlo]. apply Z.pow_le_mono_r; lia.
Qed.

Lemma round_nearest_even_positive (m : Z) (l : location) :
  0 < m -> 0 < round_nearest_even m l.
Proof.
  intros Hm. destruct l as [|[| |]]; cbn [round_nearest_even]; try lia.
  destruct (Z.even m); lia.
Qed.

Lemma binary_round_aux_signed (s : bool) (m e : Z) (l : location) :
  0 < m -> -1074 <= e -> signedNonzero s (binary_round_aux prec emax s m e l).
Proof.
  intros Hm He. unfold binary_round_aux.
  pose proof (shr_fexp_positive m e l Hm He) as [H1 H1e].
  destruct (shr_fexp prec emax m e l) as [mrs' e'] eqn:E1. cbn [fst snd] in *.
  pose proof (round_nearest_even_positive (shr_m mrs') (loc_of_shr_record mrs') H1) as H2.
  pose proof (shr_fexp_positive _ e' loc_Exact H2 H1e) as [H3 _].
  destruct (shr_fexp prec emax _ e' loc_Exact) as [mrs'' e''] eqn:E2. cbn [fst snd] in *.
  destruct (shr_m mrs'') as [|q|q]; try lia.
  destruct (e'' <=? emax - prec); [left; eauto | now right].
Qed.

Lemma binary_round_signed (s : bool) (m : positive) (e : Z) :
  -1074 <= e -> signedNonzero s (binary_round prec emax s m e).
Proof.
  intros He. unfold binary_round, shl_align.
  set (e' := fexp prec emax (Zpos (digits2_pos m) + e)).
  assert (He' : -1074 <= e').
  { unfold e', fexp, emin, prec, emax. lia. }
  destruct (e' - e) as [|d|d]; apply binary_round_aux_signed; lia.
Qed.

Lemma signedNonzero_positive (s : bool) (r : spec_float) :
  signedNonzero s r -> SFltb (S754_zero false) r = negb s.
Proof.
  intros [(m & e & ->) | ->]; destruct s; reflexivity.
Qed.

Lemma binary_normalize_positive (z e : Z) :
  -1074 <= e ->
  SFltb (S754_zero false) (binary_normalize prec emax z e false) = (0 <? z).
Proof.
  intros He. destruct z as [|p|p]; cbn [binary_normalize]; [reflexivity | |].
  - now rewrite (signedNonzero_positive false _ (binary_round_signed false p e He)).
  - now rewrite (signedNonzero_positive true _ (binary_round_signed true p e He)).
Qed.


(** *** The sign of a difference *)

Lemma iter_xO_value (m d : positive) :
  Zpos (Pos.iter xO m d) = Zpos m * 2 ^ Zpos d.
Proof.
  induction d as [|d IH] using Pos.peano_ind.
  - cbn [Pos.iter]. rewrite Z.pow_1_r. lia.
  - rewrite Pos.iter_succ, Pos2Z.inj_xO, IH, Pos2Z.inj_succ, Z.pow_succ_r by lia. ring.
Qed.

Lemma shl_align_value (m : positive) (e ez : Z) :
  ez <= e -> Zpos (fst (shl_align m e ez)) = Zpos m * 2 ^ (e - ez).
Proof.
  intros Hle. unfold shl_align.
  destruct (ez - e) as [|d|d] eqn:Ed; cbn [fst].
  - replace (e - ez) with 0 by lia. rewrite Z.pow_0_r. lia.
  - lia.
  - rewrite iter_xO_value. do 2 f_equal. lia.
Qed.

Lemma cond_Zopp_mul (s : bool) (a b : Z) : cond_Zopp s a * b = cond_Zopp s (a * b).
Proof. destruct s; cbn [cond_Zopp]; ring. Qed.

(** The difference [y - x] of two valid numbers is positive exactly when
    [x] ranks below [y]: a non-zero exact difference is a multiple of the
    smallest positive number and so never rounds to zero. *)
Lemma SFsub_positive (x y : spec_float) :
  valid_binary x = true -> valid_binary y = true ->
  isNan x = false -> isNan y = false ->
  SFltb (S754_zero false) (SF64sub y x) = (rank x <? rank y).
Proof.
  intros Hx Hy Nx Ny.
  assert (Hinf : 0 < 2 ^ 2100) by (apply pow2_pos; lia).
  destruct y as [sy | sy | | sy my ey]; try discriminate;
  destruct x as [sx | sx | | sx mx ex]; try discriminate;
  unfold SF64sub; cbn [SFsub rank].
  - destruct sy, sx; reflexivity.
  - destruct sx; cbn [SFltb SFcompare cond_Zopp negb]; symmetry;
      [apply Z.ltb_lt | apply Z.ltb_ge]; lia.
  - pose proof (magnitude_bounds _ _ _ Hx).
    destruct sx; cbn [SFltb SFcompare cond_Zopp negb]; symmetry;
      [apply Z.ltb_lt | apply Z.ltb_ge]; lia.
  - destruct sy; cbn [SFltb SFcompare cond_Zopp]; symmetry;
      [apply Z.ltb_ge | apply Z.ltb_lt]; lia.
  - destruct sy, sx; cbn [SFltb SFcompare cond_Zopp]; symmetry;
      first [apply Z.ltb_ge; lia | apply Z.ltb_lt; lia].
  - pose proof (magnitude_bounds _ _ _ Hx).
    destruct sy; cbn [SFltb SFcompare cond_Zopp]; symmetry;
      [apply Z.ltb_ge | apply Z.ltb_lt]; destruct sx; cbn [cond_Zopp]; lia.
  - pose proof (magnitude_bounds _ _ _ Hy).
    destruct sy; cbn [SFltb SFcompare cond_Zopp]; symmetry;
      [apply Z.ltb_ge | apply Z.ltb_lt]; lia.
  - pose proof (magnitude_bounds _ _ _ Hy).
    destruct sx; cbn [SFltb SFcompare cond_Zopp negb]; symmetry;
      [apply Z.ltb_lt | apply Z.ltb_ge]; destruct sy; cbn [cond_Zopp]; lia.
  - pose proof (valid_finite _ _ _ Hx) as (Hex & _).
    pose proof (valid_finite _ _ _ Hy) as (Hey & _).
    set (ez := Z.min ey ex).
    rewrite binary_normalize_positive by (unfold ez; lia).
    pose proof (pow2_pos (ez + 1074) ltac:(unfold ez; lia)) as Hp.
    assert (Ey : cond_Zopp sy (Zpos (fst (shl_align my ey ez))) * 2 ^ (ez + 1074)
                 = cond_Zopp sy (Zpos my * 2 ^ (ey + 1074))).
    { rewrite cond_Zopp_mul, shl_align_value by (unfold ez; lia).
      rewrite <- Z.mul_assoc, <- Z.pow_add_r by (unfold ez; lia).
      do 3 f_equal. lia. }
    assert (Ex : cond_Zopp sx (Zpos (fst (shl_align mx ex ez))) * 2 ^ (ez + 1074)
                 = cond_Zopp sx (Zpos mx * 2 ^ (ex + 1074))).
    { rewrite cond_Zopp_mul, shl_align_value by (unfold ez; lia).
      rewrite <- Z.mul_assoc, <- Z.pow_add_r by (unfold ez; lia).
      do 3 f_equal. lia. }
    rewrite <- Ey, <- Ex.
    generalize dependent (2 ^ (ez + 1074)). intros P HP _ _.
    generalize (cond_Zopp sy (Zpos (fst (shl_align my ey ez)))).
    generalize (cond_Zopp sx (Zpos (fst (shl_align mx ex ez)))).
    intros a b.
    destruct (0 <? b - a) eqn:E; symmetry.
    + apply Z.ltb_lt in E. apply Z.ltb_lt. nia.
    + apply Z.ltb_ge in E. apply Z.ltb_ge. nia.
Qed.

(** *** The same facts on the primitive floats *)

Lemma not_nan_spec (x : float) : is_nan x = false -> isNan (Prim2SF x) = false.
Proof.
  unfold is_nan. rewrite FloatAxioms.eqb_spec. intros H.
  destruct (Prim2SF x); try reflexivity. discriminate.
Qed.

Lemma ltb_frank (x y : float) :
  is_nan x = false -> is_nan y = false ->
  (x <? y)%float = (frank x <? frank y).
Proof.
  intros Nx Ny. rewrite FloatAxioms.ltb_spec. unfold SFltb, frank, Z.ltb.
  now rewrite (SFcompare_rank _ _ (Prim2SF_valid x) (Prim2SF_valid y)
                 (not_nan_spec x Nx) (not_nan_spec y Ny)).
Qed.

Lemma leb_frank (x y : float) :
  is_nan x = false -> is_nan y = false ->
  (x <=? y)%float = (frank x <=? frank y).
Proof.
  intros Nx Ny. rewrite FloatAxioms.leb_spec. unfold SFleb, frank, Z.leb.
  rewrite (SFcompare_rank _ _ (Prim2SF_valid x) (Prim2SF_valid y)
             (not_nan_spec x Nx) (not_nan_spec y Ny)).
  now destruct (rank (Prim2SF x) ?= rank (Prim2SF y)).
Qed.

Lemma sub_positive (x y : float) :
  is_nan x = false -> is_nan y = false ->
  (0 <? y - x)%float = (frank x <? frank y).
Proof.
  intros Nx Ny. rewrite FloatAxioms.ltb_spec, FloatAxioms.sub_spec.
  change (Prim2SF 0) with (S754_zero false).
  apply SFsub_positive;
    auto using Prim2SF_valid, not_nan_spec.
Qed.

End FloatOrder.

(** *** Similarity search: the sort, the filter and the cap *)

Module SearchFacts.
Import RagPipeline JSFacts FloatOrder FloatRank SearchOrder.

Section GenericSort.
Context {A B : Type} (f : A -> B) (cmpA : A -> A -> float) (cmpB : B -> B -> float).
Hypothesis cmp_f : forall a b, cmpB (f a) (f b) = cmpA a b.

Lemma sortInsert_map (x : A) (l : list A) :
  map f (sortInsert cmpA x l) = sortInsert cmpB (f x) (map f l).
Proof.
  induction l as [|y l IH]; [reflexivity|].
  cbn [sortInsert map]. rewrite cmp_f.
  destruct (0 <? cmpA x y)%float; cbn [map]; [now rewrite IH | reflexivity].
Qed.

Lemma sort_map (l : list A) : map f (sort cmpA l) = sort cmpB (map f l).
Proof.
  induction l as [|x l IH]; [reflexivity|].
  cbn [sort fold_right map]. fold (sort cmpA l). fold (sort cmpB (map f l)).
  now rewrite sortInsert_map, IH.
Qed.

Lemma In_sortInsert (x z : A) (l : list A) :
  In z (sortInsert cmpA x l) <-> z = x \/ In z l.
Proof.
  induction l as [|y l IH]; cbn [sortInsert].
  - cbn. intuition congruence.
  - destruct (0 <? cmpA x y)%float; cbn [In]; [rewrite IH|]; intuition congruence.
Qed.

Lemma In_sort (z : A) (l : list A) : In z (sort cmpA l) <-> In z l.
Proof.
  induction l as [|x l IH]; [reflexivity|].
  cbn [sort fold_right]. fold (sort cmpA l).
  rewrite In_sortInsert, IH. cbn [In]. intuition congruence.
Qed.
End GenericSort.

Lemma StronglySorted_filter {A} (R : A -> A -> Prop) (p : A -> bool) (l : list A) :
  StronglySorted R l -> StronglySorted R (List.filter p l).
Proof.
  induction 1 as [|x l Hs IH Hall]; cbn [List.filter]; [constructor|].
  destruct (p x); [|assumption].
  constructor; [assumption|].
  rewrite List.Forall_forall in *. intros y Hy.
  apply List.filter_In in Hy as [Hy _]. now apply Hall.
Qed.

Lemma In_firstn {A} (n : nat) (l : list A) (y : A) : In y (firstn n l) -> In y l.
Proof.
  revert n. induction l as [|x l IH]; intros [|n] H; cbn [firstn] in H;
    try contradiction.
  destruct H as [-> | H]; [now left | right; eapply IH; eassumption].
Qed.

Lemma StronglySorted_firstn {A} (R : A -> A -> Prop) (n : nat) (l : list A) :
  StronglySorted R l -> StronglySorted R (firstn n l).
Proof.
  intros Hs. revert n. induction Hs as [|x l Hs IH Hall]; intros [|n];
    cbn [firstn]; try constructor; [apply IH|].
  rewrite List.Forall_forall in *. intros y Hy.
  apply Hall. eapply In_firstn; eassumption.
Qed.

Lemma StronglySorted_weaken {A} (R R' : A -> A -> Prop) (P : A -> Prop) (l : list A) :
  (forall a b, P a -> P b -> R a b -> R' a b) ->
  List.Forall P l -> StronglySorted R l -> StronglySorted R' l.
Proof.
  intros Himp HP Hs. induction Hs as [|x l Hs IH Hall]; [constructor|].
  inversion HP as [|? ? Px Pl]; subst.
  constructor; [now apply IH|].
  rewrite List.Forall_forall in *. intros y Hy. apply Himp; auto.
Qed.

Lemma slice_firstn {A} (l : list A) (m : Z) :
  0 <= m -> slice l 0 m = firstn (Z.to_nat m) l.
Proof.
  intros Hm. unfold slice, relIndex. pose proof (len_nonneg l) as Hl.
  replace (0 <? 0) with false by reflexivity.
  replace (m <? 0) with false by (symmetry; apply Z.ltb_ge; lia).
  rewrite (Z.min_l 0 (len l)) by lia. rewrite Z.sub_0_r.
  change (skipn (Z.to_nat 0) l) with l.
  destruct (Z.le_gt_cases m (len l)).
  - now rewrite Z.min_l by lia.
  - rewrite Z.min_r by lia. unfold len in *.
    rewrite !firstn_all2 by lia. reflexivity.
Qed.

(** *** The tagged store *)

Lemma tag_snd (l : list Scored.t) (k : nat) : map snd (tag k l) = l.
Proof.
  unfold tag. revert k. induction l as [|r l IH]; intros k; [reflexivity|].
  cbn [length seq combine map snd]. now rewrite IH.
Qed.

Lemma tag_In (l : list Scored.t) :
  forall (k i : nat) (r : Scored.t),
    In (i, r) (tag k l) -> (k <= i)%nat /\ nth_error l (i - k) = Some r.
Proof.
  unfold tag. induction l as [|r0 l IH]; intros k i r Hin; [destruct Hin|].
  cbn [length seq combine In] in Hin. destruct Hin as [Heq | Hin].
  - inversion Heq; subst. rewrite Nat.sub_diag. split; [lia | reflexivity].
  - apply IH in Hin as [Hle Hnth]. split; [lia|].
    replace (i - k)%nat with (S (i - S k)) by lia. exact Hnth.
Qed.

Lemma tag_increasing (l : list Scored.t) (k : nat) :
  StronglySorted (fun a b : Tagged => (fst a < fst b)%nat) (tag k l).
Proof.
  revert k. induction l as [|r l IH]; intros k; [constructor|].
  unfold tag. cbn [length seq combine]. constructor; [apply IH|].
  rewrite List.Forall_forall. intros [i r'] Hin.
  apply (tag_In l (S k) i r') in Hin as [Hle _]. cbn [fst]. lia.
Qed.

(** *** The sort on entries whose scores are numbers *)

Lemma taggedCompare_positive (x y : Tagged) :
  numeric x -> numeric y ->
  (0 <? taggedCompare x y)%float = (frank (sim x) <? frank (sim y)).
Proof. intros Nx Ny. now apply sub_positive. Qed.

Lemma before_le (a b : Tagged) : before a b -> frank (sim b) <= frank (sim a).
Proof. unfold before. lia. Qed.

Lemma sortInsert_before (x : Tagged) (l : list Tagged) :
  numeric x -> List.Forall numeric l ->
  List.Forall (fun y => (fst x < fst y)%nat) l ->
  StronglySorted before l ->
  StronglySorted before (sortInsert taggedCompare x l).
Proof.
  intros Nx Nl Hidx Hs. induction Hs as [|y l Hs IH Hall]; cbn [sortInsert].
  - repeat constructor.
  - inversion Nl as [|? ? Ny Nl']; subst.
    inversion Hidx as [|? ? Hxy Hidx']; subst.
    rewrite (taggedCompare_positive x y Nx Ny).
    destruct (frank (sim x) <? frank (sim y)) eqn:E.
    + apply Z.ltb_lt in E.
      constructor; [now apply IH|].
      rewrite List.Forall_forall in *. intros z Hz.
      apply In_sortInsert in Hz as [-> | Hz]; [left; exact E | now apply Hall].
    + apply Z.ltb_ge in E.
      constructor; [now constructor|].
      rewrite List.Forall_forall in *. intros z Hz.
      assert (Hle : frank (sim z) <= frank (sim x)).
      { destruct Hz as [<- | Hz]; [exact E|].
        pose proof (before_le _ _ (Hall z Hz)). lia. }
      assert (Hiz : (fst x < fst z)%nat).
      { destruct Hz as [<- | Hz]; [exact Hxy | now apply Hidx']. }
      unfold before. lia.
Qed.

Lemma sort_before (l : list Tagged) :
  List.Forall numeric l ->
  StronglySorted (fun a b : Tagged => (fst a < fst b)%nat) l ->
  StronglySorted before (sort taggedCompare l).
Proof.
  intros Nl Hs. induction Hs as [|x l Hs IH Hall]; [constructor|].
  inversion Nl as [|? ? Nx Nl']; subst.
  cbn [sort fold_right]. fold (sort taggedCompare l).
  apply sortInsert_before; [assumption | | | now apply IH].
  - rewrite List.Forall_forall in *. intros y Hy. apply In_sort in Hy. now apply Nl'.
  - rewrite List.Forall_forall in *. intros y Hy. apply In_sort in Hy. now apply Hall.
Qed.

Lemma before_descendingStable (a b : Tagged) :
  numeric a -> numeric b -> before a b -> descendingStable a b.
Proof.
  unfold numeric, before, descendingStable. intros Na Nb H.
  rewrite (leb_frank _ _ Nb Na), (ltb_frank _ _ Nb Na).
  split; [apply Z.leb_le; lia|].
  destruct H as [H | [_ H]]; [left; apply Z.ltb_lt; exact H | right; exact H].
Qed.

(** *** The scored store *)

Lemma scoreAll_returns (q : list float) (store : list Chunk.t) :
  List.Forall (fun c => length q = length (Chunk.embedding c)) store ->
  exists similarities, scoreAll q store = Normal similarities.
Proof.
  induction 1 as [|c store Hc _ [sims IH]]; [now exists []|].
  cbn [scoreAll]. rewrite (CosineFacts.cosine_same_length _ _ Hc), IH.
  destruct (_ || _); eauto.
Qed.

Lemma scoreAll_nth (q : list float) (store : list Chunk.t) :
  forall (similarities : list Scored.t) (i : nat) (r : Scored.t),
    scoreAll q store = Normal similarities ->
    nth_error similarities i = Some r ->
    nth_error store i = Some (Scored.chunk r)
    /\ calculateCosineSimilarity q (Chunk.embedding (Scored.chunk r))
       = Normal (Scored.similarity r).
Proof.
  induction store as [|c store IH]; intros sims i r Hall Hnth; cbn [scoreAll] in Hall.
  - inversion Hall; subst. destruct i; discriminate.
  - destruct (calculateCosineSimilarity q (Chunk.embedding c)) as [s|e] eqn:Hc;
      [|discriminate].
    destruct (scoreAll q store) as [rest|e]; [|discriminate].
    inversion Hall; subst. destruct i as [|i]; cbn [nth_error] in *.
    + inversion Hnth; subst. cbn. auto.
    + now apply (IH rest).
Qed.

(** An entry of another dimension than the query makes the scoring throw. *)
Lemma scoreAll_throws (q : list float) (store : list Chunk.t) :
  List.Exists (fun c => length q <> length (Chunk.embedding c)) store ->
  scoreAll q store = Throw (mkError "Vectors must have the same dimensions").
Proof.
  induction 1 as [c store Hc | c store _ IH]; cbn [scoreAll].
  - apply CosineFacts.cosine_throws_iff in Hc. now rewrite Hc.
  - destruct (calculateCosineSimilarity q (Chunk.embedding c)) as [s|e] eqn:Hc.
    + now rewrite IH.
    + destruct (Nat.eq_dec (length q) (length (Chunk.embedding c))) as [Heq | Hne].
      * rewrite (CosineFacts.cosine_same_length _ _ Heq) in Hc.
        destruct (_ || _); discriminate.
      * apply CosineFacts.cosine_throws_iff in Hne. congruence.
Qed.

(** *** The configuration *)

(** The cap starts at 3 and its setter keeps it between 1 and 10. *)
Lemma setMaxRetrievedChunks_range (st st' : State) (maxChunks : Z) :
  setMaxRetrievedChunks st maxChunks = Normal st' ->
  1 <= maxRetrievedChunks st' <= 10.
Proof.
  unfold setMaxRetrievedChunks.
  destruct (maxChunks <? 1) eqn:E1; [discriminate|].
  destruct (10 <? maxChunks) eqn:E2; [discriminate|].
  cbn [orb]. intros H. inversion H; subst. cbn [maxRetrievedChunks].
  apply Z.ltb_ge in E1. apply Z.ltb_ge in E2. lia.
Qed.

End SearchFacts.

Module SearchSpec.
Import RagPipeline JSFacts FloatOrder SearchFacts FloatRank SearchOrder Samples.

Lemma filter_map_snd (p : Scored.t -> bool) (l : list Tagged) :
  map snd (List.filter (fun a => p (snd a)) l) = List.filter p (map snd l).
Proof.
  induction l as [|a l IH]; [reflexivity|].
  cbn [List.filter map]. destruct (p (snd a)); cbn [map]; now rewrite IH.
Qed.

(** C6, as the code has it.  When the entries of the store have the
    dimension of the query (so that no similarity computation throws) and
    no similarity score is NaN, [similaritySearch] returns entries of the
    scored store that are sorted by score in descending order, entries of
    equal score in their order in the store; every returned score is at
    least [similarityThreshold]; and at most [maxRetrievedChunks] entries
    are returned.  The returned entries are given with their positions in
    the store. *)
Theorem similaritySearch_sorted_filtered_bounded (st : State) (q : list float) :
  List.Forall (fun c => length q = length (Chunk.embedding c)) (vectorStore st) ->
  List.Forall (fun c => forall s,
                 calculateCosineSimilarity q (Chunk.embedding c) = Normal s ->
                 is_nan s = false) (vectorStore st) ->
  0 <= maxRetrievedChunks st ->
  exists tagged : list Tagged,
    similaritySearch st q = Normal (map snd tagged)
    /\ List.Forall (fun a =>
         nth_error (vectorStore st) (fst a) = Some (Scored.chunk (snd a))
         /\ calculateCosineSimilarity q (Chunk.embedding (Scored.chunk (snd a)))
            = Normal (sim a)) tagged
    /\ StronglySorted descendingStable tagged
    /\ List.Forall (fun a => (similarityThreshold st <=? sim a)%float = true) tagged
    /\ len tagged <= maxRetrievedChunks st.
Proof.
  intros Hdim Hnum Hmax.
  destruct (scoreAll_returns q (vectorStore st) Hdim) as [sims Hsims].
  set (keep := fun r : Scored.t => (similarityThreshold st <=? Scored.similarity r)%float).
  set (sorted := sort taggedCompare (tag 0 sims)).
  set (final := firstn (Z.to_nat (maxRetrievedChunks st))
                       (List.filter (fun a => keep (snd a)) sorted)).
  assert (Hin : forall a, In a final -> In a (tag 0 sims)).
  { intros a Ha. apply In_firstn in Ha. apply List.filter_In in Ha as [Ha _].
    now apply In_sort in Ha. }
  assert (Hstore : forall a, In a (tag 0 sims) ->
            nth_error (vectorStore st) (fst a) = Some (Scored.chunk (snd a))
            /\ calculateCosineSimilarity q (Chunk.embedding (Scored.chunk (snd a)))
               = Normal (sim a)).
  { intros [i r] Ha. apply tag_In in Ha as [_ Hnth]. rewrite Nat.sub_0_r in Hnth.
    exact (scoreAll_nth q _ _ _ _ Hsims Hnth). }
  assert (Hnumeric : List.Forall numeric (tag 0 sims)).
  { rewrite List.Forall_forall. intros a Ha.
    destruct (Hstore a Ha) as [Hnth Hcos].
    rewrite List.Forall_forall in Hnum.
    exact (Hnum _ (nth_error_In _ _ Hnth) _ Hcos). }
  exists final. split; [|split; [|split; [|split]]].
  - unfold similaritySearch. rewrite Hsims, slice_firstn by assumption.
    unfold final, sorted. rewrite <- List.firstn_map, filter_map_snd.
    rewrite (sort_map snd taggedCompare bySimilarityDesc (fun a b => eq_refl)), tag_snd.
    reflexivity.
  - rewrite List.Forall_forall. intros a Ha. apply Hstore, Hin, Ha.
  - apply (StronglySorted_weaken before descendingStable numeric).
    + exact before_descendingStable.
    + rewrite List.Forall_forall in *. intros a Ha. apply Hnumeric, Hin, Ha.
    + apply StronglySorted_firstn, StronglySorted_filter, sort_before;
        [exact Hnumeric | apply tag_increasing].
  - rewrite List.Forall_forall. intros a Ha. apply In_firstn in Ha.
    apply List.filter_In in Ha as [_ Ha]. exact Ha.
  - unfold len, final. rewrite length_firstn. lia.
Qed.

Lemma similaritySearch_sorted_filtered_bounded_witness :
  List.Forall (fun c => length sampleQuery = length (Chunk.embedding c))
              (vectorStore sampleState)
  /\ List.Forall (fun c => forall s,
                    calculateCosineSimilarity sampleQuery (Chunk.embedding c) = Normal s ->
                    is_nan s = false) (vectorStore sampleState)
  /\ 0 <= maxRetrievedChunks sampleState
  /\ exists tagged : list Tagged,
       similaritySearch sampleState sampleQuery = Normal (map snd tagged)
       /\ List.Forall (fun a =>
            nth_error (vectorStore sampleState) (fst a) = Some (Scored.chunk (snd a))
            /\ calculateCosineSimilarity sampleQuery
                 (Chunk.embedding (Scored.chunk (snd a))) = Normal (sim a)) tagged
       /\ StronglySorted descendingStable tagged
       /\ List.Forall (fun a => (similarityThreshold sampleState <=? sim a)%float = true)
                      tagged
       /\ len tagged <= maxRetrievedChunks sampleState.
Proof.
  assert (H1 : List.Forall (fun c => length sampleQuery = length (Chunk.embedding c))
                           (vectorStore sampleState))
    by (repeat constructor).
  assert (H2 : List.Forall (fun c => forall s,
                  calculateCosineSimilarity sampleQuery (Chunk.embedding c) = Normal s ->
                  is_nan s = false) (vectorStore sampleState)).
  { repeat constructor; intros s H; vm_compute in H; inversion H; reflexivity. }
  assert (H3 : 0 <= maxRetrievedChunks sampleState) by (simpl; lia).
  exact (conj H1 (conj H2 (conj H3
    (similaritySearch_sorted_filtered_bounded sampleState sampleQuery H1 H2 H3)))).
Defined.

(** The search on the sample: the two entries of score 1 come first, in
    store order, then the entry of score 0.6; the entry of score 0 is
    filtered out. *)
Example similaritySearch_sample :
  (fun r => (Chunk.id (Scored.chunk r), Scored.similarity r)) <$>
    match similaritySearch sampleState sampleQuery with
    | Normal results => results
    | Throw _ => []
    end
  = [("doc_0_chunk_2"%string, 1%float); ("doc_0_chunk_3"%string, 1%float);
     ("doc_0_chunk_1"%string, 0.6%float)].
Proof. vm_compute. reflexivity. Qed.

(** C6 as stated fails outside these conditions.  A query of another
    dimension than the entries makes the call throw.  And for the query
    [[2, 0]] on [overflowState] the scores are 0.8, NaN and 24/26: every
    comparison with the NaN yields NaN, no entry is moved, the filter drops
    the NaN, and the two remaining scores come back in ascending order. *)
Lemma similaritySearch_needs_comparable_scores :
  similaritySearch sampleState [1]%float
    = Throw (mkError "Vectors must have the same dimensions")
  /\ (fun r => (Chunk.id (Scored.chunk r), Scored.similarity r)) <$>
       match similaritySearch overflowState [2; 0]%float with
       | Normal results => results
       | Throw _ => []
       end
     = [("doc_0_chunk_0"%string, 0.8%float);
        ("doc_0_chunk_2"%string, 0.92307692307692313%float)]
  /\ (0.8 <? 0.92307692307692313)%float = true.
Proof. repeat split; vm_compute; reflexivity. Qed.

End SearchSpec.

(** *** The gateway: retry loop, counters, fallback *)

Module LlmFacts.
Import LlmService LlmTrace.

Lemma key_present_supported (cfg : Config) :
  String.eqb (getCurrentApiKey cfg) "" = false -> supportedProvider cfg = true.
Proof.
  unfold getCurrentApiKey, supportedProvider.
  destruct (String.eqb (provider cfg) "openai"); [reflexivity|].
  destruct (String.eqb (provider cfg) "gemini"); [reflexivity|].
  destruct (String.eqb (provider cfg) "claude"); [reflexivity|].
  destruct (String.eqb (provider cfg) "mistral"); [reflexivity|].
  destruct (String.eqb (provider cfg) "mock"); [reflexivity|].
  discriminate.
Qed.

Lemma makeAPICall_failed (cfg : Config) (net : Network) (prompt : string) (w : World)
  (msg : string) :
  String.eqb (provider cfg) "mock" = false ->
  supportedProvider cfg = true ->
  net (fetched w) = RequestFailed msg ->
  makeAPICall cfg net prompt w =
  (Normal (Rejected (mkError msg)),
   {| totalTokensUsed := totalTokensUsed w; requestCount := requestCount w;
      fetched := S (fetched w); log := log w ++ [Sent; Failed msg] |}).
Proof.
  intros Hmock Hsup Hnet. unfold makeAPICall. now rewrite Hmock, Hsup, Hnet.
Qed.

Lemma makeAPICall_ok (cfg : Config) (net : Network) (prompt : string) (w : World)
  (text : string) (tokens : Z) :
  String.eqb (provider cfg) "mock" = false ->
  supportedProvider cfg = true ->
  net (fetched w) = ResponseOk text tokens ->
  makeAPICall cfg net prompt w =
  (Normal (Fulfilled {| Response.content := text; Response.tokensUsed := tokens;
                        Response.model := getCurrentModel cfg;
                        Response.provider := provider cfg;
                        Response.fallback := false |}),
   {| totalTokensUsed := totalTokensUsed w + tokens;
      requestCount := requestCount w + 1;
      fetched := S (fetched w); log := log w ++ [Sent; Succeeded] |}).
Proof.
  intros Hmock Hsup Hnet. unfold makeAPICall. now rewrite Hmock, Hsup, Hnet.
Qed.

(** [makeAPICall] touches the counters only when it fulfils. *)
Lemma makeAPICall_counters (cfg : Config) (net : Network) (prompt : string)
  (w w1 : World) (r : completion (promise Response.t)) :
  makeAPICall cfg net prompt w = (r, w1) ->
  (forall response, r <> Normal (Fulfilled response)) ->
  totalTokensUsed w1 = totalTokensUsed w /\ requestCount w1 = requestCount w.
Proof.
  unfold makeAPICall. intros H Hr.
  destruct (String.eqb (provider cfg) "mock").
  { inversion H; subst. now destruct (Hr _ eq_refl). }
  destruct (negb (supportedProvider cfg)).
  { inversion H; subst. now split. }
  destruct (net (fetched w)); inversion H; subst.
  - now destruct (Hr _ eq_refl).
  - now split.
Qed.

(** The loop leaves the counters alone unless it ends fulfilled. *)
Lemma tryCall_counters (cfg : Config) (net : Network) (prompt : string) :
  forall (fuel : nat) (attempt : Z) (w w' : World) (p : promise Response.t),
    tryCall fuel cfg net prompt attempt w = Some (p, w') ->
    (forall response, p <> Fulfilled response) ->
    totalTokensUsed w' = totalTokensUsed w /\ requestCount w' = requestCount w.
Proof.
  induction fuel as [|fuel IH]; intros attempt w w' p H Hp; [discriminate|].
  cbn [tryCall] in H.
  destruct (makeAPICall cfg net prompt w) as [r w1] eqn:Hcall.
  destruct r as [[response | error |] | e].
  - inversion H; subst. now destruct (Hp _ eq_refl).
  - pose proof (makeAPICall_counters _ _ _ _ _ _ Hcall ltac:(discriminate)) as [Ht Hc].
    destruct (attempt >=? maxRetries cfg).
    + inversion H; subst. now split.
    + apply IH in H; [|exact Hp]. simpl in H. destruct H. split; congruence.
  - pose proof (makeAPICall_counters _ _ _ _ _ _ Hcall ltac:(discriminate)) as [Ht Hc].
    inversion H; subst. now split.
  - pose proof (makeAPICall_counters _ _ _ _ _ _ Hcall ltac:(discriminate)) as [Ht Hc].
    inversion H; subst. now split.
Qed.

(** When every exchange fails, the loop started at attempt [attempt] makes
    the remaining attempts up to [maxRetries], with the backoff timers in
    between, and rejects with the message of the last failure. *)
Lemma tryCall_all_fail (cfg : Config) (net : Network) (errs : nat -> string)
  (prompt : string) :
  String.eqb (provider cfg) "mock" = false ->
  supportedProvider cfg = true ->
  (forall k, net k = RequestFailed (errs k)) ->
  forall (n fuel : nat) (attempt : Z) (w : World),
    (n < fuel)%nat ->
    attempt + Z.of_nat n = maxRetries cfg ->
    tryCall fuel cfg net prompt attempt w =
    Some (Rejected (mkError ("LLM API failed after " +:+ showZ (maxRetries cfg)
                             +:+ " attempts: " +:+ errs (fetched w + n)%nat)),
          {| totalTokensUsed := totalTokensUsed w;
             requestCount := requestCount w;
             fetched := fetched w + S n;
             log := log w ++ backoffLog (retryDelay cfg) errs attempt (fetched w) (S n) |}).
Proof.
  intros Hmock Hsup Hnet.
  induction n as [|n IH]; intros fuel attempt w Hfuel Hatt.
  - destruct fuel as [|fuel]; [lia|]. cbn [tryCall].
    rewrite (makeAPICall_failed _ _ _ _ (errs (fetched w)) Hmock Hsup (Hnet _)).
    replace (attempt >=? maxRetries cfg) with true
      by (symmetry; apply Z.geb_le; lia).
    cbn [message backoffLog]. rewrite Nat.add_0_r, Nat.add_1_r, app_nil_r.
    reflexivity.
  - destruct fuel as [|fuel]; [lia|]. cbn [tryCall].
    rewrite (makeAPICall_failed _ _ _ _ (errs (fetched w)) Hmock Hsup (Hnet _)).
    replace (attempt >=? maxRetries cfg) with false
      by (symmetry; rewrite Z.geb_leb; apply Z.leb_gt; lia).
    rewrite IH by lia. cbn [logEvents fetched log totalTokensUsed requestCount].
    replace (S (fetched w) + n)%nat with (fetched w + S n)%nat by lia.
    replace (S (fetched w) + S n)%nat with (fetched w + S (S n))%nat by lia.
    change (backoffLog (retryDelay cfg) errs attempt (fetched w) (S (S n)))
      with ([Sent; Failed (errs (fetched w))] ++
            Timer (retryDelay cfg * 2 ^ (attempt - 1))
            :: backoffLog (retryDelay cfg) errs (attempt + 1) (S (fetched w)) (S n)).
    rewrite <- !app_assoc. reflexivity.
Qed.

Lemma backoffLog_requests (delay : Z) (errs : nat -> string) :
  forall (n : nat) (attempt : Z) (idx : nat),
    requestsIn (backoffLog delay errs attempt idx n) = n.
Proof.
  unfold requestsIn.
  induction n as [|n IH]; intros attempt idx; [reflexivity|].
  cbn [backoffLog app List.filter length]. f_equal.
  destruct n as [|n]; [reflexivity|].
  cbn [List.filter]. apply IH.
Qed.

End LlmFacts.

Module LlmSpec.
Import LlmService LlmFacts LlmTrace Samples.

(** Once [callLLM] has returned its promise, the wrapper absorbs every
    rejection: it never throws and never rejects, and a rejection of
    [callLLM] comes out as the fulfilled fallback response. *)
Lemma callLLMWithFallback_absorbs_rejection (fuel : nat) (cfg : Config)
  (net : Network) (prompt : string) (w : World) :
  String.eqb (getCurrentApiKey cfg) "" = false ->
  (forall e, callLLMWithFallback fuel cfg net prompt w <> Throw e)
  /\ (forall e w', callLLMWithFallback fuel cfg net prompt w <> Normal (Some (Rejected e, w')))
  /\ (forall e w',
        callLLM fuel cfg net prompt w = Normal (Some (Rejected e, w')) ->
        callLLMWithFallback fuel cfg net prompt w =
          Normal (Some (Fulfilled (generateFallbackResponse (message e)), w'))
        /\ totalTokensUsed w' = totalTokensUsed w
        /\ requestCount w' = requestCount w).
Proof.
  intros Hkey. unfold callLLMWithFallback, callLLM. rewrite Hkey.
  destruct (tryCall fuel cfg net prompt 1 w) as [[[r | e | ] w1]|] eqn:Htry;
    (split; [discriminate|]); (split; [discriminate|]); intros e0 w' H;
    inversion H; subst.
  split; [reflexivity|].
  eapply tryCall_counters; [exact Htry | discriminate].
Qed.

(** The fallback response has the fields the specification lists. *)
Lemma generateFallbackResponse_fields (error : string) :
  Response.provider (generateFallbackResponse error) = "fallback"
  /\ Response.tokensUsed (generateFallbackResponse error) = 0
  /\ Response.fallback (generateFallbackResponse error) = true.
Proof. now repeat split. Qed.

(** C1, where the code departs from it.  Without a key for the active
    provider [callLLM] throws before it has built a promise, so the
    [catch] of [callLLMWithFallback] is never attached: the wrapper throws
    the same error to its caller instead of returning the fallback
    response. *)
Theorem callLLMWithFallback_missing_key_throws (fuel : nat) (cfg : Config)
  (net : Network) (prompt : string) (w : World) :
  getCurrentApiKey cfg = EmptyString ->
  callLLMWithFallback fuel cfg net prompt w =
  Throw (mkError ("API key is required. Set " +:+ toUpperCase (provider cfg)
                  +:+ "_API_KEY environment variable.")).
Proof.
  intros Hkey. unfold callLLMWithFallback, callLLM. now rewrite Hkey.
Qed.

Lemma callLLMWithFallback_missing_key_throws_witness :
  getCurrentApiKey (config noEnv) = EmptyString
  /\ callLLMWithFallback 5 (config noEnv) netUp "hello" initialWorld =
     Throw (mkError "API key is required. Set GEMINI_API_KEY environment variable.").
Proof.
  assert (H : getCurrentApiKey (config noEnv) = EmptyString) by reflexivity.
  exact (conj H
    (callLLMWithFallback_missing_key_throws 5 (config noEnv) netUp "hello" initialWorld H)).
Defined.

(** A real provider that answers the first request: both the handler in
    [makeAPICall] and the one in [callLLM] count the request. *)
Lemma callLLM_real_success_counts_twice (fuel : nat) (cfg : Config) (net : Network)
  (prompt text : string) (tokens : Z) (w : World) :
  String.eqb (getCurrentApiKey cfg) "" = false ->
  String.eqb (provider cfg) "mock" = false ->
  net (fetched w) = ResponseOk text tokens ->
  exists r w',
    callLLM (S fuel) cfg net prompt w = Normal (Some (Fulfilled r, w'))
    /\ requestCount w' = requestCount w + 2
    /\ totalTokensUsed w' = totalTokensUsed w + tokens.
Proof.
  intros Hkey Hmock Hnet. unfold callLLM. rewrite Hkey. cbn [tryCall].
  rewrite (makeAPICall_ok _ _ _ _ text tokens Hmock (key_present_supported _ Hkey) Hnet).
  eexists _, _. split; [reflexivity|]. cbn. split; lia.
Qed.

(** The mock provider: [makeAPICall] leaves the counters alone, the handler
    in [callLLM] still counts the request. *)
Lemma callLLM_mock_counts_once (fuel : nat) (cfg : Config) (net : Network)
  (prompt : string) (w : World) :
  String.eqb (provider cfg) "mock" = true ->
  exists r w',
    callLLM (S fuel) cfg net prompt w = Normal (Some (Fulfilled r, w'))
    /\ Response.provider r = "mock"
    /\ Response.tokensUsed r = 0
    /\ requestCount w' = requestCount w + 1
    /\ totalTokensUsed w' = totalTokensUsed w.
Proof.
  intros Hmock. unfold callLLM, getCurrentApiKey.
  assert (Hp : provider cfg = "mock") by now apply String.eqb_eq.
  rewrite Hp. cbn [String.eqb Ascii.eqb Bool.eqb]. cbn [tryCall].
  unfold makeAPICall. rewrite Hp. cbn [String.eqb Ascii.eqb Bool.eqb].
  eexists _, _. split; [reflexivity|]. cbn. repeat split; lia.
Qed.

(** C2, where the code departs from it.  The fallback path leaves both
    counters unchanged and no path but a successful exchange adds tokens,
    as claimed; but one successful call to a real provider raises
    [requestCount] by 2, and a call served by the mock provider raises it
    by 1. *)
Theorem callLLM_request_count_drift (fuel : nat) (prompt : string) (w : World) :
  (exists r w',
     callLLM (S fuel) (config envOpenai) netUp prompt w = Normal (Some (Fulfilled r, w'))
     /\ Response.provider r = "openai"
     /\ requestCount w' = requestCount w + 2
     /\ totalTokensUsed w' = totalTokensUsed w + 42)
  /\ (exists r w',
        callLLM (S fuel) (config envMock) netUp prompt w = Normal (Some (Fulfilled r, w'))
        /\ Response.provider r = "mock"
        /\ requestCount w' = requestCount w + 1
        /\ totalTokensUsed w' = totalTokensUsed w)
  /\ (exists r w',
        callLLMWithFallback (S fuel + 3) (config envOpenai) netDown prompt w
          = Normal (Some (Fulfilled r, w'))
        /\ Response.fallback r = true
        /\ requestCount w' = requestCount w
        /\ totalTokensUsed w' = totalTokensUsed w).
Proof.
  split; [|split].
  - eexists _, _. split; [reflexivity|]. cbn. repeat split; lia.
  - destruct (callLLM_mock_counts_once fuel (config envMock) netUp prompt w eq_refl)
      as (r & w' & H & Hp & _ & Hc & Ht).
    now exists r, w'.
  - assert (Hkey : String.eqb (getCurrentApiKey (config envOpenai)) "" = false)
      by reflexivity.
    pose proof (tryCall_all_fail (config envOpenai) netDown (fun _ => "Request timeout")
                  prompt eq_refl eq_refl (fun _ => eq_refl) 2 (S fuel + 3) 1 w
                  ltac:(lia) eq_refl) as Htry.
    destruct (callLLMWithFallback_absorbs_rejection (S fuel + 3) (config envOpenai)
                netDown prompt w Hkey) as (_ & _ & Habs).
    edestruct Habs as (Hres & Ht & Hc).
    { unfold callLLM. rewrite Hkey, Htry. reflexivity. }
    eexists _, _. split; [exact Hres|]. cbn. repeat split; lia.
Qed.

(** C3. With a key for a real provider and [maxRetries >= 1], when every
    exchange fails, [callLLM] sends exactly [maxRetries] requests however
    much fuel it is given, one after the failure of the other, arming a
    timer of [retryDelay * 2 ^ (k - 1)] between attempt [k] and attempt
    [k + 1]; the promise then rejects with the message of the last failure
    wrapped as [LLM API failed after <maxRetries> attempts: ...], and the
    counters are as before. *)
Theorem callLLM_exhausts_retries (fuel : nat) (cfg : Config) (net : Network)
  (errs : nat -> string) (prompt : string) (w : World) :
  String.eqb (getCurrentApiKey cfg) "" = false ->
  String.eqb (provider cfg) "mock" = false ->
  1 <= maxRetries cfg ->
  (Z.to_nat (maxRetries cfg) <= fuel)%nat ->
  (forall k, net k = RequestFailed (errs k)) ->
  exists w',
    callLLM fuel cfg net prompt w =
      Normal (Some (Rejected (mkError
        ("LLM API failed after " +:+ showZ (maxRetries cfg) +:+ " attempts: "
         +:+ errs (fetched w + (Z.to_nat (maxRetries cfg) - 1))%nat)), w'))
    /\ log w' = log w ++ backoffLog (retryDelay cfg) errs 1 (fetched w)
                           (Z.to_nat (maxRetries cfg))
    /\ requestsIn (backoffLog (retryDelay cfg) errs 1 (fetched w)
                              (Z.to_nat (maxRetries cfg)))
       = Z.to_nat (maxRetries cfg)
    /\ fetched w' = (fetched w + Z.to_nat (maxRetries cfg))%nat
    /\ totalTokensUsed w' = totalTokensUsed w
    /\ requestCount w' = requestCount w.
Proof.
  intros Hkey Hmock Hmax Hfuel Hnet. unfold callLLM. rewrite Hkey.
  destruct (Z.to_nat (maxRetries cfg)) as [|n] eqn:En; [lia|].
  rewrite (tryCall_all_fail cfg net errs prompt Hmock
             (key_present_supported _ Hkey) Hnet n fuel 1 w) by lia.
  eexists. split.
  - replace (S n - 1)%nat with n by lia. reflexivity.
  - cbn [log fetched totalTokensUsed requestCount].
    rewrite backoffLog_requests. repeat split; reflexivity.
Qed.

Lemma callLLM_exhausts_retries_witness :
  String.eqb (getCurrentApiKey (config envOpenai)) "" = false
  /\ String.eqb (provider (config envOpenai)) "mock" = false
  /\ 1 <= maxRetries (config envOpenai)
  /\ (Z.to_nat (maxRetries (config envOpenai)) <= 10)%nat
  /\ (forall k, netDown k = RequestFailed "Request timeout")
  /\ exists w',
       callLLM 10 (config envOpenai) netDown "hello" initialWorld =
         Normal (Some (Rejected (mkError
           "LLM API failed after 3 attempts: Request timeout"), w'))
       /\ log w' = [Sent; Failed "Request timeout"; Timer 1000;
                    Sent; Failed "Request timeout"; Timer 2000;
                    Sent; Failed "Request timeout"]
       /\ requestsIn (log w') = 3%nat
       /\ fetched w' = 3%nat
       /\ totalTokensUsed w' = 0
       /\ requestCount w' = 0.
Proof.
  assert (H1 : String.eqb (getCurrentApiKey (config envOpenai)) "" = false)
    by reflexivity.
  assert (H2 : String.eqb (provider (config envOpenai)) "mock" = false)
    by reflexivity.
  assert (H3 : 1 <= maxRetries (config envOpenai)) by (simpl; lia).
  assert (H4 : (Z.to_nat (maxRetries (config envOpenai)) <= 10)%nat)
    by (simpl; lia).
  assert (H5 : forall k, netDown k = RequestFailed "Request timeout")
    by (intros k; reflexivity).
  refine (conj H1 (conj H2 (conj H3 (conj H4 (conj H5 _))))).
  destruct (callLLM_exhausts_retries 10 (config envOpenai) netDown
              (fun _ => "Request timeout") "hello" initialWorld H1 H2 H3 H4 H5)
    as (w' & Hcall & Hlog & Hreq & Hf & Ht & Hc).
  exists w'. rewrite Hlog. repeat split; assumption.
Defined.

End LlmSpec.

(** *** Sessions: history trimming and reads of missing sessions *)

Module ConversationFacts.
Import ConversationManager HistoryWindow.

Lemma keepLast_length {A} (n : nat) (l : list A) :
  length (keepLast n l) = Nat.min n (length l).
Proof. unfold keepLast. rewrite length_skipn. lia. Qed.

Lemma keepLast_short {A} (n : nat) (l : list A) :
  (length l <= n)%nat -> keepLast n l = l.
Proof.
  intros H. unfold keepLast. replace (length l - n)%nat with 0%nat by lia.
  reflexivity.
Qed.

Lemma skipn_app_le {A} (k : nat) (l r : list A) :
  (k <= length l)%nat -> skipn k (l ++ r) = skipn k l ++ r.
Proof.
  intros H. rewrite skipn_app. replace (k - length l)%nat with 0%nat by lia.
  reflexivity.
Qed.

(** Trimming, appending and trimming again is trimming the whole. *)
Lemma keepLast_app_keepLast {A} (n : nat) (l r : list A) :
  keepLast n (keepLast n l ++ r) = keepLast n (l ++ r).
Proof.
  unfold keepLast. rewrite !length_app, length_skipn.
  destruct (Nat.le_gt_cases (length l) n) as [Hle | Hgt].
  - replace (length l - n)%nat with 0%nat by lia. cbn [skipn].
    rewrite Nat.sub_0_r. reflexivity.
  - rewrite <- (skipn_app_le (length l - n) l r) by lia.
    rewrite skipn_skipn. f_equal. lia.
Qed.

(** With at least [n] new elements nothing of the old list survives. *)
Lemma keepLast_app_long {A} (n : nat) (l r : list A) :
  (n <= length r)%nat -> keepLast n (l ++ r) = keepLast n r.
Proof.
  intros H. unfold keepLast. rewrite length_app.
  replace (length l + length r - n)%nat with ((length r - n) + length l)%nat by lia.
  rewrite <- skipn_skipn.
  rewrite skipn_app, skipn_all, Nat.sub_diag. reflexivity.
Qed.

Lemma trimHistory_keepLast (cfg : Config) (messages : list Message.t) :
  0 <= maxHistoryLength cfg ->
  trimHistory cfg messages = keepLast (Z.to_nat (maxHistoryLength cfg)) messages.
Proof.
  intros Hmax. unfold trimHistory, keepLast, len.
  destruct (Z.of_nat (length messages) >? maxHistoryLength cfg) eqn:E.
  - f_equal. lia.
  - rewrite Z.gtb_ltb in E. apply Z.ltb_ge in E.
    replace (length messages - Z.to_nat (maxHistoryLength cfg))%nat with 0%nat by lia.
    reflexivity.
Qed.

(** A successful [addMessage] found a live session and stored it back with
    the new message appended and the history trimmed. *)
Lemma addMessage_success (cfg : Config) (now : Z) (messageId : string)
  (sessions sessions' : Sessions) (sessionId role content : string)
  (metadata : MetadataArg.t) (session' : Session.t) :
  addMessage cfg now messageId sessions sessionId role content metadata
    = (Normal session', sessions') ->
  exists session,
    sessions !! sessionId = Some session
    /\ isSessionExpired cfg now session = false
    /\ sessions' = <[sessionId := session']> sessions
    /\ Session.messages session' =
       trimHistory cfg (Session.messages session
                        ++ [buildMessage now messageId role content metadata]).
Proof.
  unfold addMessage, getSession. intros H.
  destruct (sessions !! sessionId) as [session|] eqn:Hlook; [|discriminate].
  destruct (isSessionExpired cfg now session) eqn:Hexp; [discriminate|].
  inversion H; subst. exists session. auto.
Qed.

(** After a run of successful calls the session holds the trimmed
    concatenation of what it held before and the new messages. *)
Lemma addMessages_history (cfg : Config) (sessionId : string) :
  0 <= maxHistoryLength cfg ->
  forall (calls : list AddCall.t) (sessions sessions' : Sessions) (session : Session.t),
    sessions !! sessionId = Some session ->
    addMessages cfg sessions sessionId calls = Normal sessions' ->
    exists session',
      sessions' !! sessionId = Some session'
      /\ keepLast (Z.to_nat (maxHistoryLength cfg)) (Session.messages session') =
         keepLast (Z.to_nat (maxHistoryLength cfg))
                  (Session.messages session ++ map messageOf calls)
      /\ (calls <> [] ->
          (length (Session.messages session') <= Z.to_nat (maxHistoryLength cfg))%nat).
Proof.
  intros Hmax. induction calls as [|call rest IH]; intros sessions sessions' session Hlook Hrun.
  - inversion Hrun; subst. exists session. rewrite app_nil_r.
    repeat split; [assumption | congruence].
  - cbn [addMessages] in Hrun.
    destruct (addMessage cfg (AddCall.now call) (AddCall.messageId call) sessions
                sessionId (AddCall.role call) (AddCall.content call)
                (AddCall.metadata call)) as [[s1 | e] sessions1] eqn:Hadd;
      [|discriminate].
    apply addMessage_success in Hadd as (s0 & Hlook0 & _ & -> & Hmsgs).
    rewrite Hlook in Hlook0. inversion Hlook0; subst s0.
    rewrite trimHistory_keepLast in Hmsgs by assumption.
    fold (messageOf call) in Hmsgs.
    destruct (IH _ _ s1 (lookup_insert_eq _ _ _) Hrun) as (s' & Hlook' & Hkeep & Hlen).
    exists s'. split; [assumption|]. split.
    + rewrite Hkeep, Hmsgs. cbn [map].
      rewrite keepLast_app_keepLast, <- app_assoc. reflexivity.
    + intros _. destruct rest as [|c rest'].
      * inversion Hrun; subst. rewrite lookup_insert_eq in Hlook'.
        inversion Hlook'; subst s'. rewrite Hmsgs, keepLast_length. lia.
      * apply Hlen. discriminate.
Qed.

End ConversationFacts.

Module ConversationSpec.
Import ConversationManager ConversationFacts HistoryWindow Samples.

Lemma addMessages_app (cfg : Config) (sessionId : string) (l1 l2 : list AddCall.t) :
  forall sessions,
    addMessages cfg sessions sessionId (l1 ++ l2) =
    match addMessages cfg sessions sessionId l1 with
    | Normal sessions1 => addMessages cfg sessions1 sessionId l2
    | Throw e => Throw e
    end.
Proof.
  induction l1 as [|call l1 IH]; intros sessions; [reflexivity|].
  cbn [app addMessages].
  destruct (addMessage cfg (AddCall.now call) (AddCall.messageId call) sessions
              sessionId (AddCall.role call) (AddCall.content call)
              (AddCall.metadata call)) as [[s1 | e] sessions1]; [apply IH | reflexivity].
Qed.

(** A run that succeeds has succeeded on each of its prefixes. *)
Lemma addMessages_prefix (cfg : Config) (sessionId : string) (calls : list AddCall.t)
  (sessions sessions' : Sessions) (k : nat) :
  addMessages cfg sessions sessionId calls = Normal sessions' ->
  exists sessions_k, addMessages cfg sessions sessionId (firstn k calls) = Normal sessions_k.
Proof.
  intros H. rewrite <- (firstn_skipn k calls), addMessages_app in H.
  destruct (addMessages cfg sessions sessionId (firstn k calls)) as [s|e];
    [now exists s | discriminate].
Qed.

(** The first call of a successful run found the session. *)
Lemma addMessages_session_exists (cfg : Config) (sessionId : string)
  (call : AddCall.t) (rest : list AddCall.t) (sessions sessions' : Sessions) :
  addMessages cfg sessions sessionId (call :: rest) = Normal sessions' ->
  exists session, sessions !! sessionId = Some session.
Proof.
  cbn [addMessages]. intros H.
  destruct (addMessage cfg (AddCall.now call) (AddCall.messageId call) sessions
              sessionId (AddCall.role call) (AddCall.content call)
              (AddCall.metadata call)) as [[s1 | e] sessions1] eqn:Hadd; [|discriminate].
  apply addMessage_success in Hadd as (s0 & Hlook & _). now exists s0.
Qed.

(** C5. After [n > 6] successful [addMessage] calls on a session, its
    message list is exactly the six most recently added messages, oldest
    first; and after each of the calls of the run the list has at most
    [maxHistoryLength = 6] messages. *)
Theorem addMessage_keeps_six_most_recent (sessions sessions' : Sessions)
  (sessionId : string) (calls : list AddCall.t) :
  (6 < length calls)%nat ->
  addMessages config sessions sessionId calls = Normal sessions' ->
  (exists session',
     sessions' !! sessionId = Some session'
     /\ Session.messages session' = skipn (length calls - 6) (map messageOf calls)
     /\ length (Session.messages session') = 6%nat)
  /\ (forall k, (1 <= k <= length calls)%nat ->
      exists sessions_k session_k,
        addMessages config sessions sessionId (firstn k calls) = Normal sessions_k
        /\ sessions_k !! sessionId = Some session_k
        /\ (length (Session.messages session_k) <= 6)%nat).
Proof.
  intros Hn Hrun.
  destruct calls as [|call rest] eqn:Ecalls; [simpl in Hn; lia|].
  destruct (addMessages_session_exists _ _ _ _ _ _ Hrun) as (s0 & Hlook).
  rewrite <- Ecalls in *.
  split.
  - destruct (addMessages_history config sessionId ltac:(simpl; lia) calls
                sessions sessions' s0 Hlook Hrun) as (s' & Hlook' & Hkeep & Hlen).
    change (Z.to_nat (maxHistoryLength config)) with 6%nat in *.
    specialize (Hlen ltac:(subst calls; discriminate)).
    rewrite (keepLast_short 6 (Session.messages s')) in Hkeep by assumption.
    rewrite keepLast_app_long in Hkeep by (rewrite length_map; lia).
    exists s'. split; [assumption|]. split.
    + rewrite Hkeep. unfold keepLast. now rewrite length_map.
    + rewrite Hkeep, keepLast_length, length_map. lia.
  - intros k Hk.
    destruct (addMessages_prefix config sessionId calls sessions sessions' k Hrun)
      as (sk & Hrunk).
    destruct (addMessages_history config sessionId ltac:(simpl; lia) (firstn k calls)
                sessions sk s0 Hlook Hrunk) as (s' & Hlook' & _ & Hlen).
    exists sk, s'. repeat split; try assumption.
    apply Hlen. intros Hnil. apply (f_equal (@length _)) in Hnil.
    rewrite length_firstn in Hnil. simpl in Hnil. lia.
Qed.

Lemma addMessage_keeps_six_most_recent_witness :
  (6 < length sampleCalls)%nat
  /\ addMessages config sampleSessions "s1" sampleCalls = Normal sampleSessionsAfter
  /\ (exists session',
        sampleSessionsAfter !! "s1"%string = Some session'
        /\ Session.messages session' = skipn (length sampleCalls - 6) (map messageOf sampleCalls)
        /\ length (Session.messages session') = 6%nat)
  /\ (forall k, (1 <= k <= length sampleCalls)%nat ->
      exists sessions_k session_k,
        addMessages config sampleSessions "s1" (firstn k sampleCalls) = Normal sessions_k
        /\ sessions_k !! "s1"%string = Some session_k
        /\ (length (Session.messages session_k) <= 6)%nat).
Proof.
  assert (H1 : (6 < length sampleCalls)%nat) by (simpl; lia).
  assert (H2 : addMessages config sampleSessions "s1" sampleCalls
               = Normal sampleSessionsAfter) by (vm_compute; reflexivity).
  exact (conj H1 (conj H2
    (addMessage_keeps_six_most_recent sampleSessions sampleSessionsAfter "s1"
       sampleCalls H1 H2))).
Defined.

(** C10. For a session id that is absent from the map, or whose session
    has expired, [getConversationHistory] returns the empty list (the
    function has no error path: it returns a list for every id), and the
    id is absent from the map afterwards. *)
Theorem getConversationHistory_missing_or_expired (sessions : Sessions)
  (now : Z) (sessionId : string) (limit : option Z) :
  (sessions !! sessionId = None
   \/ exists session, sessions !! sessionId = Some session
                      /\ isSessionExpired config now session = true) ->
  fst (getConversationHistory config now sessions sessionId limit) = []
  /\ snd (getConversationHistory config now sessions sessionId limit)
     = delete sessionId sessions
  /\ snd (getConversationHistory config now sessions sessionId limit) !! sessionId = None.
Proof.
  intros [Hnone | (session & Hsome & Hexp)];
    unfold getConversationHistory, getSession.
  - rewrite Hnone. cbn [fst snd]. rewrite delete_id by assumption.
    repeat split; assumption.
  - rewrite Hsome, Hexp. cbn [fst snd].
    repeat split. apply lookup_delete_eq.
Qed.

(** A session last active at time 0, read one millisecond after its
    timeout has passed. *)
Lemma getConversationHistory_missing_or_expired_witness :
  (sampleSessions !! "s1"%string = None
   \/ exists session, sampleSessions !! "s1"%string = Some session
                      /\ isSessionExpired config 3600001 session = true)
  /\ fst (getConversationHistory config 3600001 sampleSessions "s1" None) = []
  /\ snd (getConversationHistory config 3600001 sampleSessions "s1" None)
     = delete "s1"%string sampleSessions
  /\ snd (getConversationHistory config 3600001 sampleSessions "s1" None) !! "s1"%string
     = None.
Proof.
  assert (H : sampleSessions !! "s1"%string = None
              \/ exists session, sampleSessions !! "s1"%string = Some session
                                 /\ isSessionExpired config 3600001 session = true).
  { right. eexists. split; [vm_compute; reflexivity | reflexivity]. }
  exact (conj H
    (getConversationHistory_missing_or_expired sampleSessions 3600001 "s1" None H)).
Defined.

End ConversationSpec.

(** *** Chunking: coverage, word counts and chunk ids *)

Module ChunkingFacts.
Import DocumentManager DocumentProcessing JSFacts ChunkTextFacts.

(** The pieces that [split] returns do not contain the separator. *)
Lemma split_pieces (sep : ascii) (s : string) :
  Forall (fun w => hasChar sep w = false) (split sep s).
Proof.
  induction s as [|c s IH]; cbn [split]; [repeat constructor|].
  destruct (Ascii.eqb c sep) eqn:E.
  - constructor; [reflexivity | exact IH].
  - pose proof (split_nonempty sep s) as Hne.
    destruct (split sep s) as [|w ws]; [congruence|].
    inversion IH as [|? ? Hw Hws]; subst.
    constructor; [|exact Hws]. cbn [hasChar]. now rewrite E, Hw.
Qed.

Lemma split_word (sep : ascii) (w : string) :
  hasChar sep w = false -> split sep w = [w].
Proof.
  induction w as [|c w IH]; [reflexivity|].
  cbn [hasChar split]. intros H. apply orb_false_iff in H as [Hc Hw].
  rewrite Hc, (IH Hw). reflexivity.
Qed.

Lemma split_word_sep (sep : ascii) (w rest : string) :
  hasChar sep w = false ->
  split sep (w +:+ String sep rest) = w :: split sep rest.
Proof.
  induction w as [|c w IH]; intros H.
  - change (EmptyString +:+ String sep rest) with (String sep rest).
    cbn [split]. now rewrite Ascii.eqb_refl.
  - cbn [hasChar] in H. apply orb_false_iff in H as [Hc Hw].
    rewrite PromptFacts.append_cons. cbn [split]. rewrite Hc, (IH Hw). reflexivity.
Qed.

(** Splitting what was joined gives the words back, when there is at least
    one word and none contains the separator. *)
Lemma split_join (sep : ascii) (words : list string) :
  words <> [] ->
  Forall (fun w => hasChar sep w = false) words ->
  split sep (join (String sep EmptyString) words) = words.
Proof.
  unfold join. induction words as [|w ws IH]; [congruence|].
  intros _ Hall. inversion Hall as [|? ? Hw Hws]; subst.
  destruct ws as [|w' ws'].
  - cbn [String.concat]. now apply split_word.
  - change (String.concat (String sep EmptyString) (w :: w' :: ws'))
      with (w +:+ (String sep EmptyString
                   +:+ String.concat (String sep EmptyString) (w' :: ws'))).
    change (String sep EmptyString +:+ String.concat (String sep EmptyString) (w' :: ws'))
      with (String sep (String.concat (String sep EmptyString) (w' :: ws'))).
    rewrite (split_word_sep sep w _ Hw). f_equal. apply IH; [discriminate | exact Hws].
Qed.

Lemma Forall_skipn {A} (P : A -> Prop) (n : nat) (l : list A) :
  Forall P l -> Forall P (skipn n l).
Proof.
  intros H. apply List.Forall_forall. intros x Hin.
  rewrite List.Forall_forall in H. apply H.
  rewrite <- (firstn_skipn n l). apply in_or_app. now right.
Qed.

Lemma Forall_firstn {A} (P : A -> Prop) (n : nat) (l : list A) :
  Forall P l -> Forall P (firstn n l).
Proof.
  intros H. apply List.Forall_forall. intros x Hin.
  rewrite List.Forall_forall in H. apply H.
  rewrite <- (firstn_skipn n l). apply in_or_app. now left.
Qed.

(** A window that starts inside the word list. *)
Lemma slice_window {A} (l : list A) (i size : Z) :
  0 <= i < len l -> 0 < size ->
  slice l i (i + size) = firstn (Z.to_nat size) (skipn (Z.to_nat i) l)
  /\ len (slice l i (i + size)) = Z.min size (len l - i).
Proof.
  intros Hi Hs. unfold slice, relIndex.
  replace (i <? 0) with false by (symmetry; apply Z.ltb_ge; lia).
  replace (i + size <? 0) with false by (symmetry; apply Z.ltb_ge; lia).
  rewrite (Z.min_l i) by lia.
  assert (Heq : firstn (Z.to_nat (Z.min (i + size) (len l) - i)) (skipn (Z.to_nat i) l)
                = firstn (Z.to_nat size) (skipn (Z.to_nat i) l)).
  { destruct (Z.le_gt_cases (i + size) (len l)) as [Hle | Hgt].
    - rewrite Z.min_l by lia. f_equal. lia.
    - rewrite Z.min_r by lia.
      rewrite !firstn_all2; [reflexivity| |]; rewrite length_skipn; unfold len in *; lia. }
  rewrite Heq. split; [reflexivity|].
  unfold len in *. rewrite length_firstn, length_skipn. lia.
Qed.

(** The words of a window of a text, recounted from the chunk. *)
Lemma window_wordCount (text : string) (i size : Z) :
  0 <= i < len (split " " text) -> 0 < size ->
  split " " (join " " (slice (split " " text) i (i + size)))
  = slice (split " " text) i (i + size)
  /\ len (split " " (join " " (slice (split " " text) i (i + size))))
     = Z.min size (len (split " " text) - i).
Proof.
  intros Hi Hs.
  destruct (slice_window (split " " text) i size Hi Hs) as [Heq Hlen].
  assert (Hsplit : split " " (join " " (slice (split " " text) i (i + size)))
                   = slice (split " " text) i (i + size)).
  { apply split_join.
    - intros Hnil. rewrite Hnil in Hlen. unfold len in Hlen at 1. cbn in Hlen. lia.
    - rewrite Heq. apply Forall_firstn, Forall_skipn, split_pieces. }
  split; [exact Hsplit | now rewrite Hsplit].
Qed.

(** The loop with a stride of at least one: it returns the windows at 0,
    [stride], [2 * stride], ..., as many as [chunkCount] says. *)
Lemma chunkText_windows (text : string) (size overlap : Z) (fuel : nat) :
  0 <= overlap < size ->
  (length (split " " text) <= fuel)%nat ->
  chunkText fuel text size overlap
  = Some (windows (split " " text) size (size - overlap) 0
            (Z.to_nat (chunkCount size overlap (len (split " " text)))))
  /\ 1 <= chunkCount size overlap (len (split " " text))
  /\ (chunkCount size overlap (len (split " " text)) - 1) * (size - overlap)
     < len (split " " text)
  /\ len (split " " text)
     <= (chunkCount size overlap (len (split " " text)) - 1) * (size - overlap) + size
  /\ chunkCount size overlap (len (split " " text)) <= len (split " " text).
Proof.
  intros Hov Hfuel.
  set (words := split " " text) in *.
  pose proof (len_split_pos " " text) as Hpos. fold words in Hpos.
  set (w := len words) in *.
  set (stride := size - overlap).
  assert (Hstride : 0 < stride) by (unfold stride; lia).
  set (n := chunkCount size overlap w).
  assert (Hn : 1 <= n /\ (n - 1) * stride < w /\ w <= (n - 1) * stride + size
               /\ (n = 1 \/ (n - 2) * stride + size < w)).
  { unfold n, chunkCount. destruct (w <=? size) eqn:E.
    - apply Z.leb_le in E. lia.
    - apply Z.leb_gt in E. unfold ceilDiv. fold stride.
      pose proof (Z.div_mod (w - overlap + stride - 1) stride ltac:(lia)) as Hdm.
      pose proof (Z.mod_pos_bound (w - overlap + stride - 1) stride ltac:(lia)) as Hmb.
      assert (Hso : stride = size - overlap) by reflexivity.
      generalize dependent ((w - overlap + stride - 1) / stride).
      generalize dependent ((w - overlap + stride - 1) mod stride).
      intros r Hr q Hq. clearbody stride w.
      assert (H2 : stride * 2 <= stride * q + r) by lia.
      assert (H1 : 2 <= q).
      { destruct (Z.le_gt_cases 2 q) as [Hle | Hgt]; [exact Hle|].
        pose proof (Z.mul_le_mono_nonneg_l q 1 stride ltac:(lia) ltac:(lia)). lia. }
      assert (H3 : (q - 1) * stride = stride * q - stride) by ring.
      assert (H4 : (q - 2) * stride = stride * q - 2 * stride) by ring.
      split; [lia|]. split; [lia|]. split; [lia|]. right. lia. }
  destruct Hn as (Hn1 & Hlo & Hhi & Hprev).
  assert (Hnw : n <= w).
  { assert (n - 1 <= (n - 1) * stride) by nia. lia. }
  assert (Hlen : w = Z.of_nat (length words)) by reflexivity.
  split; [|repeat split; assumption].
  unfold chunkText. fold words.
  set (m := Z.to_nat (n - 1)).
  replace (Z.to_nat n) with (S m) by (unfold m; lia).
  assert (Hm : Z.of_nat m = n - 1) by (unfold m; lia).
  rewrite (chunkLoop_windows words size overlap m fuel 0 []); fold w; fold stride.
  - reflexivity.
  - lia.
  - intros k Hk.
    pose proof (Z.mul_le_mono_nonneg_r k (n - 1) stride ltac:(lia) ltac:(lia)). lia.
  - intros k Hk. destruct Hprev as [Hone | Hprev]; [lia|].
    pose proof (Z.mul_le_mono_nonneg_r k (n - 2) stride ltac:(lia) ltac:(lia)). lia.
  - rewrite Hm. lia.
Qed.

End ChunkingFacts.


Module DocumentFacts.
Import DocumentManager DocumentProcessing JSFacts ChunkTextFacts ChunkingFacts.

Lemma windows_nth (words : list string) (size stride i : Z) (n c : nat) (chunk : string) :
  nth_error (windows words size stride i n) c = Some chunk ->
  (c < n)%nat
  /\ chunk = join " " (slice words (i + Z.of_nat c * stride)
                             (i + Z.of_nat c * stride + size)).
Proof.
  unfold windows. intros H.
  assert (Hc : (c < n)%nat).
  { assert (Hlt : (c < length (map (fun k => join " "
                                     (slice words (i + Z.of_nat k * stride)
                                            (i + Z.of_nat k * stride + size)))
                                   (seq 0 n)))%nat)
      by (apply nth_error_Some; congruence).
    now rewrite length_map, length_seq in Hlt. }
  split; [exact Hc|].
  rewrite nth_error_map, nth_error_seq in H.
  replace (c <? n)%nat with true in H by (symmetry; apply Nat.ltb_lt; exact Hc).
  cbn in H. now inversion H.
Qed.

(** The entries of an array with their indices. *)
Lemma combine_seq_In {A} (l : list A) :
  forall (k c : nat) (y : A),
    In (c, y) (combine (seq k (length l)) l) ->
    (k <= c)%nat /\ nth_error l (c - k) = Some y.
Proof.
  induction l as [|x l IH]; intros k c y Hin; [destruct Hin|].
  cbn [length seq combine] in Hin. destruct Hin as [Heq | Hin].
  - inversion Heq; subst. rewrite Nat.sub_diag. now split.
  - apply IH in Hin as [Hk Hn]. split; [lia|].
    replace (c - k)%nat with (S (c - S k)) by lia. exact Hn.
Qed.

Lemma combine_seq_fst {A} (l : list A) (k : nat) :
  map fst (combine (seq k (length l)) l) = seq k (length l).
Proof.
  revert k. induction l as [|x l IH]; intros k; [reflexivity|].
  cbn [length seq combine map fst]. now rewrite IH.
Qed.

(** The decimal digits of a number contain no underscore. *)
Lemma digits_no_underscore (d : Decimal.uint) :
  hasChar "_" (NilEmpty.string_of_uint d) = false.
Proof. induction d; cbn [NilEmpty.string_of_uint hasChar]; try rewrite IHd; reflexivity. Qed.

Lemma showZ_of_nat (n : nat) :
  exists d, d <> Decimal.Nil /\ showZ (Z.of_nat n) = NilEmpty.string_of_uint d
            /\ Z.to_int (Z.of_nat n) = Decimal.Pos d.
Proof.
  unfold showZ. destruct (Z.of_nat n) as [|p|p] eqn:E; try lia.
  - exists (Decimal.D0 Decimal.Nil). repeat split. discriminate.
  - exists (Pos.to_uint p). cbn [Z.to_int NilZero.string_of_int].
    pose proof (DecimalPos.Unsigned.to_uint_nonnil p) as Hnn.
    split; [exact Hnn|]. split; [|reflexivity].
    unfold NilZero.string_of_uint. destruct (Pos.to_uint p); [congruence | reflexivity ..].
Qed.

Lemma showZ_no_underscore (n : nat) : hasChar "_" (showZ (Z.of_nat n)) = false.
Proof.
  destruct (showZ_of_nat n) as (d & _ & -> & _). apply digits_no_underscore.
Qed.

Lemma showZ_inj (n m : nat) : showZ (Z.of_nat n) = showZ (Z.of_nat m) -> n = m.
Proof.
  destruct (showZ_of_nat n) as (d & _ & -> & Hn).
  destruct (showZ_of_nat m) as (d' & _ & -> & Hm).
  intros H.
  assert (Hd : d = d').
  { pose proof (NilEmpty.usu d) as H1. pose proof (NilEmpty.usu d') as H2.
    rewrite H in H1. congruence. }
  subst d'. rewrite <- Hm in Hn. apply DecimalZ.to_int_inj in Hn. lia.
Qed.

Lemma append_inj_l (p s t : string) : p +:+ s = p +:+ t -> s = t.
Proof.
  induction p as [|c p IH]; [trivial|].
  rewrite !PromptFacts.append_cons. intros [= H]. now apply IH.
Qed.

(** Two texts that are cut at their first underscore. *)
Lemma cut_at_underscore (a a' r r' : string) :
  hasChar "_" a = false -> hasChar "_" a' = false ->
  a +:+ String "_" r = a' +:+ String "_" r' -> a = a' /\ r = r'.
Proof.
  revert a'. induction a as [|c a IH]; intros a' Ha Ha' H.
  - destruct a' as [|c' a'].
    + now inversion H.
    + rewrite PromptFacts.append_cons in H. cbn [hasChar] in Ha'.
      change (EmptyString +:+ String "_" r) with (String "_" r) in H.
      inversion H; subst c'. discriminate Ha'.
  - destruct a' as [|c' a'].
    + rewrite PromptFacts.append_cons in H. cbn [hasChar] in Ha.
      change (EmptyString +:+ String "_" r') with (String "_" r') in H.
      inversion H; subst c. discriminate Ha.
    + rewrite !PromptFacts.append_cons in H. inversion H; subst c'.
      cbn [hasChar] in Ha, Ha'.
      apply orb_false_iff in Ha as [_ Ha]. apply orb_false_iff in Ha' as [_ Ha'].
      destruct (IH a' Ha Ha' H2) as [-> ->]. now split.
Qed.

(** The id names the document and the chunk. *)
Lemma chunkId_inj (d c d' c' : nat) : chunkId d c = chunkId d' c' -> d = d' /\ c = c'.
Proof.
  unfold chunkId. intros H.
  apply (append_inj_l "doc_") in H.
  change ("_chunk_" +:+ showZ (Z.of_nat c))
    with (String "_" ("chunk_" +:+ showZ (Z.of_nat c))) in H.
  change ("_chunk_" +:+ showZ (Z.of_nat c'))
    with (String "_" ("chunk_" +:+ showZ (Z.of_nat c'))) in H.
  apply cut_at_underscore in H as [Hd Hc]; try apply showZ_no_underscore.
  apply showZ_inj in Hd. apply (append_inj_l "chunk_") in Hc. apply showZ_inj in Hc.
  now split.
Qed.

End DocumentFacts.


Module DocumentSteps.
Import DocumentManager DocumentProcessing JSFacts ChunkTextFacts ChunkingFacts DocumentFacts.

Lemma default_parameters : 0 <= chunkOverlap config < chunkSize config.
Proof. cbn. lia. Qed.

(** The chunks of one document. *)
Lemma document_chunks (fuel : nat) (doc : Document.t) (docIndex : nat) :
  (length (split " " (Document.content doc)) <= fuel)%nat ->
  exists textChunks,
    chunkTextDefault fuel (Document.content doc) = Some textChunks
    /\ len textChunks
       = chunkCount (chunkSize config) (chunkOverlap config)
                    (len (split " " (Document.content doc)))
    /\ (forall c chunk,
          In (c, chunk) (combine (seq 0 (length textChunks)) textChunks) ->
          Z.of_nat c < chunkCount (chunkSize config) (chunkOverlap config)
                                  (len (split " " (Document.content doc)))
          /\ makeChunk doc docIndex (c, chunk) = windowChunk doc docIndex c
          /\ 1 <= TextChunk.wordCount (makeChunk doc docIndex (c, chunk))
               <= chunkSize config).
Proof.
  intros Hfuel.
  destruct (chunkText_windows (Document.content doc) (chunkSize config)
              (chunkOverlap config) fuel default_parameters Hfuel)
    as (Hrun & Hn1 & Hlo & Hhi & Hnw).
  set (words := split " " (Document.content doc)) in *.
  set (n := chunkCount (chunkSize config) (chunkOverlap config) (len words)) in *.
  exists (windows words (chunkSize config) (chunkSize config - chunkOverlap config) 0
                  (Z.to_nat n)).
  split; [exact Hrun|]. split; [unfold len at 1; rewrite windows_length; lia|].
  intros c chunk Hin. apply combine_seq_In in Hin as [_ Hnth].
  rewrite Nat.sub_0_r in Hnth. apply windows_nth in Hnth as [Hc ->].
  rewrite Z.add_0_l.
  assert (Hstart : 0 <= Z.of_nat c * (chunkSize config - chunkOverlap config) < len words).
  { pose proof default_parameters.
    pose proof (Z.mul_le_mono_nonneg_r (Z.of_nat c) (n - 1)
                  (chunkSize config - chunkOverlap config) ltac:(lia) ltac:(lia)).
    split; [apply Z.mul_nonneg_nonneg; lia | lia]. }
  split; [lia|]. split; [reflexivity|].
  cbn [makeChunk TextChunk.wordCount].
  destruct (window_wordCount (Document.content doc)
              (Z.of_nat c * (chunkSize config - chunkOverlap config)) (chunkSize config)
              Hstart ltac:(cbn; lia)) as [_ Hcount].
  fold words in Hcount. rewrite Hcount. lia.
Qed.

Lemma place_makeChunk (doc : Document.t) (docIndex : nat) (entries : list (nat * string)) :
  map place (map (makeChunk doc docIndex) entries)
  = map (fun c => (Z.of_nat docIndex, Z.of_nat c)) (map fst entries).
Proof.
  rewrite !List.map_map. apply List.map_ext. now intros [c chunk].
Qed.

Lemma NoDup_places (docIndex k n : nat) :
  NoDup (map (fun c => (Z.of_nat docIndex, Z.of_nat c)) (seq k n)).
Proof.
  revert k. induction n as [|n IH]; intros k; cbn [seq map]; [constructor|].
  apply NoDup_cons. split; [|apply IH].
  intros Hin. apply list_elem_of_In, in_map_iff in Hin as (c & Heq & Hc).
  apply in_seq in Hc. inversion Heq. lia.
Qed.

(** The loop over the documents. *)
Lemma processFrom_spec (fuel : nat) :
  forall (documents : list Document.t) (base : nat) (chunks : list TextChunk.t),
    (longestDocument documents <= fuel)%nat ->
    exists new,
      processFrom fuel base documents chunks = Some (chunks ++ new)
      /\ Forall (chunkAt documents base) new
      /\ len new = totalChunks documents
      /\ NoDup (map place new)
      /\ Forall (fun chunk => Z.of_nat base <= TextChunk.documentIndex chunk) new.
Proof.
  induction documents as [|doc rest IH]; intros base chunks Hfuel.
  - exists []. cbn [processFrom]. rewrite app_nil_r.
    repeat split; constructor.
  - cbn [longestDocument fold_right] in Hfuel. fold (longestDocument rest) in Hfuel.
    destruct (document_chunks fuel doc base ltac:(lia))
      as (textChunks & Hrun & Hlen & Hentries).
    cbn [processFrom]. rewrite Hrun.
    set (entries := combine (seq 0 (length textChunks)) textChunks) in *.
    set (newHere := map (makeChunk doc base) entries).
    destruct (IH (S base) (chunks ++ newHere) ltac:(lia))
      as (newRest & Hrest & Hat & Hcount & Hnd & Hbase).
    exists (newHere ++ newRest).
    split; [now rewrite Hrest, app_assoc|].
    assert (HhereAt : Forall (chunkAt (doc :: rest) base) newHere).
    { apply List.Forall_forall. intros chunk Hin.
      apply in_map_iff in Hin as ([c text] & <- & Hin).
      destruct (Hentries c text Hin) as (Hc & Heq & Hwc).
      exists 0%nat, c, doc. rewrite Nat.add_0_r. now repeat split. }
    assert (HhereIdx : Forall (fun chunk => TextChunk.documentIndex chunk = Z.of_nat base)
                              newHere).
    { apply List.Forall_forall. intros chunk Hin.
      apply in_map_iff in Hin as ([c text] & <- & _). reflexivity. }
    split; [|split; [|split]].
    + apply Forall_app. split; [exact HhereAt|].
      apply List.Forall_forall. intros chunk Hin.
      rewrite List.Forall_forall in Hat.
      destruct (Hat chunk Hin) as (d & c & doc' & Hnth & Hc & Heq & Hwc).
      exists (S d), c, doc'. cbn [nth_error].
      replace (base + S d)%nat with (S base + d)%nat by lia. now repeat split.
    + change (totalChunks (doc :: rest))
        with (chunkCount (chunkSize config) (chunkOverlap config)
                         (len (split " " (Document.content doc)))
              + totalChunks rest).
      rewrite <- Hlen, <- Hcount. unfold len, newHere, entries.
      rewrite length_app, length_map, length_combine, length_seq. lia.
    + rewrite map_app. apply NoDup_app. split; [|split; [|exact Hnd]].
      * unfold newHere. rewrite place_makeChunk. unfold entries.
        rewrite combine_seq_fst. apply NoDup_places.
      * intros p Hp Hq.
        apply list_elem_of_In, in_map_iff in Hp as (a & <- & Ha).
        apply list_elem_of_In, in_map_iff in Hq as (b & Hb & Hbin).
        rewrite List.Forall_forall in HhereIdx, Hbase.
        specialize (HhereIdx a Ha). specialize (Hbase b Hbin).
        unfold place in Hb. inversion Hb. lia.
    + apply Forall_app. split.
      * eapply List.Forall_impl; [|exact HhereIdx]. cbn. intros a Ha. lia.
      * eapply List.Forall_impl; [|exact Hbase]. cbn. intros a Ha. lia.
Qed.

Lemma combine_seq_map {A} (f : nat -> A) (n : nat) :
  forall k : nat,
    combine (seq k n) (map f (seq k n)) = map (fun c => (c, f c)) (seq k n).
Proof.
  induction n as [|n IH]; intros k; cbn [seq map combine]; [reflexivity|].
  now rewrite IH.
Qed.

(** What one document adds to the chunk list: a chunk for each of its
    windows, in their order. *)
Lemma document_chunks_exact (fuel : nat) (doc : Document.t) (docIndex : nat) :
  (length (split " " (Document.content doc)) <= fuel)%nat ->
  exists textChunks,
    chunkTextDefault fuel (Document.content doc) = Some textChunks
    /\ map (makeChunk doc docIndex) (combine (seq 0 (length textChunks)) textChunks)
       = documentChunks doc docIndex.
Proof.
  intros Hfuel.
  destruct (chunkText_windows (Document.content doc) (chunkSize config)
              (chunkOverlap config) fuel default_parameters Hfuel) as (Hrun & _).
  eexists. split; [exact Hrun|].
  rewrite windows_length. unfold windows, documentChunks.
  rewrite combine_seq_map, List.map_map.
  apply List.map_ext. intros c. unfold windowChunk. now rewrite Z.add_0_l.
Qed.

(** The loop over the documents, exactly. *)
Lemma processFrom_exact (fuel : nat) :
  forall (documents : list Document.t) (base : nat) (chunks : list TextChunk.t),
    (longestDocument documents <= fuel)%nat ->
    processFrom fuel base documents chunks = Some (chunks ++ allChunks base documents).
Proof.
  induction documents as [|doc rest IH]; intros base chunks Hfuel;
    cbn [processFrom allChunks].
  - now rewrite app_nil_r.
  - cbn [longestDocument fold_right] in Hfuel. fold (longestDocument rest) in Hfuel.
    destruct (document_chunks_exact fuel doc base ltac:(lia)) as (textChunks & Hrun & Hmap).
    rewrite Hrun, Hmap, IH by lia. now rewrite app_assoc.
Qed.

(** Two chunks of the documents with the same id are at the same place. *)
Lemma chunkAt_id_place (documents : list Document.t) (a b : TextChunk.t) :
  chunkAt documents 0 a -> chunkAt documents 0 b ->
  TextChunk.id a = TextChunk.id b -> place a = place b.
Proof.
  intros (d & c & doc & _ & _ & -> & _) (d' & c' & doc' & _ & _ & -> & _).
  unfold windowChunk, makeChunk, place.
  cbn [TextChunk.id TextChunk.documentIndex TextChunk.chunkIndex].
  intros H. apply chunkId_inj in H as [Hd Hc]. now rewrite Hd, Hc.
Qed.

Lemma NoDup_map_finer {A B C} (f : A -> B) (g : A -> C) (l : list A) :
  (forall x y, In x l -> In y l -> g x = g y -> f x = f y) ->
  NoDup (map f l) -> NoDup (map g l).
Proof.
  induction l as [|x l IH]; intros Hfg Hnd; [constructor|].
  cbn [map] in *. apply NoDup_cons in Hnd as [Hx Hnd].
  apply NoDup_cons. split.
  - intros Hin. apply Hx.
    apply list_elem_of_In, in_map_iff in Hin as (y & Hy & Hyin).
    apply list_elem_of_In, in_map_iff. exists y. split; [|exact Hyin].
    apply Hfg; [now right | now left | exact Hy].
  - apply IH; [|exact Hnd]. intros a b Ha Hb. apply Hfg; now right.
Qed.

End DocumentSteps.

Module DocumentSpec.
Import DocumentManager DocumentProcessing JSFacts ChunkTextFacts ChunkingFacts
       DocumentFacts DocumentSteps Samples Scenarios.

(** X1. Chunking with an overlap that is at least zero and less than the
    window loses no word.  The call returns once it has as much fuel as
    the text has words; it returns [chunkCount] chunks; chunk number [k]
    is the window of [size] words that starts at word [k * (size -
    overlap)], so it has between one and [size] words; and every word of
    the text lies in some chunk. *)
Theorem chunkText_covers_every_word (text : string) (size overlap : Z) (fuel : nat) :
  0 <= overlap < size ->
  (length (split " " text) <= fuel)%nat ->
  exists chunks,
    chunkText fuel text size overlap = Some chunks
    /\ len chunks = chunkCount size overlap (len (split " " text))
    /\ (forall k chunk,
          nth_error chunks k = Some chunk ->
          split " " chunk
          = slice (split " " text) (Z.of_nat k * (size - overlap))
                  (Z.of_nat k * (size - overlap) + size)
          /\ 1 <= len (split " " chunk) <= size)
    /\ (forall j, 0 <= j < len (split " " text) ->
          exists k, 0 <= k < len chunks
                    /\ k * (size - overlap) <= j < k * (size - overlap) + size).
Proof.
  intros Hov Hfuel.
  destruct (chunkText_windows text size overlap fuel Hov Hfuel)
    as (Hrun & Hn1 & Hlo & Hhi & Hnw).
  set (words := split " " text) in *.
  set (n := chunkCount size overlap (len words)) in *.
  set (stride := size - overlap) in *.
  assert (Hstride : 0 < stride <= size) by (unfold stride; lia).
  exists (windows words size stride 0 (Z.to_nat n)).
  assert (Hlen : len (windows words size stride 0 (Z.to_nat n)) = n)
    by (unfold len; rewrite windows_length; lia).
  split; [exact Hrun|]. split; [exact Hlen|]. split.
  - intros k chunk Hnth. apply windows_nth in Hnth as [Hk ->]. rewrite Z.add_0_l.
    assert (Hstart : 0 <= Z.of_nat k * stride < len words).
    { pose proof (Z.mul_le_mono_nonneg_r (Z.of_nat k) (n - 1) stride
                    ltac:(lia) ltac:(lia)).
      split; [apply Z.mul_nonneg_nonneg; lia | lia]. }
    destruct (window_wordCount text (Z.of_nat k * stride) size Hstart ltac:(lia))
      as [Hsplit Hcount].
    fold words in Hsplit, Hcount. split; [exact Hsplit|]. rewrite Hcount. lia.
  - intros j Hj. rewrite Hlen.
    destruct (Z.le_gt_cases ((n - 1) * stride) j) as [Hlast | Hbefore].
    + exists (n - 1). lia.
    + exists (j / stride).
      pose proof (Z.div_mod j stride ltac:(lia)) as Hdm.
      pose proof (Z.mod_pos_bound j stride ltac:(lia)) as Hmb.
      assert (Hq0 : 0 <= j / stride) by (apply Z.div_pos; lia).
      assert (Hq1 : j / stride < n - 1).
      { apply Z.div_lt_upper_bound; [lia|]. rewrite Z.mul_comm. exact Hbefore. }
      rewrite (Z.mul_comm (j / stride) stride). lia.
Qed.

Lemma chunkText_covers_every_word_witness :
  0 <= 50 < 300
  /\ (length (split " " sampleText) <= 301)%nat
  /\ exists chunks,
       chunkText 301 sampleText 300 50 = Some chunks
       /\ len chunks = chunkCount 300 50 (len (split " " sampleText))
       /\ (forall k chunk,
             nth_error chunks k = Some chunk ->
             split " " chunk
             = slice (split " " sampleText) (Z.of_nat k * (300 - 50))
                     (Z.of_nat k * (300 - 50) + 300)
             /\ 1 <= len (split " " chunk) <= 300)
       /\ (forall j, 0 <= j < len (split " " sampleText) ->
             exists k, 0 <= k < len chunks
                       /\ k * (300 - 50) <= j < k * (300 - 50) + 300).
Proof.
  assert (H1 : 0 <= 50 < 300) by lia.
  assert (H2 : (length (split " " sampleText) <= 301)%nat)
    by (apply Nat.leb_le; vm_compute; reflexivity).
  exact (conj H1 (conj H2 (chunkText_covers_every_word sampleText 300 50 301 H1 H2))).
Defined.

(** X2. [processDocuments] returns once it has as much fuel as the longest
    document has words, and what it returns is, document after document in
    the order of the documents, the chunks of each document in the order
    of its windows: chunk number [c] of document number [d] for every [c]
    below [chunkCount], each once.  So there are as many chunks as
    [chunkCount] gives for the documents together; and every chunk carries
    the title and the index of its document, its number in the document,
    the id [doc_<document>_chunk_<number>] (in its metadata too), the
    words of its window, and a word count between 1 and 300 that is the
    number of words of its content. *)
Theorem processDocuments_chunks (fuel : nat) (documents : list Document.t) :
  (longestDocument documents <= fuel)%nat ->
  processDocuments fuel documents = Some (allChunks 0 documents)
  /\ len (allChunks 0 documents) = totalChunks documents
  /\ Forall (fun chunk =>
               exists (d c : nat) (doc : Document.t),
                 nth_error documents d = Some doc
                 /\ Z.of_nat c < chunkCount 300 50 (len (split " " (Document.content doc)))
                 /\ TextChunk.documentIndex chunk = Z.of_nat d
                 /\ TextChunk.chunkIndex chunk = Z.of_nat c
                 /\ TextChunk.id chunk = chunkId d c
                 /\ ChunkMetadata.chunkId (TextChunk.metadata chunk) = chunkId d c
                 /\ TextChunk.documentTitle chunk = Document.title doc
                 /\ TextChunk.content chunk
                    = join " " (slice (split " " (Document.content doc))
                                      (Z.of_nat c * 250) (Z.of_nat c * 250 + 300))
                 /\ TextChunk.wordCount chunk = len (split " " (TextChunk.content chunk))
                 /\ 1 <= TextChunk.wordCount chunk <= 300)
            (allChunks 0 documents).
Proof.
  intros Hfuel. unfold processDocuments.
  pose proof (processFrom_exact fuel documents 0 [] Hfuel) as Hexact.
  destruct (processFrom_spec fuel documents 0 [] Hfuel)
    as (new & Hrun & Hat & Hcount & _ & _).
  rewrite Hexact in Hrun. cbn [app] in Hrun, Hexact. inversion Hrun; subst new.
  split; [exact Hexact|]. split; [exact Hcount|].
  eapply List.Forall_impl; [|exact Hat].
  intros chunk (d & c & doc & Hnth & Hc & -> & Hwc).
  exists d, c, doc. cbn [Nat.add] in *. now repeat split.
Qed.

Lemma processDocuments_chunks_witness :
  (longestDocument sampleDocuments <= 301)%nat
  /\ processDocuments 301 sampleDocuments = Some (allChunks 0 sampleDocuments)
  /\ map place (allChunks 0 sampleDocuments) = [(0, 0); (1, 0); (1, 1)]
  /\ len (allChunks 0 sampleDocuments) = totalChunks sampleDocuments
  /\ Forall (fun chunk =>
               exists (d c : nat) (doc : Document.t),
                 nth_error sampleDocuments d = Some doc
                 /\ Z.of_nat c < chunkCount 300 50 (len (split " " (Document.content doc)))
                 /\ TextChunk.documentIndex chunk = Z.of_nat d
                 /\ TextChunk.chunkIndex chunk = Z.of_nat c
                 /\ TextChunk.id chunk = chunkId d c
                 /\ ChunkMetadata.chunkId (TextChunk.metadata chunk) = chunkId d c
                 /\ TextChunk.documentTitle chunk = Document.title doc
                 /\ TextChunk.content chunk
                    = join " " (slice (split " " (Document.content doc))
                                      (Z.of_nat c * 250) (Z.of_nat c * 250 + 300))
                 /\ TextChunk.wordCount chunk
                    = len (split " " (TextChunk.content chunk))
                 /\ 1 <= TextChunk.wordCount chunk <= 300)
            (allChunks 0 sampleDocuments).
Proof.
  assert (H : (longestDocument sampleDocuments <= 301)%nat)
    by (apply Nat.leb_le; vm_compute; reflexivity).
  assert (Hplaces : map place (allChunks 0 sampleDocuments) = [(0, 0); (1, 0); (1, 1)])
    by (vm_compute; reflexivity).
  destruct (processDocuments_chunks 301 sampleDocuments H) as (Hrun & Hcount & Hall).
  exact (conj H (conj Hrun (conj Hplaces (conj Hcount Hall)))).
Defined.

(** X3. The ids that [processDocuments] gives are unique: no two chunks of
    the list it returns have the same id. *)
Theorem processDocuments_ids_unique (fuel : nat) (documents : list Document.t)
  (chunks : list TextChunk.t) :
  (longestDocument documents <= fuel)%nat ->
  processDocuments fuel documents = Some chunks ->
  NoDup (map TextChunk.id chunks).
Proof.
  intros Hfuel Hrun. unfold processDocuments in Hrun.
  destruct (processFrom_spec fuel documents 0 [] Hfuel)
    as (new & Hnew & Hat & _ & Hnd & _).
  rewrite Hnew in Hrun. inversion Hrun; subst chunks. cbn [app].
  apply (NoDup_map_finer place TextChunk.id); [|exact Hnd].
  intros a b Ha Hb. rewrite List.Forall_forall in Hat.
  apply (chunkAt_id_place documents); auto.
Qed.

Lemma processDocuments_ids_unique_witness :
  (longestDocument sampleDocuments <= 301)%nat
  /\ processDocuments 301 sampleDocuments = Some sampleTextChunks
  /\ map TextChunk.id sampleTextChunks
     = ["doc_0_chunk_0"; "doc_1_chunk_0"; "doc_1_chunk_1"]%string
  /\ NoDup (map TextChunk.id sampleTextChunks).
Proof.
  assert (H1 : (longestDocument sampleDocuments <= 301)%nat)
    by (apply Nat.leb_le; vm_compute; reflexivity).
  assert (H2 : processDocuments 301 sampleDocuments = Some sampleTextChunks)
    by (vm_compute; reflexivity).
  assert (H3 : map TextChunk.id sampleTextChunks
               = ["doc_0_chunk_0"; "doc_1_chunk_0"; "doc_1_chunk_1"]%string)
    by (vm_compute; reflexivity).
  exact (conj H1 (conj H2 (conj H3
    (processDocuments_ids_unique 301 sampleDocuments sampleTextChunks H1 H2)))).
Defined.

End DocumentSpec.

(** *** Retrieval: what the pipeline hands to its caller *)

Module FloatNan.
Import FloatRank FloatOrder.

(** A double that is NaN is the NaN of the bit-level description. *)
Lemma nan_spec (x : float) : is_nan x = true -> Prim2SF x = S754_nan.
Proof.
  unfold is_nan. rewrite FloatAxioms.eqb_spec. intros H.
  pose proof (Prim2SF_valid x) as Hv.
  destruct (Prim2SF x) as [s | s | | s m e] eqn:E; try reflexivity;
    try (destruct s; discriminate H).
  exfalso. unfold SFeqb in H.
  pose proof (SFcompare_rank (S754_finite s m e) (S754_finite s m e) Hv Hv
                eq_refl eq_refl) as Hc.
  rewrite Hc, Z.compare_refl in H. discriminate H.
Qed.

(** Every comparison with NaN is false. *)
Lemma compare_nan (x y : float) :
  is_nan x = true \/ is_nan y = true ->
  (x <? y)%float = false /\ (x <=? y)%float = false /\ (x =? y)%float = false.
Proof.
  intros H. rewrite FloatAxioms.ltb_spec, FloatAxioms.leb_spec, FloatAxioms.eqb_spec.
  unfold SFltb, SFleb, SFeqb.
  destruct H as [H | H]; rewrite (nan_spec _ H).
  - repeat split; reflexivity.
  - destruct (Prim2SF x); repeat split; reflexivity.
Qed.

(** Two numbers are ordered one way or the other. *)
Lemma not_ltb_leb (x y : float) :
  is_nan x = false -> is_nan y = false ->
  (x <? y)%float = false <-> (y <=? x)%float = true.
Proof.
  intros Nx Ny. rewrite ltb_frank, leb_frank by assumption.
  rewrite Z.ltb_ge, Z.leb_le. reflexivity.
Qed.

End FloatNan.


Module RetrievalFacts.
Import RagPipeline LlmService Retrieval SearchFacts FloatNan.

Lemma formatContext_length (relevantChunks : list Scored.t) :
  length (formatContext relevantChunks) = length relevantChunks.
Proof.
  unfold formatContext. rewrite length_map, length_combine, length_seq. lia.
Qed.

Lemma formatContext_similarity (relevantChunks : list Scored.t) :
  map ContextEntry.similarity (formatContext relevantChunks)
  = map Scored.similarity relevantChunks.
Proof.
  unfold formatContext. rewrite List.map_map.
  generalize 0%nat as k.
  induction relevantChunks as [|r l IH]; intros k; [reflexivity|].
  cbn [length seq combine map]. f_equal. apply IH.
Qed.

(** What the search returns passed the threshold test and fits the cap. *)
Lemma similaritySearch_results (st : State) (q : list float) (results : list Scored.t) :
  0 <= maxRetrievedChunks st ->
  similaritySearch st q = Normal results ->
  len results <= maxRetrievedChunks st
  /\ Forall (fun r => (similarityThreshold st <=? Scored.similarity r)%float = true)
            results.
Proof.
  intros Hmax. unfold similaritySearch.
  destruct (scoreAll q (vectorStore st)) as [similarities | e]; [|discriminate].
  intros [= <-]. rewrite slice_firstn by exact Hmax. split.
  - unfold len. rewrite length_firstn. lia.
  - apply List.Forall_forall. intros r Hin. apply In_firstn in Hin.
    apply List.filter_In in Hin as [_ H]. exact H.
Qed.

(** With NaN as the threshold no entry passes the test. *)
Lemma similaritySearch_nan_threshold (st : State) (q : list float)
  (results : list Scored.t) :
  is_nan (similarityThreshold st) = true ->
  similaritySearch st q = Normal results -> results = [].
Proof.
  intros Hnan. unfold similaritySearch.
  destruct (scoreAll q (vectorStore st)) as [similarities | e]; [|discriminate].
  intros [= <-].
  assert (Hf : List.filter
                 (fun result => (similarityThreshold st <=? Scored.similarity result)%float)
                 (sort bySimilarityDesc similarities) = []).
  { induction (sort bySimilarityDesc similarities) as [|r l IH]; [reflexivity|].
    cbn [List.filter].
    destruct (compare_nan (similarityThreshold st) (Scored.similarity r)
                (or_introl Hnan)) as (_ & -> & _).
    exact IH. }
  rewrite Hf. unfold slice. now rewrite skipn_nil, firstn_nil.
Qed.

Lemma applySetter_tuned (st : State) (call : Setter) :
  tuned st -> tuned (applySetter st call) /\ vectorStore (applySetter st call) = vectorStore st.
Proof.
  intros [Hmax Hthr]. destruct call as [threshold | maxChunks]; cbn [applySetter].
  - unfold setSimilarityThreshold.
    destruct ((threshold <? 0)%float || (1 <? threshold)%float) eqn:E;
      [split; [now split | reflexivity]|].
    apply orb_false_iff in E as [E0 E1].
    split; [|reflexivity]. split; [exact Hmax|].
    cbn [similarityThreshold].
    destruct (is_nan threshold) eqn:N; [now left|]. right.
    split; apply not_ltb_leb; try assumption; reflexivity.
  - unfold setMaxRetrievedChunks.
    destruct ((maxChunks <? 1) || (10 <? maxChunks)) eqn:E;
      [split; [now split | reflexivity]|].
    apply orb_false_iff in E as [E0 E1].
    apply Z.ltb_ge in E0, E1.
    split; [|reflexivity]. split; [cbn [maxRetrievedChunks]; lia | exact Hthr].
Qed.

(** The two kinds of result: with context, one score per entry and at
    least one entry; without, neither entries nor scores. *)
Lemma retrieveContext_cases (env : Env) (st : State) (queryEmbedding : list float)
  (query : string) :
  (RetrievalResult.hasContext (retrieveContext env st queryEmbedding query) = true ->
     RetrievalResult.context (retrieveContext env st queryEmbedding query) <> []
     /\ map ContextEntry.similarity
            (RetrievalResult.context (retrieveContext env st queryEmbedding query))
        = RetrievalResult.similarityScores (retrieveContext env st queryEmbedding query))
  /\ (RetrievalResult.hasContext (retrieveContext env st queryEmbedding query) = false ->
      RetrievalResult.context (retrieveContext env st queryEmbedding query) = []
      /\ RetrievalResult.similarityScores (retrieveContext env st queryEmbedding query) = []).
Proof.
  unfold retrieveContext.
  destruct (similaritySearch st queryEmbedding) as [relevantChunks | e];
    [|split; [discriminate | now split]].
  destruct (len relevantChunks =? 0) eqn:Hzero.
  - destruct (match LLM_PROVIDER env with
              | Some name => String.eqb name "mock"
              | None => false
              end); (split; [discriminate | now split]).
  - apply Z.eqb_neq in Hzero. split; [|discriminate].
    intros _. cbn [RetrievalResult.context RetrievalResult.similarityScores].
    split; [|apply formatContext_similarity].
    intros Hnil. apply (f_equal (@length _)) in Hnil.
    rewrite formatContext_length in Hnil. unfold len in Hzero. cbn in Hnil. lia.
Qed.

Lemma prefix_append (key rest : string) : String.prefix key (key +:+ rest) = true.
Proof.
  induction key as [|c key IH]; [now destruct rest|].
  rewrite PromptFacts.append_cons. cbn [String.prefix].
  destruct (ascii_dec c c) as [_ | Hne]; [exact IH | congruence].
Qed.

Lemma includes_prefix (s key : string) :
  String.prefix key s = true -> includes s key = true.
Proof. intros H. destruct s; cbn [includes]; now rewrite H. Qed.

(** The quoted fallback text starts with the sentence that the route
    looks for. *)
Lemma noContextPrompt_includes (userQuery : string) :
  includes (noContextPrompt userQuery) "I don't have enough information" = true.
Proof.
  apply includes_prefix.
  change (noContextPrompt userQuery)
    with ("I don't have enough information"
          +:+ (" in my knowledge base to answer: " +:+ dq
               +:+ userQuery +:+ dq
               +:+ ". Please try rephrasing your question or contact support for more specific assistance.")).
  apply prefix_append.
Qed.

(** Without context the pipeline returns the reply itself as the prompt:
    the answer of the mock table when the provider variable says [mock],
    and the quoted fallback text otherwise. *)
Lemma processQuery_without_context (env : Env) (st : State) (q : list float)
  (userQuery : string) (history : list Msg.t) :
  RetrievalResult.hasContext (retrieveContext env st q userQuery) = false ->
  QueryResult.retrievedChunks (processQuery env st q userQuery history) = 0
  /\ match QueryResult.mockResponse (processQuery env st q userQuery history) with
     | Some (String c rest) =>
         LLM_PROVIDER env = Some "mock"%string
         /\ String c rest = generateMockResponse userQuery
         /\ QueryResult.prompt (processQuery env st q userQuery history)
            = generateMockResponse userQuery
     | _ =>
         QueryResult.prompt (processQuery env st q userQuery history)
         = noContextPrompt userQuery
     end.
Proof.
  intros Hctx.
  destruct (retrieveContext_cases env st q userQuery) as [_ Hno].
  destruct (Hno Hctx) as (Hc & Hs).
  unfold processQuery.
  cbn [QueryResult.retrievedChunks QueryResult.mockResponse QueryResult.prompt].
  rewrite Hctx, Hc. split; [reflexivity|].
  destruct (RetrievalResult.mockResponse (retrieveContext env st q userQuery))
    as [[|c rest]|] eqn:Hmock; try reflexivity.
  unfold retrieveContext in Hmock.
  destruct (similaritySearch st q) as [relevantChunks | e]; [|discriminate].
  destruct (len relevantChunks =? 0); [|discriminate].
  destruct (LLM_PROVIDER env) as [name|]; [|discriminate].
  destruct (String.eqb name "mock") eqn:Hname; [|discriminate].
  apply String.eqb_eq in Hname. subst name.
  cbn in Hmock. inversion Hmock as [Heq]. now repeat split.
Qed.

End RetrievalFacts.


Module RetrievalSpec.
Import RagPipeline LlmService Retrieval SearchFacts FloatNan RetrievalFacts Text Samples.

(** X4. [retrieveContext] turns the exception of the search into a result: if
    some entry of the store has another dimension than the query
    embedding, it reports no context with the error message, for every
    provider setting and without a mock response. *)
Theorem retrieveContext_absorbs_dimension_mismatch (env : Env) (st : State)
  (queryEmbedding : list float) (query : string) :
  List.Exists (fun c => length queryEmbedding <> length (Chunk.embedding c))
              (vectorStore st) ->
  retrieveContext env st queryEmbedding query =
  {| RetrievalResult.hasContext := false;
     RetrievalResult.context := [];
     RetrievalResult.message := "An error occurred while searching for information.";
     RetrievalResult.similarityScores := [];
     RetrievalResult.mockResponse := None |}.
Proof.
  intros Hex. unfold retrieveContext, similaritySearch.
  now rewrite (scoreAll_throws _ _ Hex).
Qed.

Lemma retrieveContext_absorbs_dimension_mismatch_witness :
  List.Exists (fun c => length [1; 0; 0]%float <> length (Chunk.embedding c))
              (vectorStore sampleState)
  /\ retrieveContext envMock sampleState [1; 0; 0]%float "hello" =
     {| RetrievalResult.hasContext := false;
        RetrievalResult.context := [];
        RetrievalResult.message := "An error occurred while searching for information.";
        RetrievalResult.similarityScores := [];
        RetrievalResult.mockResponse := None |}.
Proof.
  assert (H : List.Exists (fun c => length [1; 0; 0]%float <> length (Chunk.embedding c))
                          (vectorStore sampleState))
    by (apply List.Exists_cons_hd; cbn; lia).
  exact (conj H
    (retrieveContext_absorbs_dimension_mismatch envMock sampleState [1; 0; 0]%float
       "hello" H)).
Defined.

(** X5. The shape of what [retrieveContext] returns.  With the cap at zero or
    more: a result with context has between one and [maxRetrievedChunks]
    entries, numbered 1, 2, ... in their order, one score per entry, each
    score at or above the threshold, and no mock response; a result
    without context has no entries and no scores. *)
Theorem retrieveContext_shape (env : Env) (st : State) (queryEmbedding : list float)
  (query : string) :
  0 <= maxRetrievedChunks st ->
  (RetrievalResult.hasContext (retrieveContext env st queryEmbedding query) = true ->
     1 <= len (RetrievalResult.context (retrieveContext env st queryEmbedding query))
       <= maxRetrievedChunks st
     /\ map ContextEntry.similarity
            (RetrievalResult.context (retrieveContext env st queryEmbedding query))
        = RetrievalResult.similarityScores (retrieveContext env st queryEmbedding query)
     /\ (forall i entry,
           nth_error (RetrievalResult.context
                        (retrieveContext env st queryEmbedding query)) i = Some entry ->
           ContextEntry.order entry = Z.of_nat i + 1)
     /\ Forall (fun score => (similarityThreshold st <=? score)%float = true)
               (RetrievalResult.similarityScores
                  (retrieveContext env st queryEmbedding query))
     /\ RetrievalResult.message (retrieveContext env st queryEmbedding query)
        = "Found "
          +:+ showZ (len (RetrievalResult.context
                            (retrieveContext env st queryEmbedding query)))
          +:+ " relevant documents."
     /\ RetrievalResult.mockResponse (retrieveContext env st queryEmbedding query) = None)
  /\ (RetrievalResult.hasContext (retrieveContext env st queryEmbedding query) = false ->
      RetrievalResult.context (retrieveContext env st queryEmbedding query) = []
      /\ RetrievalResult.similarityScores (retrieveContext env st queryEmbedding query) = []).
Proof.
  intros Hmax. unfold retrieveContext.
  destruct (similaritySearch st queryEmbedding) as [relevantChunks | e] eqn:Hsearch;
    [|split; [discriminate | now split]].
  destruct (similaritySearch_results st queryEmbedding relevantChunks Hmax Hsearch)
    as [Hlen Hall].
  destruct (len relevantChunks =? 0) eqn:Hzero.
  - destruct (match LLM_PROVIDER env with
              | Some name => String.eqb name "mock"
              | None => false
              end); (split; [discriminate | now split]).
  - apply Z.eqb_neq in Hzero. split; [|discriminate].
    intros _. cbn [RetrievalResult.context RetrievalResult.similarityScores
                   RetrievalResult.message RetrievalResult.mockResponse].
    assert (Hl : len (formatContext relevantChunks) = len relevantChunks)
      by (unfold len; now rewrite formatContext_length).
    rewrite Hl. pose proof (JSFacts.len_nonneg relevantChunks).
    split; [lia|]. split; [apply formatContext_similarity|].
    split; [intros i entry; apply PromptFacts.formatContext_order|].
    split; [|now split].
    apply Forall_map. exact Hall.
Qed.

Lemma retrieveContext_shape_witness :
  0 <= maxRetrievedChunks sampleState
  /\ (RetrievalResult.hasContext (retrieveContext noEnv sampleState sampleQuery "q") = true ->
        1 <= len (RetrievalResult.context (retrieveContext noEnv sampleState sampleQuery "q"))
          <= maxRetrievedChunks sampleState
        /\ map ContextEntry.similarity
               (RetrievalResult.context (retrieveContext noEnv sampleState sampleQuery "q"))
           = RetrievalResult.similarityScores
               (retrieveContext noEnv sampleState sampleQuery "q")
        /\ (forall i entry,
              nth_error (RetrievalResult.context
                           (retrieveContext noEnv sampleState sampleQuery "q")) i
                = Some entry ->
              ContextEntry.order entry = Z.of_nat i + 1)
        /\ Forall (fun score => (similarityThreshold sampleState <=? score)%float = true)
                  (RetrievalResult.similarityScores
                     (retrieveContext noEnv sampleState sampleQuery "q"))
        /\ RetrievalResult.message (retrieveContext noEnv sampleState sampleQuery "q")
           = "Found "
             +:+ showZ (len (RetrievalResult.context
                               (retrieveContext noEnv sampleState sampleQuery "q")))
             +:+ " relevant documents."
        /\ RetrievalResult.mockResponse (retrieveContext noEnv sampleState sampleQuery "q")
           = None)
  /\ (RetrievalResult.hasContext (retrieveContext noEnv sampleState sampleQuery "q") = false ->
      RetrievalResult.context (retrieveContext noEnv sampleState sampleQuery "q") = []
      /\ RetrievalResult.similarityScores
           (retrieveContext noEnv sampleState sampleQuery "q") = []).
Proof.
  assert (H : 0 <= maxRetrievedChunks sampleState) by (cbn; lia).
  exact (conj H (retrieveContext_shape noEnv sampleState sampleQuery "q" H)).
Defined.

(** X6. What [processQuery] hands to the route.  It reports as many retrieved
    chunks as it returns context entries and scores.  With context the
    prompt is the one [constructPrompt] builds from the query, the
    context and the history.  Without context the prompt is no prompt but
    the reply itself: the mock response when there is one, which is only
    when the provider variable says [mock], and is the answer of the mock
    table for a query of ASCII text that the table answers; and otherwise
    the sentence that starts with [I don't have enough information] and
    quotes the query. *)
Theorem processQuery_prompt (env : Env) (st : State) (queryEmbedding : list float)
  (userQuery : string) (conversationHistory : list Msg.t) :
  QueryResult.success (processQuery env st queryEmbedding userQuery conversationHistory)
    = true
  /\ QueryResult.retrievedChunks
       (processQuery env st queryEmbedding userQuery conversationHistory)
     = len (QueryResult.context
              (processQuery env st queryEmbedding userQuery conversationHistory))
  /\ len (QueryResult.similarityScores
            (processQuery env st queryEmbedding userQuery conversationHistory))
     = len (QueryResult.context
              (processQuery env st queryEmbedding userQuery conversationHistory))
  /\ (QueryResult.hasContext
        (processQuery env st queryEmbedding userQuery conversationHistory) = true ->
      QueryResult.context
        (processQuery env st queryEmbedding userQuery conversationHistory) <> []
      /\ QueryResult.prompt
           (processQuery env st queryEmbedding userQuery conversationHistory)
         = constructPrompt userQuery
             (Some (QueryResult.context
                      (processQuery env st queryEmbedding userQuery conversationHistory)))
             conversationHistory)
  /\ (QueryResult.hasContext
        (processQuery env st queryEmbedding userQuery conversationHistory) = false ->
      QueryResult.retrievedChunks
        (processQuery env st queryEmbedding userQuery conversationHistory) = 0
      /\ match QueryResult.mockResponse
                 (processQuery env st queryEmbedding userQuery conversationHistory) with
         | Some (String c rest) =>
             LLM_PROVIDER env = Some "mock"%string
             /\ QueryResult.prompt
                  (processQuery env st queryEmbedding userQuery conversationHistory)
                = String c rest
             /\ (plainPrompt userQuery -> String c rest = generateMockResponse userQuery)
         | _ =>
             QueryResult.prompt
               (processQuery env st queryEmbedding userQuery conversationHistory)
             = noContextPrompt userQuery
             /\ includes (QueryResult.prompt
                            (processQuery env st queryEmbedding userQuery
                                          conversationHistory))
                         "I don't have enough information" = true
         end).
Proof.
  destruct (retrieveContext_cases env st queryEmbedding userQuery) as [Hyes Hno].
  unfold processQuery.
  cbn [QueryResult.success QueryResult.retrievedChunks QueryResult.context
       QueryResult.similarityScores QueryResult.hasContext QueryResult.prompt
       QueryResult.mockResponse].
  split; [reflexivity|]. split; [reflexivity|].
  destruct (RetrievalResult.hasContext (retrieveContext env st queryEmbedding userQuery))
    eqn:Hctx.
  - destruct (Hyes eq_refl) as (Hne & Hsim).
    split; [rewrite <- Hsim; unfold len; now rewrite length_map|].
    split; [|discriminate]. intros _. split; [exact Hne | reflexivity].
  - destruct (Hno eq_refl) as (Hc & Hs). rewrite Hc, Hs.
    split; [reflexivity|]. split; [discriminate|]. intros _. split; [reflexivity|].
    destruct (processQuery_without_context env st queryEmbedding userQuery
                conversationHistory Hctx) as [_ Hcase].
    unfold processQuery in Hcase.
    cbn [QueryResult.mockResponse QueryResult.prompt] in Hcase.
    rewrite Hctx in Hcase.
    destruct (RetrievalResult.mockResponse
                (retrieveContext env st queryEmbedding userQuery))
      as [[|c rest]|];
      [split; [reflexivity | apply noContextPrompt_includes]
      | | split; [reflexivity | apply noContextPrompt_includes]].
    destruct Hcase as (Hprovider & Heq & _).
    split; [exact Hprovider|]. split; [reflexivity|]. intros _. exact Heq.
Qed.

(** X7. [setSimilarityThreshold] accepts a threshold exactly when it is
    neither below 0 nor above 1.  That lets every number from 0 to 1
    through, and NaN as well; and with NaN as the threshold the search
    returns no entry, whatever the store and the query are. *)
Theorem setSimilarityThreshold_accepts (st : State) (threshold : float) :
  (setSimilarityThreshold st threshold
   = Normal {| vectorStore := vectorStore st;
               similarityThreshold := threshold;
               maxRetrievedChunks := maxRetrievedChunks st |}
   <-> is_nan threshold = true
       \/ ((0 <=? threshold)%float = true /\ (threshold <=? 1)%float = true))
  /\ (setSimilarityThreshold st threshold
      = Throw (mkError "Threshold must be between 0 and 1")
      <-> (threshold <? 0)%float = true \/ (1 <? threshold)%float = true)
  /\ (is_nan threshold = true ->
      forall st' queryEmbedding results,
        setSimilarityThreshold st threshold = Normal st' ->
        similaritySearch st' queryEmbedding = Normal results ->
        results = []).
Proof.
  assert (N0 : is_nan 0 = false) by reflexivity.
  assert (N1 : is_nan 1 = false) by reflexivity.
  unfold setSimilarityThreshold.
  destruct (is_nan threshold) eqn:N.
  - destruct (compare_nan threshold 0 (or_introl N)) as (-> & _ & _).
    destruct (compare_nan 1 threshold (or_intror N)) as (-> & _ & _).
    cbn [orb]. split; [split; [now left | reflexivity]|].
    split; [split; [discriminate | intros [H | H]; discriminate]|].
    intros _ st' q results [= <-] Hsearch.
    exact (similaritySearch_nan_threshold
             {| vectorStore := vectorStore st; similarityThreshold := threshold;
                maxRetrievedChunks := maxRetrievedChunks st |} q results N Hsearch).
  - pose proof (not_ltb_leb threshold 0 N N0) as H0.
    pose proof (not_ltb_leb 1 threshold N1 N) as H1.
    split; [|split; [|discriminate]].
    + destruct (threshold <? 0)%float eqn:E0; cbn [orb].
      * split; [discriminate|]. intros [H | [Ha _]]; [discriminate|].
        rewrite <- H0 in Ha. discriminate.
      * destruct (1 <? threshold)%float eqn:E1.
        -- split; [discriminate|]. intros [H | [_ Hb]]; [discriminate|].
           rewrite <- H1 in Hb. discriminate.
        -- split; [|reflexivity]. intros _. right. split; [now apply H0 | now apply H1].
    + destruct (threshold <? 0)%float eqn:E0; cbn [orb].
      * split; [now left | reflexivity].
      * destruct (1 <? threshold)%float eqn:E1.
        -- split; [now right | reflexivity].
        -- split; [discriminate | intros [H | H]; discriminate].
Qed.

(** X8. The setters keep the tuning in range: after any sequence of setter
    calls, with whatever arguments, on a pipeline whose tuning is in range
    (as the initial one is), the cap is between 1 and 10, the threshold is
    between 0 and 1 or NaN, and the store is the same; so a search never
    returns more than ten entries. *)
Theorem setters_keep_tuning_in_range (st : State) (calls : list Setter) :
  tuned st ->
  tuned (applySetters st calls)
  /\ vectorStore (applySetters st calls) = vectorStore st
  /\ (forall queryEmbedding results,
        similaritySearch (applySetters st calls) queryEmbedding = Normal results ->
        len results <= 10).
Proof.
  intros Ht.
  assert (H : tuned (applySetters st calls)
              /\ vectorStore (applySetters st calls) = vectorStore st).
  { unfold applySetters. revert st Ht.
    induction calls as [|call rest IH]; intros st Ht; [now split|].
    cbn [fold_left]. destruct (applySetter_tuned st call Ht) as [Ht' Hv].
    destruct (IH _ Ht') as [Hr Hs]. split; [exact Hr | congruence]. }
  destruct H as [Hr Hs]. split; [exact Hr|]. split; [exact Hs|].
  intros q results Hsearch. destruct Hr as [Hmax _].
  assert (H0 : 0 <= maxRetrievedChunks (applySetters st calls)) by lia.
  destruct (similaritySearch_results _ q results H0 Hsearch) as [Hlen _]. lia.
Qed.

Lemma setters_keep_tuning_in_range_witness :
  tuned initialState
  /\ tuned (applySetters initialState
              [SetMaxRetrievedChunks 0; SetSimilarityThreshold 1.5%float;
               SetMaxRetrievedChunks 10; SetSimilarityThreshold nan])
  /\ vectorStore (applySetters initialState
              [SetMaxRetrievedChunks 0; SetSimilarityThreshold 1.5%float;
               SetMaxRetrievedChunks 10; SetSimilarityThreshold nan])
     = vectorStore initialState
  /\ (forall queryEmbedding results,
        similaritySearch (applySetters initialState
              [SetMaxRetrievedChunks 0; SetSimilarityThreshold 1.5%float;
               SetMaxRetrievedChunks 10; SetSimilarityThreshold nan]) queryEmbedding
          = Normal results ->
        len results <= 10).
Proof.
  assert (H : tuned initialState).
  { split; [cbn; lia|]. right. split; reflexivity. }
  exact (conj H (setters_keep_tuning_in_range initialState _ H)).
Defined.

End RetrievalSpec.

(** *** The gateway under any behaviour of the provider *)

Module LlmRetryFacts.
Import LlmService LlmTrace LlmRequests LlmRetryTrace LlmFacts.

Lemma makeAPICall_mock (cfg : Config) (net : Network) (prompt : string) (w : World) :
  String.eqb (provider cfg) "mock" = true ->
  makeAPICall cfg net prompt w =
  (Normal (Fulfilled {| Response.content := generateMockResponse prompt;
                        Response.tokensUsed := 0;
                        Response.model := "mock-model";
                        Response.provider := "mock";
                        Response.fallback := false |}),
   logEvents w [Timer 500]).
Proof. intros H. unfold makeAPICall. now rewrite H. Qed.

(** Failing attempts that are retried, followed by an attempt that succeeds. *)
Lemma tryCall_recovers (cfg : Config) (net : Network) (errs : nat -> string)
  (prompt text : string) (tokens : Z) :
  String.eqb (provider cfg) "mock" = false ->
  supportedProvider cfg = true ->
  forall (n fuel : nat) (attempt : Z) (w : World),
    (n < fuel)%nat ->
    (n = 0%nat \/ attempt + Z.of_nat n <= maxRetries cfg) ->
    (forall k, (k < n)%nat -> net (fetched w + k)%nat = RequestFailed (errs (fetched w + k)%nat)) ->
    net (fetched w + n)%nat = ResponseOk text tokens ->
    tryCall fuel cfg net prompt attempt w =
    Some (Fulfilled {| Response.content := text; Response.tokensUsed := tokens;
                       Response.model := getCurrentModel cfg;
                       Response.provider := provider cfg;
                       Response.fallback := false |},
          {| totalTokensUsed := totalTokensUsed w + tokens;
             requestCount := requestCount w + 2;
             fetched := fetched w + S n;
             log := log w ++ retryLog (retryDelay cfg) errs attempt (fetched w) n
                          ++ [Sent; Succeeded] |}).
Proof.
  intros Hmock Hsup.
  induction n as [|n IH]; intros fuel attempt w Hfuel Hatt Hfail Hok.
  - destruct fuel as [|fuel]; [lia|]. cbn [tryCall].
    rewrite Nat.add_0_r in Hok.
    rewrite (makeAPICall_ok _ _ _ _ text tokens Hmock Hsup Hok).
    cbn [totalTokensUsed requestCount fetched log retryLog app].
    replace (requestCount w + 1 + 1) with (requestCount w + 2) by lia.
    replace (S (fetched w)) with (fetched w + 1)%nat by lia. reflexivity.
  - destruct fuel as [|fuel]; [lia|]. cbn [tryCall].
    destruct Hatt as [Hz | Hatt]; [discriminate|].
    pose proof (Hfail 0%nat ltac:(lia)) as H0. rewrite Nat.add_0_r in H0.
    rewrite (makeAPICall_failed _ _ _ _ _ Hmock Hsup H0).
    replace (attempt >=? maxRetries cfg) with false
      by (symmetry; rewrite Z.geb_leb; apply Z.leb_gt; lia).
    rewrite (IH fuel (attempt + 1)).
    + cbn [logEvents fetched log totalTokensUsed requestCount retryLog].
      replace (S (fetched w) + S n)%nat with (fetched w + S (S n))%nat by lia.
      rewrite <- !app_assoc. reflexivity.
    + lia.
    + right. lia.
    + intros k Hk. cbn [logEvents fetched].
      replace (S (fetched w) + k)%nat with (fetched w + S k)%nat by lia.
      apply Hfail. lia.
    + cbn [logEvents fetched].
      replace (S (fetched w) + n)%nat with (fetched w + S n)%nat by lia. exact Hok.
Qed.

Lemma waited_app (l r : list Event) : waited (l ++ r) = waited l + waited r.
Proof.
  unfold waited. induction l as [|ev l IH]; cbn [app fold_right]; [lia|].
  rewrite IH. destruct ev; lia.
Qed.

(** The timers of [n] retried attempts add up to [delay * (2 ^ n - 1)]
    when the first of them is attempt 1. *)
Lemma waited_retryLog (delay : Z) (errs : nat -> string) :
  forall (n : nat) (attempt : Z) (idx : nat),
    1 <= attempt ->
    waited (retryLog delay errs attempt idx n)
    = delay * 2 ^ (attempt - 1) * (2 ^ Z.of_nat n - 1).
Proof.
  induction n as [|n IH]; intros attempt idx Hatt.
  - cbn. lia.
  - cbn [retryLog]. rewrite waited_app, IH by lia.
    change (waited [Sent; Failed (errs idx); Timer (delay * 2 ^ (attempt - 1))])
      with (delay * 2 ^ (attempt - 1) + 0).
    replace (attempt + 1 - 1) with (attempt - 1 + 1) by lia.
    rewrite Z.pow_add_r by lia.
    rewrite Nat2Z.inj_succ, Z.pow_succ_r by lia.
    ring.
Qed.

(** Whatever a real provider does, the loop settles once it has fuel for
    the attempts that remain: it fulfils with the answer to the last
    request it sent, or it rejects after the last attempt with the give-up
    message, every request having failed, and the counters as they were. *)
Lemma tryCall_settles (cfg : Config) (net : Network) (prompt : string) :
  String.eqb (provider cfg) "mock" = false ->
  supportedProvider cfg = true ->
  forall (fuel : nat) (attempt : Z) (w : World),
    (remaining cfg attempt <= fuel)%nat ->
    exists p w',
      tryCall fuel cfg net prompt attempt w = Some (p, w')
      /\ (fetched w < fetched w' <= fetched w + remaining cfg attempt)%nat
      /\ ((exists r, p = Fulfilled r /\ Response.fallback r = false
                     /\ net (fetched w' - 1)%nat
                        = ResponseOk (Response.content r) (Response.tokensUsed r))
          \/ (exists e, p = Rejected e /\ gaveUp cfg e
                        /\ fetched w' = (fetched w + remaining cfg attempt)%nat
                        /\ (forall k, (fetched w <= k < fetched w')%nat ->
                              exists msg, net k = RequestFailed msg)
                        /\ totalTokensUsed w' = totalTokensUsed w
                        /\ requestCount w' = requestCount w)).
Proof.
  intros Hmock Hsup.
  induction fuel as [|fuel IH]; intros attempt w Hfuel;
    [unfold remaining in Hfuel; lia|].
  cbn [tryCall].
  destruct (net (fetched w)) as [text tokens | msg] eqn:Hnet.
  - rewrite (makeAPICall_ok _ _ _ _ text tokens Hmock Hsup Hnet).
    eexists _, _. split; [reflexivity|]. cbn [fetched]. split.
    + unfold remaining. lia.
    + left. eexists. split; [reflexivity|]. split; [reflexivity|].
      cbn [Response.content Response.tokensUsed].
      replace (S (fetched w) - 1)%nat with (fetched w) by lia. exact Hnet.
  - rewrite (makeAPICall_failed _ _ _ _ msg Hmock Hsup Hnet).
    destruct (attempt >=? maxRetries cfg) eqn:Hge.
    + apply Z.geb_le in Hge.
      eexists _, _. split; [reflexivity|]. cbn [fetched totalTokensUsed requestCount].
      assert (Hrem : remaining cfg attempt = 1%nat) by (unfold remaining; lia).
      rewrite Hrem. split; [lia|]. right. eexists. split; [reflexivity|].
      split; [now exists msg|]. split; [lia|]. split; [|now split].
      intros k Hk. replace k with (fetched w) by lia. now exists msg.
    + rewrite Z.geb_leb in Hge. apply Z.leb_gt in Hge.
      assert (Hrem : remaining cfg attempt = S (remaining cfg (attempt + 1)))
        by (unfold remaining; lia).
      destruct (IH (attempt + 1)
                   (logEvents {| totalTokensUsed := totalTokensUsed w;
                                 requestCount := requestCount w;
                                 fetched := S (fetched w);
                                 log := log w ++ [Sent; Failed msg] |}
                              [Timer (retryDelay cfg * 2 ^ (attempt - 1))])
                   ltac:(lia))
        as (p & w' & Hrun & Hbound & Hcase).
      cbn [logEvents fetched totalTokensUsed requestCount] in Hbound, Hcase.
      exists p, w'. split; [exact Hrun|]. rewrite Hrem. split; [lia|].
      destruct Hcase as [Hf | (e & -> & Hg & Hfe & Hall & Ht & Hc)]; [now left|].
      right. exists e. split; [reflexivity|]. split; [exact Hg|]. split; [lia|].
      split; [|now split].
      intros k Hk. destruct (Nat.eq_dec k (fetched w)) as [-> | Hne];
        [now exists msg | apply Hall; lia].
Qed.

(** [getApiConfig] and [buildRequestBody] throw for exactly the provider
    names that [makeAPICall] treats as unsupported. *)
Lemma getApiConfig_throws_iff (cfg : Config) :
  supportedProvider cfg = false
  <-> getApiConfig cfg = Throw (mkError ("Unsupported provider: " +:+ provider cfg)).
Proof.
  unfold supportedProvider, getApiConfig.
  destruct (String.eqb (provider cfg) "openai"); [split; discriminate|].
  destruct (String.eqb (provider cfg) "gemini"); [split; discriminate|].
  destruct (String.eqb (provider cfg) "claude"); [split; discriminate|].
  destruct (String.eqb (provider cfg) "mistral"); [split; discriminate|].
  destruct (String.eqb (provider cfg) "mock"); [split; discriminate|].
  split; reflexivity.
Qed.

Lemma buildRequestBody_throws_iff (cfg : Config) (prompt : string) :
  supportedProvider cfg = false
  <-> buildRequestBody cfg prompt
      = Throw (mkError ("Unsupported provider: " +:+ provider cfg)).
Proof.
  unfold supportedProvider, buildRequestBody.
  destruct (String.eqb (provider cfg) "openai"); [split; discriminate|].
  destruct (String.eqb (provider cfg) "gemini"); [split; discriminate|].
  destruct (String.eqb (provider cfg) "claude"); [split; discriminate|].
  destruct (String.eqb (provider cfg) "mistral"); [split; discriminate|].
  destruct (String.eqb (provider cfg) "mock"); [split; discriminate|].
  split; reflexivity.
Qed.

(** Whatever the provider does, [callLLM] settles once a key is there. *)
Lemma callLLM_settles (fuel : nat) (cfg : Config) (net : Network) (prompt : string)
  (w : World) :
  String.eqb (getCurrentApiKey cfg) "" = false ->
  (requestBudget cfg <= fuel)%nat ->
  exists p w',
    callLLM fuel cfg net prompt w = Normal (Some (p, w'))
    /\ (fetched w' <= fetched w + requestBudget cfg)%nat
    /\ ((exists r, p = Fulfilled r /\ Response.fallback r = false)
        \/ (exists e, p = Rejected e /\ gaveUp cfg e
                      /\ fetched w' = (fetched w + requestBudget cfg)%nat
                      /\ totalTokensUsed w' = totalTokensUsed w
                      /\ requestCount w' = requestCount w)).
Proof.
  intros Hkey Hfuel. unfold callLLM. rewrite Hkey.
  destruct (String.eqb (provider cfg) "mock") eqn:Hmock.
  - destruct fuel as [|fuel]; [unfold requestBudget in Hfuel; lia|].
    cbn [tryCall]. rewrite (makeAPICall_mock _ _ _ _ Hmock).
    eexists _, _. split; [reflexivity|]. cbn [fetched logEvents]. split; [lia|].
    left. eexists. split; reflexivity.
  - assert (Hrem : remaining cfg 1 = requestBudget cfg)
      by (unfold remaining, requestBudget; f_equal; lia).
    destruct (tryCall_settles cfg net prompt Hmock (key_present_supported _ Hkey)
                fuel 1 w ltac:(lia)) as (p & w' & Hrun & Hbound & Hcase).
    rewrite Hrem in *. exists p, w'. split; [now rewrite Hrun|]. split; [lia|].
    destruct Hcase as [(r & -> & Hfb & _) | (e & -> & Hg & Hfe & _ & Ht & Hc)].
    + left. now exists r.
    + right. exists e. now repeat split.
Qed.

End LlmRetryFacts.


Module LlmGateway.
Import LlmService LlmTrace LlmRequests LlmRetryTrace LlmFacts LlmRetryFacts Text Samples
       Scenarios.

(** X9. A call that recovers.  With a key for a real provider, when the first
    [n] exchanges fail and the next one succeeds, and [n] is less than
    [maxRetries], [callLLM] fulfils with the answer of request [n + 1]:
    it has sent [n + 1] requests, waited [retryDelay * (2 ^ n - 1)]
    milliseconds in all between them, added the tokens of the answer once,
    and counted the call twice. *)
Theorem callLLM_recovers_after_failures (fuel : nat) (cfg : Config) (net : Network)
  (errs : nat -> string) (prompt text : string) (tokens : Z) (n : nat) (w : World) :
  String.eqb (getCurrentApiKey cfg) "" = false ->
  String.eqb (provider cfg) "mock" = false ->
  Z.of_nat n < maxRetries cfg ->
  (n < fuel)%nat ->
  (forall k, (k < n)%nat -> net (fetched w + k)%nat = RequestFailed (errs (fetched w + k)%nat)) ->
  net (fetched w + n)%nat = ResponseOk text tokens ->
  exists r w',
    callLLM fuel cfg net prompt w = Normal (Some (Fulfilled r, w'))
    /\ Response.content r = text
    /\ Response.tokensUsed r = tokens
    /\ Response.provider r = provider cfg
    /\ fetched w' = (fetched w + n + 1)%nat
    /\ log w' = log w ++ retryLog (retryDelay cfg) errs 1 (fetched w) n ++ [Sent; Succeeded]
    /\ waited (retryLog (retryDelay cfg) errs 1 (fetched w) n ++ [Sent; Succeeded])
       = retryDelay cfg * (2 ^ Z.of_nat n - 1)
    /\ totalTokensUsed w' = totalTokensUsed w + tokens
    /\ requestCount w' = requestCount w + 2.
Proof.
  intros Hkey Hmock Hn Hfuel Hfail Hok. unfold callLLM. rewrite Hkey.
  rewrite (tryCall_recovers cfg net errs prompt text tokens Hmock
             (key_present_supported _ Hkey) n fuel 1 w Hfuel ltac:(lia) Hfail Hok).
  eexists _, _. split; [reflexivity|].
  cbn [Response.content Response.tokensUsed Response.provider fetched log
       totalTokensUsed requestCount].
  repeat split; try reflexivity; try lia.
  rewrite waited_app, waited_retryLog by lia.
  change (waited [Sent; Succeeded]) with 0. change (1 - 1) with 0.
  rewrite Z.pow_0_r. lia.
Qed.

Lemma callLLM_recovers_after_failures_witness :
  String.eqb (getCurrentApiKey (config envOpenai)) "" = false
  /\ String.eqb (provider (config envOpenai)) "mock" = false
  /\ Z.of_nat 2 < maxRetries (config envOpenai)
  /\ (2 < 5)%nat
  /\ (forall k, (k < 2)%nat ->
        netFlaky (fetched initialWorld + k)%nat = RequestFailed "API Error: 503 - overloaded")
  /\ netFlaky (fetched initialWorld + 2)%nat = ResponseOk "ok" 42
  /\ exists r w',
       callLLM 5 (config envOpenai) netFlaky "hello" initialWorld
         = Normal (Some (Fulfilled r, w'))
       /\ Response.content r = "ok"
       /\ Response.tokensUsed r = 42
       /\ Response.provider r = "openai"
       /\ fetched w' = 3%nat
       /\ log w' = [Sent; Failed "API Error: 503 - overloaded"; Timer 1000;
                    Sent; Failed "API Error: 503 - overloaded"; Timer 2000;
                    Sent; Succeeded]
       /\ waited (log w') = 3000
       /\ totalTokensUsed w' = 42
       /\ requestCount w' = 2.
Proof.
  assert (H1 : String.eqb (getCurrentApiKey (config envOpenai)) "" = false)
    by reflexivity.
  assert (H2 : String.eqb (provider (config envOpenai)) "mock" = false) by reflexivity.
  assert (H3 : Z.of_nat 2 < maxRetries (config envOpenai)) by (cbn; lia).
  assert (H4 : (2 < 5)%nat) by lia.
  assert (H5 : forall k, (k < 2)%nat ->
            netFlaky (fetched initialWorld + k)%nat
            = RequestFailed "API Error: 503 - overloaded").
  { intros k Hk. unfold netFlaky. cbn [fetched initialWorld Nat.add].
    now replace (k <? 2)%nat with true by (symmetry; apply Nat.ltb_lt; lia). }
  assert (H6 : netFlaky (fetched initialWorld + 2)%nat = ResponseOk "ok" 42)
    by reflexivity.
  refine (conj H1 (conj H2 (conj H3 (conj H4 (conj H5 (conj H6 _)))))).
  destruct (callLLM_recovers_after_failures 5 (config envOpenai) netFlaky
              (fun _ => "API Error: 503 - overloaded") "hello" "ok" 42 2 initialWorld
              H1 H2 H3 H4 H5 H6)
    as (r & w' & Hcall & Hc & Ht & Hp & Hf & Hlog & Hwait & Htok & Hreq).
  exists r, w'. rewrite Hlog. repeat split; assumption.
Defined.

(** X10. Whatever a real provider does, a call with a key settles once it has
    fuel for [max 1 maxRetries] attempts, having sent at least one request
    and never more than that many.  The promise is fulfilled, with the
    answer to the last request that was sent, or it is rejected, with the
    give-up message, the whole budget used and both counters as they
    were; and it is rejected exactly when every exchange of the budget
    fails. *)
Theorem callLLM_settles_within_budget (fuel : nat) (cfg : Config) (net : Network)
  (prompt : string) (w : World) :
  String.eqb (getCurrentApiKey cfg) "" = false ->
  String.eqb (provider cfg) "mock" = false ->
  (requestBudget cfg <= fuel)%nat ->
  exists p w',
    callLLM fuel cfg net prompt w = Normal (Some (p, w'))
    /\ (fetched w < fetched w' <= fetched w + requestBudget cfg)%nat
    /\ ((exists r, p = Fulfilled r
                   /\ Response.fallback r = false
                   /\ net (fetched w' - 1)%nat
                      = ResponseOk (Response.content r) (Response.tokensUsed r))
        \/ (exists e, p = Rejected e
                      /\ gaveUp cfg e
                      /\ fetched w' = (fetched w + requestBudget cfg)%nat
                      /\ totalTokensUsed w' = totalTokensUsed w
                      /\ requestCount w' = requestCount w))
    /\ ((exists e, p = Rejected e)
        <-> (forall k, (k < requestBudget cfg)%nat ->
               exists msg, net (fetched w + k)%nat = RequestFailed msg)).
Proof.
  intros Hkey Hmock Hfuel. unfold callLLM. rewrite Hkey.
  assert (Hrem : remaining cfg 1 = requestBudget cfg)
    by (unfold remaining, requestBudget; f_equal; lia).
  destruct (tryCall_settles cfg net prompt Hmock (key_present_supported _ Hkey)
              fuel 1 w ltac:(lia)) as (p & w' & Hrun & Hbound & Hcase).
  rewrite Hrem in *. exists p, w'. split; [now rewrite Hrun|]. split; [exact Hbound|].
  destruct Hcase as [(r & -> & Hfb & Hlast) | (e & -> & Hg & Hfe & Hall & Ht & Hc)].
  - split; [left; now exists r|].
    split; [intros [e He]; discriminate|].
    intros Hfailed.
    destruct (Hfailed (fetched w' - 1 - fetched w)%nat ltac:(lia)) as [msg Hmsg].
    replace (fetched w + (fetched w' - 1 - fetched w))%nat with (fetched w' - 1)%nat
      in Hmsg by lia.
    congruence.
  - split; [right; exists e; now repeat split|].
    split; [|intros _; now exists e].
    intros _ k Hk. apply Hall. lia.
Qed.

Lemma callLLM_settles_within_budget_witness :
  String.eqb (getCurrentApiKey (config envOpenai)) "" = false
  /\ String.eqb (provider (config envOpenai)) "mock" = false
  /\ (requestBudget (config envOpenai) <= 3)%nat
  /\ exists p w',
       callLLM 3 (config envOpenai) netFlaky "hello" initialWorld = Normal (Some (p, w'))
       /\ (fetched initialWorld < fetched w'
           <= fetched initialWorld + requestBudget (config envOpenai))%nat
       /\ ((exists r, p = Fulfilled r
                      /\ Response.fallback r = false
                      /\ netFlaky (fetched w' - 1)%nat
                         = ResponseOk (Response.content r) (Response.tokensUsed r))
           \/ (exists e, p = Rejected e
                         /\ gaveUp (config envOpenai) e
                         /\ fetched w'
                            = (fetched initialWorld + requestBudget (config envOpenai))%nat
                         /\ totalTokensUsed w' = totalTokensUsed initialWorld
                         /\ requestCount w' = requestCount initialWorld))
       /\ ((exists e, p = Rejected e)
           <-> (forall k, (k < requestBudget (config envOpenai))%nat ->
                  exists msg, netFlaky (fetched initialWorld + k)%nat = RequestFailed msg)).
Proof.
  assert (H1 : String.eqb (getCurrentApiKey (config envOpenai)) "" = false)
    by reflexivity.
  assert (H2 : String.eqb (provider (config envOpenai)) "mock" = false) by reflexivity.
  assert (H3 : (requestBudget (config envOpenai) <= 3)%nat)
    by (apply Nat.leb_le; vm_compute; reflexivity).
  exact (conj H1 (conj H2 (conj H3
    (callLLM_settles_within_budget 3 (config envOpenai) netFlaky "hello" initialWorld
       H1 H2 H3)))).
Defined.

(** X11. With a key, [callLLMWithFallback] always fulfils, whatever the
    provider does: with the provider's answer, or, after the last attempt
    has failed, with the fallback response, and then the counters are as
    they were. *)
Theorem callLLMWithFallback_always_fulfils (fuel : nat) (cfg : Config) (net : Network)
  (prompt : string) (w : World) :
  String.eqb (getCurrentApiKey cfg) "" = false ->
  (requestBudget cfg <= fuel)%nat ->
  exists r w',
    callLLMWithFallback fuel cfg net prompt w = Normal (Some (Fulfilled r, w'))
    /\ (fetched w' <= fetched w + requestBudget cfg)%nat
    /\ (Response.fallback r = false ->
        callLLM fuel cfg net prompt w = Normal (Some (Fulfilled r, w')))
    /\ (Response.fallback r = true ->
        Response.provider r = "fallback" /\ Response.tokensUsed r = 0
        /\ fetched w' = (fetched w + requestBudget cfg)%nat
        /\ totalTokensUsed w' = totalTokensUsed w
        /\ requestCount w' = requestCount w).
Proof.
  intros Hkey Hfuel.
  destruct (callLLM_settles fuel cfg net prompt w Hkey Hfuel)
    as (p & w' & Hcall & Hbound & [(r & -> & Hfb) | (e & -> & Hg & Hfe & Ht & Hc)]).
  - exists r, w'. unfold callLLMWithFallback. rewrite Hcall.
    split; [reflexivity|]. split; [exact Hbound|]. split; [reflexivity|].
    intros H. congruence.
  - exists (generateFallbackResponse (message e)), w'.
    unfold callLLMWithFallback. rewrite Hcall.
    split; [reflexivity|]. split; [exact Hbound|]. split; [discriminate|].
    intros _. repeat split; assumption.
Qed.

Lemma callLLMWithFallback_always_fulfils_witness :
  String.eqb (getCurrentApiKey (config envOpenai)) "" = false
  /\ (requestBudget (config envOpenai) <= 3)%nat
  /\ exists r w',
       callLLMWithFallback 3 (config envOpenai) netDown "hello" initialWorld
         = Normal (Some (Fulfilled r, w'))
       /\ (fetched w' <= fetched initialWorld + requestBudget (config envOpenai))%nat
       /\ (Response.fallback r = false ->
           callLLM 3 (config envOpenai) netDown "hello" initialWorld
             = Normal (Some (Fulfilled r, w')))
       /\ (Response.fallback r = true ->
           Response.provider r = "fallback" /\ Response.tokensUsed r = 0
           /\ fetched w' = (fetched initialWorld + requestBudget (config envOpenai))%nat
           /\ totalTokensUsed w' = totalTokensUsed initialWorld
           /\ requestCount w' = requestCount initialWorld).
Proof.
  assert (H1 : String.eqb (getCurrentApiKey (config envOpenai)) "" = false)
    by reflexivity.
  assert (H2 : (requestBudget (config envOpenai) <= 3)%nat)
    by (apply Nat.leb_le; vm_compute; reflexivity).
  exact (conj H1 (conj H2
    (callLLMWithFallback_always_fulfils 3 (config envOpenai) netDown "hello" initialWorld
       H1 H2))).
Defined.

(** X12. A provider name that is none of the five known ones is reported as a
    missing key, whatever keys are configured: [getApiConfig] and
    [buildRequestBody] would throw [Unsupported provider], but the key
    check of [callLLM] comes first and throws, and so does
    [callLLMWithFallback].  The name is ASCII text, so that the upper-case
    name in the message is the one JavaScript prints. *)
Theorem unsupported_provider_reports_missing_key (fuel : nat) (cfg : Config)
  (net : Network) (prompt : string) (w : World) :
  isAscii (provider cfg) = true ->
  supportedProvider cfg = false ->
  getApiConfig cfg = Throw (mkError ("Unsupported provider: " +:+ provider cfg))
  /\ buildRequestBody cfg prompt
     = Throw (mkError ("Unsupported provider: " +:+ provider cfg))
  /\ callLLM fuel cfg net prompt w
     = Throw (mkError ("API key is required. Set " +:+ toUpperCase (provider cfg)
                       +:+ "_API_KEY environment variable."))
  /\ callLLMWithFallback fuel cfg net prompt w
     = Throw (mkError ("API key is required. Set " +:+ toUpperCase (provider cfg)
                       +:+ "_API_KEY environment variable.")).
Proof.
  intros _ Hsup.
  assert (Hkey : String.eqb (getCurrentApiKey cfg) "" = true).
  { destruct (String.eqb (getCurrentApiKey cfg) "") eqn:E; [reflexivity|].
    rewrite (key_present_supported _ E) in Hsup. discriminate. }
  split; [now apply getApiConfig_throws_iff|].
  split; [now apply buildRequestBody_throws_iff|].
  unfold callLLMWithFallback, callLLM. rewrite Hkey. split; reflexivity.
Qed.

Lemma unsupported_provider_reports_missing_key_witness :
  isAscii (provider unknownProvider) = true
  /\ supportedProvider unknownProvider = false
  /\ getApiConfig unknownProvider = Throw (mkError "Unsupported provider: cohere")
  /\ buildRequestBody unknownProvider "hello"
     = Throw (mkError "Unsupported provider: cohere")
  /\ callLLM 5 unknownProvider netUp "hello" initialWorld
     = Throw (mkError "API key is required. Set COHERE_API_KEY environment variable.")
  /\ callLLMWithFallback 5 unknownProvider netUp "hello" initialWorld
     = Throw (mkError "API key is required. Set COHERE_API_KEY environment variable.").
Proof.
  assert (H0 : isAscii (provider unknownProvider) = true) by reflexivity.
  assert (H : supportedProvider unknownProvider = false) by reflexivity.
  exact (conj H0 (conj H
    (unsupported_provider_reports_missing_key 5 unknownProvider netUp "hello"
       initialWorld H0 H))).
Defined.

End LlmGateway.


(** *** The canned answers of the mock provider *)

Module MockFacts.
Import LlmService Text.

Lemma lowerChar_upperChar (c : ascii) : lowerChar (upperChar c) = lowerChar c.
Proof. destruct c as [[] [] [] [] [] [] [] []]; reflexivity. Qed.

Lemma lowerChar_idempotent (c : ascii) : lowerChar (lowerChar c) = lowerChar c.
Proof. destruct c as [[] [] [] [] [] [] [] []]; reflexivity. Qed.

Lemma lowerChar_space (c : ascii) : isSpace (lowerChar c) = isSpace c.
Proof. destruct c as [[] [] [] [] [] [] [] []]; reflexivity. Qed.

Lemma toLowerCase_toUpperCase (s : string) : toLowerCase (toUpperCase s) = toLowerCase s.
Proof.
  unfold toLowerCase, toUpperCase.
  induction s as [|c s IH]; cbn [mapString]; [reflexivity|].
  now rewrite lowerChar_upperChar, IH.
Qed.

Lemma toLowerCase_idempotent (s : string) : toLowerCase (toLowerCase s) = toLowerCase s.
Proof.
  unfold toLowerCase.
  induction s as [|c s IH]; cbn [mapString]; [reflexivity|].
  now rewrite lowerChar_idempotent, IH.
Qed.

Lemma toLowerCase_app (s t : string) :
  toLowerCase (s +:+ t) = toLowerCase s +:+ toLowerCase t.
Proof.
  unfold toLowerCase.
  induction s as [|c s IH]; [reflexivity|].
  rewrite PromptFacts.append_cons. cbn [mapString].
  now rewrite IH, PromptFacts.append_cons.
Qed.

(** White space at the end is what [trimEnd] removes. *)
Lemma trimEnd_space_r (s : string) (c : ascii) :
  isSpace c = true -> trimEnd (s +:+ String c EmptyString) = trimEnd s.
Proof.
  intros Hc. induction s as [|d s IH].
  - change (EmptyString +:+ String c EmptyString) with (String c EmptyString).
    cbn [trimEnd]. now rewrite Hc.
  - rewrite PromptFacts.append_cons. cbn [trimEnd]. now rewrite IH.
Qed.

Lemma trim_space_r (s : string) (c : ascii) :
  isSpace c = true -> trim (s +:+ String c EmptyString) = trim s.
Proof.
  intros Hc. unfold trim. induction s as [|d s IH].
  - change (EmptyString +:+ String c EmptyString) with (String c EmptyString).
    cbn [trimStart]. now rewrite Hc.
  - rewrite PromptFacts.append_cons. cbn [trimStart].
    destruct (isSpace d); [exact IH|].
    rewrite <- PromptFacts.append_cons. now apply trimEnd_space_r.
Qed.

Lemma trim_space_l (s : string) (c : ascii) :
  isSpace c = true -> trim (String c s) = trim s.
Proof. intros Hc. unfold trim. cbn [trimStart]. now rewrite Hc. Qed.

(** ASCII text stays ASCII text under the case mappings, and white space
    is ASCII. *)
Lemma asciiChar_upperChar (c : ascii) : asciiChar (upperChar c) = asciiChar c.
Proof. destruct c as [[] [] [] [] [] [] [] []]; reflexivity. Qed.

Lemma asciiChar_lowerChar (c : ascii) : asciiChar (lowerChar c) = asciiChar c.
Proof. destruct c as [[] [] [] [] [] [] [] []]; reflexivity. Qed.

Lemma isSpace_asciiChar (c : ascii) : isSpace c = true -> asciiChar c = true.
Proof. destruct c as [[] [] [] [] [] [] [] []]; vm_compute; congruence. Qed.

Lemma isAscii_toUpperCase (s : string) : isAscii (toUpperCase s) = isAscii s.
Proof.
  unfold toUpperCase. induction s as [|c s IH]; cbn [mapString isAscii]; [reflexivity|].
  now rewrite asciiChar_upperChar, IH.
Qed.

Lemma isAscii_toLowerCase (s : string) : isAscii (toLowerCase s) = isAscii s.
Proof.
  unfold toLowerCase. induction s as [|c s IH]; cbn [mapString isAscii]; [reflexivity|].
  now rewrite asciiChar_lowerChar, IH.
Qed.

Lemma isAscii_app (s t : string) : isAscii (s +:+ t) = isAscii s && isAscii t.
Proof.
  induction s as [|c s IH]; [reflexivity|].
  rewrite PromptFacts.append_cons. cbn [isAscii]. now rewrite IH, andb_assoc.
Qed.

End MockFacts.

Module MockResponses.
Import LlmService Text MockFacts.

(** X13. The answer does not depend on the case of the prompt's letters or on
    white space around it: for a prompt of ASCII text that the table
    answers, the prompt in upper case, the prompt in lower case and the
    prompt with a white-space character before or after it are such
    prompts again and get the answer of the prompt itself. *)
Theorem generateMockResponse_ignores_case_and_padding (prompt : string) (c : ascii) :
  plainPrompt prompt ->
  isSpace c = true ->
  (plainPrompt (toUpperCase prompt)
   /\ generateMockResponse (toUpperCase prompt) = generateMockResponse prompt)
  /\ (plainPrompt (toLowerCase prompt)
      /\ generateMockResponse (toLowerCase prompt) = generateMockResponse prompt)
  /\ (plainPrompt (String c prompt)
      /\ generateMockResponse (String c prompt) = generateMockResponse prompt)
  /\ (plainPrompt (prompt +:+ String c EmptyString)
      /\ generateMockResponse (prompt +:+ String c EmptyString)
         = generateMockResponse prompt).
Proof.
  intros [Hascii Hown] Hc. unfold plainPrompt, generateMockResponse.
  rewrite isAscii_toUpperCase, isAscii_toLowerCase, isAscii_app.
  cbn [isAscii]. rewrite (isSpace_asciiChar c Hc), Hascii.
  rewrite toLowerCase_toUpperCase, toLowerCase_idempotent, toLowerCase_app.
  change (toLowerCase (String c prompt)) with (String (lowerChar c) (toLowerCase prompt)).
  change (toLowerCase (String c EmptyString)) with (String (lowerChar c) EmptyString).
  rewrite trim_space_l, trim_space_r by now rewrite lowerChar_space.
  rewrite Hown. repeat split; reflexivity.
Qed.

Lemma generateMockResponse_ignores_case_and_padding_witness :
  plainPrompt "Hello"
  /\ isSpace " " = true
  /\ generateMockResponse "Hello" = generateMockResponse "hello"
  /\ (plainPrompt (toUpperCase "Hello")
      /\ generateMockResponse (toUpperCase "Hello") = generateMockResponse "Hello")
  /\ (plainPrompt (toLowerCase "Hello")
      /\ generateMockResponse (toLowerCase "Hello") = generateMockResponse "Hello")
  /\ (plainPrompt (String " " "Hello")
      /\ generateMockResponse (String " " "Hello") = generateMockResponse "Hello")
  /\ (plainPrompt ("Hello" +:+ String " " EmptyString)
      /\ generateMockResponse ("Hello" +:+ String " " EmptyString)
         = generateMockResponse "Hello").
Proof.
  assert (H0 : plainPrompt "Hello") by (split; reflexivity).
  assert (H : isSpace " " = true) by reflexivity.
  destruct (generateMockResponse_ignores_case_and_padding "Hello" " " H0 H)
    as (Hup & Hlow & Hrest).
  exact (conj H0 (conj H (conj (eq_sym (proj2 Hlow)) (conj Hup (conj Hlow Hrest))))).
Defined.

End MockResponses.


(** *** Settings: what [updateConfig] can change *)

Module SettingsFacts.
Import LlmService LlmRequests FloatRank FloatOrder.

Lemma eqb_frank (x y : float) :
  is_nan x = false -> is_nan y = false ->
  (x =? y)%float = (frank x =? frank y).
Proof.
  intros Nx Ny. rewrite FloatAxioms.eqb_spec. unfold SFeqb, frank.
  rewrite (SFcompare_rank _ _ (Prim2SF_valid x) (Prim2SF_valid y)
             (not_nan_spec x Nx) (not_nan_spec y Ny)).
  now rewrite Z.eqb_compare.
Qed.

(** The clamp of [updateConfig] on a number. *)
Lemma clamp_number (t : float) :
  is_nan t = false ->
  is_nan (JSMath.max 0 (JSMath.min 2 t)) = false
  /\ frank (JSMath.max 0 (JSMath.min 2 t)) = Z.max 0 (Z.min (frank 2) (frank t)).
Proof.
  intros Nt.
  assert (N2 : is_nan 2 = false) by reflexivity.
  assert (N0 : is_nan 0 = false) by reflexivity.
  assert (F0 : frank 0 = 0) by reflexivity.
  assert (F2 : 0 < frank 2) by (vm_compute; reflexivity).
  assert (Hmin : is_nan (JSMath.min 2 t) = false
                 /\ frank (JSMath.min 2 t) = Z.min (frank 2) (frank t)).
  { unfold JSMath.min. rewrite N2, Nt. cbn [orb].
    rewrite !ltb_frank by assumption.
    destruct (frank 2 <? frank t) eqn:E1.
    - apply Z.ltb_lt in E1. split; [exact N2 | lia].
    - apply Z.ltb_ge in E1.
      destruct (frank t <? frank 2) eqn:E2.
      + apply Z.ltb_lt in E2. split; [exact Nt | lia].
      + apply Z.ltb_ge in E2. change (get_sign 2) with false. cbn iota.
        split; [exact Nt | lia]. }
  destruct Hmin as [Nm Fm].
  unfold JSMath.max. rewrite N0, Nm. cbn [orb].
  rewrite !ltb_frank by assumption. rewrite F0, Fm.
  destruct (0 <? Z.min (frank 2) (frank t)) eqn:E1.
  - apply Z.ltb_lt in E1. split; [exact Nm | lia].
  - apply Z.ltb_ge in E1.
    destruct (Z.min (frank 2) (frank t) <? 0) eqn:E2.
    + apply Z.ltb_lt in E2. split; [exact N0 | lia].
    + apply Z.ltb_ge in E2. change (get_sign 0) with false. cbn iota.
      split; [exact N0 | lia].
Qed.

Lemma withTemperatureAndMaxTokens_same (cfg : Config) :
  withTemperatureAndMaxTokens cfg (temperature cfg) (maxTokens cfg) = cfg.
Proof. now destruct cfg. Qed.

(** A run of updates changes the configuration in its temperature and its
    token limit at most. *)
Lemma applyUpdates_config (updates : list NewConfig.t) :
  forall settings : Settings.t,
    exists t m,
      Settings.config (applyUpdates settings updates)
      = withTemperatureAndMaxTokens (Settings.config settings) t m.
Proof.
  unfold applyUpdates.
  induction updates as [|u rest IH]; intros settings; cbn [fold_left].
  - exists (temperature (Settings.config settings)), (maxTokens (Settings.config settings)).
    symmetry. apply withTemperatureAndMaxTokens_same.
  - destruct (IH (updateConfig settings u)) as (t & m & Heq).
    exists t, m. rewrite Heq. reflexivity.
Qed.

(** A run of updates that name no temperature and no token limit leaves
    the configuration as it is. *)
Lemma applyUpdates_config_same (updates : list NewConfig.t) :
  Forall namesNoSampling updates ->
  forall settings : Settings.t,
    Settings.config (applyUpdates settings updates) = Settings.config settings.
Proof.
  unfold applyUpdates.
  induction 1 as [|u rest [Ht Hm] Hrest IH]; intros settings; cbn [fold_left];
    [reflexivity|].
  rewrite IH. unfold updateConfig. rewrite Ht, Hm. cbn [Settings.config].
  apply withTemperatureAndMaxTokens_same.
Qed.

End SettingsFacts.

Module SettingsSpec.
Import LlmService LlmRequests LlmRetryTrace LlmFacts LlmRetryFacts FloatRank FloatOrder
       SettingsFacts Text Samples Scenarios.

(** X14. [updateConfig] keeps the temperature between 0 and 2: a number below 0
    is stored as 0, a number above 2 as 2, and a number in between as it
    is (the negative zero as zero).  NaN is not a number of the range, and
    it is stored as NaN. *)
Theorem updateConfig_clamps_temperature (settings : Settings.t)
  (newConfig : NewConfig.t) (t : float) :
  NewConfig.temperature newConfig = Some t ->
  (is_nan t = true ->
   is_nan (temperature (Settings.config (updateConfig settings newConfig))) = true)
  /\ (is_nan t = false ->
      (0 <=? temperature (Settings.config (updateConfig settings newConfig)))%float = true
      /\ (temperature (Settings.config (updateConfig settings newConfig)) <=? 2)%float = true
      /\ ((t <? 0)%float = true ->
          (temperature (Settings.config (updateConfig settings newConfig)) =? 0)%float = true)
      /\ ((2 <? t)%float = true ->
          (temperature (Settings.config (updateConfig settings newConfig)) =? 2)%float = true)
      /\ ((0 <=? t)%float = true -> (t <=? 2)%float = true ->
          (temperature (Settings.config (updateConfig settings newConfig)) =? t)%float = true)).
Proof.
  intros Ht. unfold updateConfig. rewrite Ht.
  cbn [Settings.config withTemperatureAndMaxTokens temperature].
  split.
  - intros Nt. unfold JSMath.min. rewrite Nt, orb_true_r. reflexivity.
  - intros Nt. destruct (clamp_number t Nt) as [Nr Fr].
    assert (N2 : is_nan 2 = false) by reflexivity.
    assert (N0 : is_nan 0 = false) by reflexivity.
    assert (F0 : frank 0 = 0) by reflexivity.
    assert (F2 : 0 < frank 2) by (vm_compute; reflexivity).
    rewrite !leb_frank, !ltb_frank, !eqb_frank by assumption.
    rewrite Fr, F0.
    split; [apply Z.leb_le; lia|]. split; [apply Z.leb_le; lia|].
    split; [intros H; apply Z.ltb_lt in H; apply Z.eqb_eq; lia|].
    split; [intros H; apply Z.ltb_lt in H; apply Z.eqb_eq; lia|].
    intros H1 H2. apply Z.leb_le in H1, H2. apply Z.eqb_eq. lia.
Qed.

Lemma updateConfig_clamps_temperature_witness :
  NewConfig.temperature hotUpdate = Some 3.5%float
  /\ (is_nan 3.5 = true ->
      is_nan (temperature (Settings.config
                (updateConfig (initialSettings envOpenai) hotUpdate))) = true)
  /\ (is_nan 3.5 = false ->
      (0 <=? temperature (Settings.config
                (updateConfig (initialSettings envOpenai) hotUpdate)))%float = true
      /\ (temperature (Settings.config
                (updateConfig (initialSettings envOpenai) hotUpdate)) <=? 2)%float = true
      /\ ((3.5 <? 0)%float = true ->
          (temperature (Settings.config
                (updateConfig (initialSettings envOpenai) hotUpdate)) =? 0)%float = true)
      /\ ((2 <? 3.5)%float = true ->
          (temperature (Settings.config
                (updateConfig (initialSettings envOpenai) hotUpdate)) =? 2)%float = true)
      /\ ((0 <=? 3.5)%float = true -> (3.5 <=? 2)%float = true ->
          (temperature (Settings.config
                (updateConfig (initialSettings envOpenai) hotUpdate)) =? 3.5)%float
          = true)).
Proof.
  assert (H : NewConfig.temperature hotUpdate = Some 3.5%float) by reflexivity.
  exact (conj H (updateConfig_clamps_temperature (initialSettings envOpenai)
                   hotUpdate 3.5%float H)).
Defined.

(** X15. The [model] and [apiKey] that [updateConfig] stores are read by
    nothing that builds a request: after any run of updates, whatever
    they name, the key and the model in force, the endpoint and the
    headers are those of before, and so are the provider and the retry
    settings.  A run of updates that name no temperature and no token
    limit leaves every request body as it was. *)
Theorem updateConfig_cannot_change_key_or_model (settings : Settings.t)
  (updates : list NewConfig.t) (prompt : string) :
  getCurrentApiKey (Settings.config (applyUpdates settings updates))
    = getCurrentApiKey (Settings.config settings)
  /\ getCurrentModel (Settings.config (applyUpdates settings updates))
     = getCurrentModel (Settings.config settings)
  /\ getApiConfig (Settings.config (applyUpdates settings updates))
     = getApiConfig (Settings.config settings)
  /\ provider (Settings.config (applyUpdates settings updates))
     = provider (Settings.config settings)
  /\ maxRetries (Settings.config (applyUpdates settings updates))
     = maxRetries (Settings.config settings)
  /\ retryDelay (Settings.config (applyUpdates settings updates))
     = retryDelay (Settings.config settings)
  /\ (Forall namesNoSampling updates ->
      buildRequestBody (Settings.config (applyUpdates settings updates)) prompt
      = buildRequestBody (Settings.config settings) prompt).
Proof.
  destruct (applyUpdates_config updates settings) as (t & m & Heq).
  rewrite Heq. repeat split.
  intros Hall. rewrite <- Heq. now rewrite applyUpdates_config_same.
Qed.

(** X16. [testConnection] is a full [callLLM]: without a key for the active
    provider it throws instead of resolving, and with a key it always
    resolves, to a success with the first hundred characters of the
    answer, or, once every attempt of the budget has failed, to
    [Connection failed] with the give-up message.  The provider name and
    the answers of the provider are ASCII text, so that the upper-case
    name in the message and the hundred characters are those of
    JavaScript. *)
Theorem testConnection_resolves_or_throws (fuel : nat) (settings : Settings.t)
  (net : Network) (w : World) :
  isAscii (provider (Settings.config settings)) = true ->
  asciiAnswers net ->
  (getCurrentApiKey (Settings.config settings) = EmptyString ->
   testConnection fuel settings net w
   = Throw (mkError ("API key is required. Set "
                     +:+ toUpperCase (provider (Settings.config settings))
                     +:+ "_API_KEY environment variable.")))
  /\ (String.eqb (getCurrentApiKey (Settings.config settings)) "" = false ->
      (requestBudget (Settings.config settings) <= fuel)%nat ->
      exists result w',
        testConnection fuel settings net w = Normal (Some (Fulfilled result, w'))
        /\ (TestResult.success result = true ->
            TestResult.message result = "Connection successful"
            /\ exists r,
                 callLLM fuel (Settings.config settings) net testPrompt w
                   = Normal (Some (Fulfilled r, w'))
                 /\ isAscii (Response.content r) = true
                 /\ TestResult.response result
                    = Some (String.substring 0 100 (Response.content r)))
        /\ (TestResult.success result = false ->
            TestResult.message result = "Connection failed"
            /\ fetched w' = (fetched w + requestBudget (Settings.config settings))%nat
            /\ exists e, TestResult.error result = Some (message e)
                         /\ gaveUp (Settings.config settings) e)).
Proof.
  intros _ Hnet. split.
  - intros Hkey. unfold testConnection, callLLM. now rewrite Hkey.
  - intros Hkey Hfuel. unfold testConnection, callLLM. rewrite Hkey.
    destruct (String.eqb (provider (Settings.config settings)) "mock") eqn:Hmock.
    + destruct fuel as [|fuel]; [unfold requestBudget in Hfuel; lia|].
      cbn [tryCall]. rewrite (makeAPICall_mock _ _ _ _ Hmock).
      eexists _, _. split; [reflexivity|].
      cbn [TestResult.success TestResult.message TestResult.response TestResult.error].
      split; [|discriminate].
      intros _. split; [reflexivity|]. eexists. split; [reflexivity|].
      cbn [Response.content]. split; [vm_compute|]; reflexivity.
    + assert (Hrem : remaining (Settings.config settings) 1
                     = requestBudget (Settings.config settings))
        by (unfold remaining, requestBudget; f_equal; lia).
      destruct (tryCall_settles (Settings.config settings) net testPrompt Hmock
                  (key_present_supported _ Hkey) fuel 1 w ltac:(lia))
        as (p & w' & Hrun & Hbound & Hcase).
      rewrite Hrem in *. rewrite Hrun.
      destruct Hcase as [(r & -> & Hfb & Hlast) | (e & -> & Hg & Hfe & _ & Ht & Hc)].
      * eexists _, w'. split; [reflexivity|].
        cbn [TestResult.success TestResult.message TestResult.response TestResult.error].
        split; [|discriminate].
        intros _. split; [reflexivity|]. exists r. split; [reflexivity|].
        split; [exact (Hnet _ _ _ Hlast) | reflexivity].
      * eexists _, w'. split; [reflexivity|].
        cbn [TestResult.success TestResult.message TestResult.response TestResult.error].
        split; [discriminate|].
        intros _. split; [reflexivity|]. split; [exact Hfe|]. exists e. now split.
Qed.

Lemma testConnection_resolves_or_throws_witness :
  isAscii (provider (Settings.config (initialSettings envOpenai))) = true
  /\ asciiAnswers netFlaky
  /\ String.eqb (getCurrentApiKey (Settings.config (initialSettings envOpenai))) ""
     = false
  /\ (requestBudget (Settings.config (initialSettings envOpenai)) <= 3)%nat
  /\ exists result w',
       testConnection 3 (initialSettings envOpenai) netFlaky initialWorld
       = Normal (Some (Fulfilled result, w'))
       /\ (TestResult.success result = true ->
           TestResult.message result = "Connection successful"
           /\ exists r,
                callLLM 3 (Settings.config (initialSettings envOpenai)) netFlaky
                        testPrompt initialWorld
                  = Normal (Some (Fulfilled r, w'))
                /\ isAscii (Response.content r) = true
                /\ TestResult.response result
                   = Some (String.substring 0 100 (Response.content r)))
       /\ (TestResult.success result = false ->
           TestResult.message result = "Connection failed"
           /\ fetched w'
              = (fetched initialWorld
                 + requestBudget (Settings.config (initialSettings envOpenai)))%nat
           /\ exists e, TestResult.error result = Some (message e)
                        /\ gaveUp (Settings.config (initialSettings envOpenai)) e).
Proof.
  assert (H1 : isAscii (provider (Settings.config (initialSettings envOpenai))) = true)
    by reflexivity.
  assert (H2 : asciiAnswers netFlaky).
  { intros k content tokensUsed H. unfold netFlaky in H.
    destruct (k <? 2)%nat; [discriminate|]. now inversion H. }
  assert (H3 : String.eqb (getCurrentApiKey (Settings.config (initialSettings envOpenai)))
                          "" = false) by reflexivity.
  assert (H4 : (requestBudget (Settings.config (initialSettings envOpenai)) <= 3)%nat)
    by (apply Nat.leb_le; vm_compute; reflexivity).
  exact (conj H1 (conj H2 (conj H3 (conj H4
    (proj2 (testConnection_resolves_or_throws 3 (initialSettings envOpenai) netFlaky
              initialWorld H1 H2) H3 H4))))).
Defined.

End SettingsSpec.

(** *** Sessions: lookup, expiry and the life of a session *)

Module SessionFacts.
Import ConversationManager SessionMaintenance ConversationFacts HistoryWindow.

Lemma getSession_live (cfg : Config) (now : Z) (sessions : Sessions)
  (sessionId : string) (session : Session.t) :
  sessions !! sessionId = Some session ->
  isSessionExpired cfg now session = false ->
  getSession cfg now sessions sessionId = (Some session, sessions).
Proof. intros Hl He. unfold getSession. now rewrite Hl, He. Qed.

Lemma getSession_expired (cfg : Config) (now : Z) (sessions : Sessions)
  (sessionId : string) (session : Session.t) :
  sessions !! sessionId = Some session ->
  isSessionExpired cfg now session = true ->
  getSession cfg now sessions sessionId = (None, delete sessionId sessions).
Proof. intros Hl He. unfold getSession. now rewrite Hl, He. Qed.

Lemma getSession_absent (cfg : Config) (now : Z) (sessions : Sessions)
  (sessionId : string) :
  sessions !! sessionId = None ->
  getSession cfg now sessions sessionId = (None, sessions).
Proof. intros Hl. unfold getSession. now rewrite Hl. Qed.

Lemma isSessionExpired_false (cfg : Config) (now : Z) (session : Session.t) :
  isSessionExpired cfg now session = false
  <-> now - Session.lastActivity session <= sessionTimeout cfg.
Proof. unfold isSessionExpired. rewrite Z.gtb_ltb, Z.ltb_ge. reflexivity. Qed.

Lemma isSessionExpired_true (cfg : Config) (now : Z) (session : Session.t) :
  isSessionExpired cfg now session = true
  <-> sessionTimeout cfg < now - Session.lastActivity session.
Proof. unfold isSessionExpired. rewrite Z.gtb_ltb, Z.ltb_lt. reflexivity. Qed.

(** What [addMessage] does to a live session. *)
Lemma addMessage_live (cfg : Config) (now : Z) (messageId : string)
  (sessions : Sessions) (sessionId role content : string) (metadata : MetadataArg.t)
  (session : Session.t) :
  sessions !! sessionId = Some session ->
  isSessionExpired cfg now session = false ->
  addMessage cfg now messageId sessions sessionId role content metadata =
  (Normal (Session.mk (Session.id session) (Session.createdAt session) now
             (trimHistory cfg (Session.messages session
                               ++ [buildMessage now messageId role content metadata]))
             (Session.metadata session) (Session.messageCount session + 1)),
   <[sessionId :=
       Session.mk (Session.id session) (Session.createdAt session) now
         (trimHistory cfg (Session.messages session
                           ++ [buildMessage now messageId role content metadata]))
         (Session.metadata session) (Session.messageCount session + 1)]> sessions).
Proof.
  intros Hl He. unfold addMessage. now rewrite (getSession_live _ _ _ _ _ Hl He).
Qed.

Lemma addMessage_gone (cfg : Config) (now : Z) (messageId : string)
  (sessions : Sessions) (sessionId role content : string) (metadata : MetadataArg.t) :
  fst (getSession cfg now sessions sessionId) = None ->
  addMessage cfg now messageId sessions sessionId role content metadata =
  (Throw (mkError ("Session " +:+ sessionId +:+ " not found or expired")),
   snd (getSession cfg now sessions sessionId)).
Proof.
  intros H. unfold addMessage.
  destruct (getSession cfg now sessions sessionId) as [[s|] sessions']; [discriminate|].
  reflexivity.
Qed.

Lemma trimHistory_length (cfg : Config) (messages : list Message.t) :
  0 <= maxHistoryLength cfg ->
  len (trimHistory cfg messages) <= maxHistoryLength cfg
  /\ len (trimHistory cfg messages) <= len messages.
Proof.
  intros Hmax. unfold trimHistory, len.
  destruct (Z.of_nat (length messages) >? maxHistoryLength cfg) eqn:E.
  - rewrite length_skipn. apply Z.gtb_lt in E. lia.
  - rewrite Z.gtb_ltb in E. apply Z.ltb_ge in E. lia.
Qed.

(** Deleting a list of ids one after the other. *)
Lemma fold_delete_lookup (ids : list string) :
  forall (sessions : Sessions) (k : string),
    fold_left (fun sessions sessionId => delete sessionId sessions) ids sessions !! k
    = if bool_decide (k ∈ ids) then None else sessions !! k.
Proof.
  induction ids as [|i ids IH]; intros sessions k; cbn [fold_left].
  - rewrite bool_decide_eq_false_2 by apply not_elem_of_nil. reflexivity.
  - rewrite IH. destruct (decide (k ∈ ids)) as [Hin | Hnin].
    + rewrite !bool_decide_eq_true_2; [reflexivity | apply elem_of_cons; now right | assumption].
    + rewrite (bool_decide_eq_false_2 _ Hnin).
      destruct (decide (i = k)) as [-> | Hne].
      * rewrite bool_decide_eq_true_2 by (apply elem_of_cons; now left). apply lookup_delete_eq.
      * rewrite bool_decide_eq_false_2.
        -- now apply lookup_delete_ne.
        -- intros H. apply elem_of_cons in H as [H | H]; congruence.
Qed.

(** The sweep keeps exactly the sessions that have not expired. *)
Lemma cleanupExpiredSessions_lookup (cfg : Config) (now : Z) (sessions : Sessions)
  (k : string) :
  cleanupExpiredSessions cfg now sessions !! k =
  match sessions !! k with
  | Some session => if isSessionExpired cfg now session then None else Some session
  | None => None
  end.
Proof.
  unfold cleanupExpiredSessions. rewrite fold_delete_lookup.
  destruct (sessions !! k) as [session|] eqn:Hl.
  - destruct (isSessionExpired cfg now session) eqn:He.
    + rewrite bool_decide_eq_true_2; [reflexivity|].
      apply list_elem_of_In, in_map_iff. exists (k, session). split; [reflexivity|].
      apply List.filter_In. split; [|exact He].
      apply list_elem_of_In, elem_of_map_to_list. exact Hl.
    + rewrite bool_decide_eq_false_2; [reflexivity|].
      intros Hin. apply list_elem_of_In, in_map_iff in Hin as ([k' s'] & Hk & Hin). cbn in Hk. subst k'.
      apply List.filter_In in Hin as [Hin He']. cbn in He'.
      apply list_elem_of_In, elem_of_map_to_list in Hin. congruence.
  - rewrite bool_decide_eq_false_2; [reflexivity|].
    intros Hin. apply list_elem_of_In, in_map_iff in Hin as ([k' s'] & Hk & Hin). cbn in Hk. subst k'.
    apply List.filter_In in Hin as [Hin _].
    apply list_elem_of_In, elem_of_map_to_list in Hin. congruence.
Qed.

(** Setting the entries of a stored file one after the other: an id ends
    with its live entry, if the file has one, and with what the map held
    for it otherwise. *)
Lemma load_fold_lookup (cfg : Config) (now : Z) (entries : list (string * Session.t)) :
  NoDup (map fst entries) ->
  forall (sessions : Sessions) (k : string) (session : Session.t),
    fold_left (fun sessions entry =>
                 if negb (isSessionExpired cfg now (snd entry))
                 then <[fst entry := snd entry]> sessions
                 else sessions) entries sessions !! k = Some session
    <-> (In (k, session) entries /\ isSessionExpired cfg now session = false)
        \/ ((forall s, In (k, s) entries -> isSessionExpired cfg now s = true)
            /\ sessions !! k = Some session).
Proof.
  induction entries as [|[i s0] entries IH]; intros Hnd sessions k session.
  - cbn [fold_left In]. split; [intros H; right; split; [intros ? []|exact H]|].
    intros [[[] _] | [_ H]]; exact H.
  - cbn [map fst] in Hnd. apply NoDup_cons in Hnd as [Hni Hnd].
    cbn [fold_left fst snd]. rewrite (IH Hnd). clear IH.
    assert (Hfresh : forall s, In (i, s) entries -> False).
    { intros s Hin. apply Hni, list_elem_of_In, in_map_iff. now exists (i, s). }
    split.
    + intros [[Hin He] | [Hall Hl]].
      * left. split; [now right | exact He].
      * destruct (isSessionExpired cfg now s0) eqn:He0; cbn [negb] in Hl.
        -- right. split; [|exact Hl].
           intros s [Heq | Hin]; [congruence | now apply Hall].
        -- destruct (decide (i = k)) as [-> | Hne].
           ++ rewrite lookup_insert_eq in Hl. inversion Hl; subst s0.
              left. split; [now left | exact He0].
           ++ rewrite lookup_insert_ne in Hl by exact Hne.
              right. split; [|exact Hl].
              intros s [Heq | Hin]; [congruence | now apply Hall].
    + intros [[[Heq | Hin] He] | [Hall Hl]].
      * inversion Heq; subst i s0. right. split.
        -- intros s Hin. destruct (Hfresh s Hin).
        -- rewrite He. cbn [negb]. apply lookup_insert_eq.
      * left. now split.
      * right. split; [intros s Hin; apply Hall; now right|].
        destruct (isSessionExpired cfg now s0) eqn:He0; cbn [negb]; [exact Hl|].
        rewrite lookup_insert_ne; [exact Hl|].
        intros ->. specialize (Hall s0 (or_introl eq_refl)). congruence.
Qed.

(** [getSession] keeps the invariant of the map and returns a session that
    has it. *)
Lemma getSession_invariant (cfg : Config) (now : Z) (sessions : Sessions)
  (sessionId : string) :
  storeInvariant cfg sessions ->
  storeInvariant cfg (snd (getSession cfg now sessions sessionId))
  /\ (forall session, fst (getSession cfg now sessions sessionId) = Some session ->
        sessionInvariant cfg sessionId session).
Proof.
  intros Hinv. unfold getSession.
  destruct (sessions !! sessionId) as [session|] eqn:Hl.
  - destruct (isSessionExpired cfg now session); cbn [fst snd].
    + split; [now apply map_Forall_delete | discriminate].
    + split; [exact Hinv|]. intros s [= <-]. exact (Hinv _ _ Hl).
  - split; [exact Hinv | discriminate].
Qed.

Lemma fold_delete_invariant (cfg : Config) (ids : list string) :
  forall sessions : Sessions,
    storeInvariant cfg sessions ->
    storeInvariant cfg
      (fold_left (fun sessions sessionId => delete sessionId sessions) ids sessions).
Proof.
  induction ids as [|i ids IH]; intros sessions Hinv; [exact Hinv|].
  cbn [fold_left]. apply IH. now apply map_Forall_delete.
Qed.

(** Every call keeps the invariant. *)
Lemma step_invariant (cfg : Config) (sessions : Sessions) (request : Request) :
  0 <= maxHistoryLength cfg ->
  storeInvariant cfg sessions -> storeInvariant cfg (step cfg sessions request).
Proof.
  intros Hmax Hinv.
  assert (Hcreate : forall now newId metadata (m : Sessions),
            storeInvariant cfg m ->
            storeInvariant cfg (snd (createSession now newId m metadata))).
  { intros now newId metadata m Hm. unfold createSession. cbn [snd].
    apply map_Forall_insert_2; [|exact Hm].
    unfold sessionInvariant, len. cbn. repeat split; lia. }
  destruct request as [now newId metadata | now newId sessionId metadata
                      | now messageId sessionId role content metadata
                      | now sessionId limit | now sessionId | sessionId | now];
    cbn [step].
  - now apply Hcreate.
  - unfold getOrCreateSession.
    destruct sessionId as [[|c rest]|]; try now apply Hcreate.
    destruct (getSession_invariant cfg now sessions (String c rest) Hinv) as [Hs Hr].
    destruct (getSession cfg now sessions (String c rest)) as [[session|] sessions'];
      cbn [fst snd] in *; [|now apply Hcreate].
    apply map_Forall_insert_2; [|exact Hs].
    destruct (Hr session eq_refl) as (Hid & Hlen & Hcount).
    unfold sessionInvariant. cbn. auto.
  - unfold addMessage.
    destruct (getSession_invariant cfg now sessions sessionId Hinv) as [Hs Hr].
    destruct (getSession cfg now sessions sessionId) as [[session|] sessions'];
      cbn [fst snd] in *; [|exact Hs].
    apply map_Forall_insert_2; [|exact Hs].
    destruct (Hr session eq_refl) as (Hid & Hlen & Hcount).
    pose proof (trimHistory_length cfg
                  (Session.messages session
                   ++ [buildMessage now messageId role content metadata]) Hmax)
      as [Hb Hl].
    unfold len in Hl at 2. rewrite length_app in Hl. cbn [length] in Hl.
    unfold sessionInvariant. cbn [Session.id Session.messages Session.messageCount].
    unfold len in *. repeat split; [exact Hid | exact Hb | lia].
  - unfold getConversationHistory.
    destruct (getSession_invariant cfg now sessions sessionId Hinv) as [Hs _].
    destruct (getSession cfg now sessions sessionId) as [[session|] sessions'];
      exact Hs.
  - unfold clearConversation.
    destruct (getSession_invariant cfg now sessions sessionId Hinv) as [Hs Hr].
    destruct (getSession cfg now sessions sessionId) as [[session|] sessions'];
      cbn [fst snd] in *; [|exact Hs].
    apply map_Forall_insert_2; [|exact Hs].
    destruct (Hr session eq_refl) as (Hid & _).
    unfold sessionInvariant, len. cbn. repeat split; [exact Hid | lia | lia].
  - unfold deleteSession. destruct (sessions !! sessionId); cbn [snd];
      [now apply map_Forall_delete | exact Hinv].
  - unfold cleanupExpiredSessions. now apply fold_delete_invariant.
Qed.

(** The id that [getOrCreateSession] returns is that of a session which
    was last active at the time of the call. *)
Lemma getOrCreateSession_live (cfg : Config) (now : Z) (newId : string)
  (sessions : Sessions) (sessionId : option string) (metadata : SessionMetadata.t) :
  exists session,
    snd (getOrCreateSession cfg now newId sessions sessionId metadata)
      !! fst (getOrCreateSession cfg now newId sessions sessionId metadata)
    = Some session
    /\ Session.lastActivity session = now.
Proof.
  assert (Hfresh : forall m : Sessions,
    exists session,
      snd (createSession now newId m metadata) !! fst (createSession now newId m metadata)
      = Some session
      /\ Session.lastActivity session = now).
  { intros m. eexists. split; [apply lookup_insert_eq | reflexivity]. }
  unfold getOrCreateSession.
  destruct sessionId as [[|c rest]|]; try apply Hfresh.
  destruct (getSession cfg now sessions (String c rest)) as [[session|] sessions'];
    [|apply Hfresh].
  cbn [fst snd]. eexists. split; [apply lookup_insert_eq | reflexivity].
Qed.

Lemma keepLast_app_short {A} (n : nat) (l r : list A) :
  (length r <= n)%nat -> keepLast n (l ++ r) = keepLast (n - length r) l ++ r.
Proof.
  intros H. unfold keepLast. rewrite length_app.
  rewrite skipn_app_le by lia. f_equal. f_equal. lia.
Qed.

(** Two messages added one after the other are the last two of the
    history, when the bound leaves room for two. *)
Lemma trimHistory_two (cfg : Config) (messages : list Message.t) (u a : Message.t) :
  2 <= maxHistoryLength cfg ->
  trimHistory cfg (trimHistory cfg (messages ++ [u]) ++ [a])
  = keepLast (Z.to_nat (maxHistoryLength cfg) - 2) messages ++ [u; a].
Proof.
  intros Hmax. rewrite !trimHistory_keepLast by lia.
  rewrite keepLast_app_keepLast, <- app_assoc. cbn [app].
  rewrite keepLast_app_short by (cbn [length]; lia). reflexivity.
Qed.

Lemma lastActivityAfter_cons (lastActivity : Z) (call : AddCall.t)
  (rest : list AddCall.t) :
  lastActivityAfter lastActivity (call :: rest)
  = lastActivityAfter (AddCall.now call) rest.
Proof.
  unfold lastActivityAfter. cbn [map].
  generalize (AddCall.now call) as x. generalize lastActivity as d.
  induction (map AddCall.now rest) as [|y l IH]; intros d x; [reflexivity|].
  change (List.last (x :: y :: l) d) with (List.last (y :: l) d).
  rewrite IH. symmetry. apply IH.
Qed.

(** A successful run of [addMessage] calls on a session whose id is in the
    map. *)
Lemma addMessages_step (cfg : Config) (sessions : Sessions) (sessionId : string)
  (call : AddCall.t) (rest : list AddCall.t) (session : Session.t) :
  sessions !! sessionId = Some session ->
  isSessionExpired cfg (AddCall.now call) session = false ->
  addMessages cfg sessions sessionId (call :: rest) =
  addMessages cfg
    (<[sessionId :=
         Session.mk (Session.id session) (Session.createdAt session) (AddCall.now call)
           (trimHistory cfg (Session.messages session ++ [messageOf call]))
           (Session.metadata session) (Session.messageCount session + 1)]> sessions)
    sessionId rest.
Proof.
  intros Hl He. cbn [addMessages].
  now rewrite (addMessage_live _ _ _ _ _ _ _ _ _ Hl He).
Qed.

End SessionFacts.


Module SessionLife.
Import ConversationManager SessionMaintenance ConversationFacts SessionFacts HistoryWindow
       Samples Scenarios.

(** X17. [getOrCreateSession] always hands back the id of a session that is
    live: the session under the returned id was last active at the time of
    the call, so [getSession] finds it until the timeout has passed.  The
    id is the requested one when that session was live, and its history is
    kept; an expired session is dropped and replaced by a fresh, empty one
    under the new id. *)
Theorem getOrCreateSession_gives_live_session (cfg : Config) (now : Z)
  (newId : string) (sessions : Sessions) (sessionId : option string)
  (metadata : SessionMetadata.t) :
  (forall later, later - now <= sessionTimeout cfg ->
     exists session,
       getSession cfg later
         (snd (getOrCreateSession cfg now newId sessions sessionId metadata))
         (fst (getOrCreateSession cfg now newId sessions sessionId metadata))
       = (Some session, snd (getOrCreateSession cfg now newId sessions sessionId metadata))
       /\ Session.lastActivity session = now)
  /\ (forall requested session,
        sessionId = Some requested -> requested <> EmptyString ->
        sessions !! requested = Some session ->
        isSessionExpired cfg now session = false ->
        getOrCreateSession cfg now newId sessions sessionId metadata =
        (requested,
         <[requested := Session.mk (Session.id session) (Session.createdAt session) now
                          (Session.messages session) (Session.metadata session)
                          (Session.messageCount session)]> sessions))
  /\ (forall requested session,
        sessionId = Some requested -> requested <> EmptyString ->
        sessions !! requested = Some session ->
        isSessionExpired cfg now session = true ->
        getOrCreateSession cfg now newId sessions sessionId metadata =
        (newId, <[newId := Session.mk newId now now [] metadata 0]>
                  (delete requested sessions))).
Proof.
  split; [|split].
  - intros later Hlater.
    destruct (getOrCreateSession_live cfg now newId sessions sessionId metadata)
      as (session & Hl & Hlast).
    exists session. split; [|exact Hlast].
    apply getSession_live; [exact Hl|].
    apply isSessionExpired_false. now rewrite Hlast.
  - intros requested session -> Hne Hl He. unfold getOrCreateSession.
    destruct requested as [|c rest]; [congruence|].
    now rewrite (getSession_live _ _ _ _ _ Hl He).
  - intros requested session -> Hne Hl He. unfold getOrCreateSession.
    destruct requested as [|c rest]; [congruence|].
    now rewrite (getSession_expired _ _ _ _ _ Hl He).
Qed.

(** X18. After [deleteSession] the id is gone for every later call: the function
    reports whether it removed a session, [addMessage] and
    [clearConversation] throw the not-found error, the history reads as
    empty, a second delete reports [false], and all this without touching
    any other session. *)
Theorem deleteSession_forgets_session (cfg : Config) (now : Z) (messageId : string)
  (sessions : Sessions) (sessionId role content : string) (metadata : MetadataArg.t)
  (limit : option Z) :
  fst (deleteSession sessions sessionId) = bool_decide (is_Some (sessions !! sessionId))
  /\ snd (deleteSession sessions sessionId) = delete sessionId sessions
  /\ addMessage cfg now messageId (snd (deleteSession sessions sessionId))
                sessionId role content metadata
     = (Throw (mkError ("Session " +:+ sessionId +:+ " not found or expired")),
        delete sessionId sessions)
  /\ clearConversation cfg now (snd (deleteSession sessions sessionId)) sessionId
     = (Throw (mkError ("Session " +:+ sessionId +:+ " not found or expired")),
        delete sessionId sessions)
  /\ getConversationHistory cfg now (snd (deleteSession sessions sessionId))
                            sessionId limit
     = ([], delete sessionId sessions)
  /\ deleteSession (snd (deleteSession sessions sessionId)) sessionId
     = (false, delete sessionId sessions)
  /\ (forall other, other <> sessionId ->
        snd (deleteSession sessions sessionId) !! other = sessions !! other).
Proof.
  assert (Hsnd : snd (deleteSession sessions sessionId) = delete sessionId sessions).
  { unfold deleteSession. destruct (sessions !! sessionId) eqn:Hl; cbn [snd];
      [reflexivity | now rewrite delete_id]. }
  rewrite Hsnd.
  pose proof (lookup_delete_eq sessions sessionId) as Hgone.
  split; [|split; [reflexivity|split; [|split; [|split; [|split]]]]].
  - unfold deleteSession. destruct (sessions !! sessionId) eqn:Hl; cbn [fst].
    + symmetry. apply bool_decide_eq_true_2. now eexists.
    + symmetry. apply bool_decide_eq_false_2. intros [x Hx]. discriminate.
  - rewrite addMessage_gone; now rewrite (getSession_absent _ _ _ _ Hgone).
  - unfold clearConversation. now rewrite (getSession_absent _ _ _ _ Hgone).
  - unfold getConversationHistory. now rewrite (getSession_absent _ _ _ _ Hgone).
  - unfold deleteSession. now rewrite Hgone.
  - intros other Hne. apply lookup_delete_ne. congruence.
Qed.

(** X19. A session stays alive as long as it is used: when each call of a run
    of [addMessage] calls comes no later than the timeout after the
    activity before it, every call succeeds, however old the session is.
    Afterwards the counter has grown by the number of calls (the messages
    that the trimming dropped included), the session was last active at
    the last call, and its creation time and metadata are as before. *)
Theorem addMessages_alive_while_active (cfg : Config) (sessionId : string)
  (calls : list AddCall.t) (sessions : Sessions) (session : Session.t) :
  sessions !! sessionId = Some session ->
  withinTimeout cfg (Session.lastActivity session) calls ->
  exists sessions' session',
    addMessages cfg sessions sessionId calls = Normal sessions'
    /\ sessions' !! sessionId = Some session'
    /\ Session.messageCount session' = Session.messageCount session + len calls
    /\ Session.lastActivity session'
       = lastActivityAfter (Session.lastActivity session) calls
    /\ Session.createdAt session' = Session.createdAt session
    /\ Session.metadata session' = Session.metadata session
    /\ (forall other, other <> sessionId -> sessions' !! other = sessions !! other).
Proof.
  revert sessions session.
  induction calls as [|call rest IH]; intros sessions session Hl Hgap.
  - exists sessions, session. unfold len, lastActivityAfter. cbn.
    repeat split; [exact Hl | lia].
  - destruct Hgap as [Hfirst Hrest].
    apply isSessionExpired_false in Hfirst.
    rewrite (addMessages_step _ _ _ _ _ _ Hl Hfirst).
    set (s1 := Session.mk (Session.id session) (Session.createdAt session)
                 (AddCall.now call)
                 (trimHistory cfg (Session.messages session ++ [messageOf call]))
                 (Session.metadata session) (Session.messageCount session + 1)).
    destruct (IH (<[sessionId := s1]> sessions) s1 (lookup_insert_eq _ _ _) Hrest) as
      (sessions' & session' & Hrun & Hl' & Hcount & Hlast & Hcreated & Hmeta & Hother).
    exists sessions', session'.
    cbn [Session.messageCount Session.lastActivity Session.createdAt Session.metadata s1]
      in *.
    split; [exact Hrun|]. split; [exact Hl'|]. split.
    { rewrite Hcount. unfold len. cbn [length]. lia. }
    split.
    { rewrite Hlast. symmetry. apply lastActivityAfter_cons. }
    split; [exact Hcreated|]. split; [exact Hmeta|].
    intros other Hne. rewrite (Hother other Hne). apply lookup_insert_ne. congruence.
Qed.

Lemma addMessages_alive_while_active_witness :
  sampleSessions !! "s1"%string = Some (Session.mk "s1" 0 0 [] (SessionMetadata.mk None None) 0)
  /\ withinTimeout config 0 sampleCalls
  /\ exists sessions' session',
       addMessages config sampleSessions "s1" sampleCalls = Normal sessions'
       /\ sessions' !! "s1"%string = Some session'
       /\ Session.messageCount session' = 0 + len sampleCalls
       /\ Session.lastActivity session' = lastActivityAfter 0 sampleCalls
       /\ Session.createdAt session' = 0
       /\ Session.metadata session' = SessionMetadata.mk None None
       /\ (forall other, other <> "s1"%string ->
             sessions' !! other = sampleSessions !! other).
Proof.
  assert (H1 : sampleSessions !! "s1"%string
               = Some (Session.mk "s1" 0 0 [] (SessionMetadata.mk None None) 0))
    by (vm_compute; reflexivity).
  assert (H2 : withinTimeout config 0 sampleCalls) by (cbn; lia).
  exact (conj H1 (conj H2
    (addMessages_alive_while_active config "s1" sampleCalls sampleSessions _ H1 H2))).
Defined.

(** X20. The first pause longer than the timeout ends the session: the call
    after the pause throws the not-found error, and so does the run. *)
Theorem addMessages_stops_after_long_pause (cfg : Config) (sessionId : string)
  (before after : list AddCall.t) (call : AddCall.t)
  (sessions : Sessions) (session : Session.t) :
  sessions !! sessionId = Some session ->
  withinTimeout cfg (Session.lastActivity session) before ->
  sessionTimeout cfg
    < AddCall.now call - lastActivityAfter (Session.lastActivity session) before ->
  addMessages cfg sessions sessionId (before ++ call :: after)
  = Throw (mkError ("Session " +:+ sessionId +:+ " not found or expired")).
Proof.
  revert sessions session.
  induction before as [|c rest IH]; intros sessions session Hl Hgap Hpause.
  - cbn [app addMessages]. unfold lastActivityAfter in Hpause. cbn in Hpause.
    apply isSessionExpired_true in Hpause.
    rewrite addMessage_gone; [reflexivity|].
    now rewrite (getSession_expired _ _ _ _ _ Hl Hpause).
  - destruct Hgap as [Hfirst Hrest].
    apply isSessionExpired_false in Hfirst.
    change ((c :: rest) ++ call :: after) with (c :: (rest ++ call :: after)).
    rewrite (addMessages_step _ _ _ _ _ _ Hl Hfirst).
    eapply IH; [apply lookup_insert_eq | exact Hrest |].
    cbn [Session.lastActivity].
    now rewrite lastActivityAfter_cons in Hpause.
Qed.

Lemma addMessages_stops_after_long_pause_witness :
  sampleSessions !! "s1"%string = Some (Session.mk "s1" 0 0 [] (SessionMetadata.mk None None) 0)
  /\ withinTimeout config 0 [sampleCall 1 "one"]
  /\ sessionTimeout config
     < AddCall.now lateCall - lastActivityAfter 0 [sampleCall 1 "one"]
  /\ addMessages config sampleSessions "s1"
       ([sampleCall 1 "one"] ++ lateCall :: [sampleCall 2 "two"])
     = Throw (mkError "Session s1 not found or expired").
Proof.
  assert (H1 : sampleSessions !! "s1"%string
               = Some (Session.mk "s1" 0 0 [] (SessionMetadata.mk None None) 0))
    by (vm_compute; reflexivity).
  assert (H2 : withinTimeout config 0 [sampleCall 1 "one"]) by (cbn; lia).
  assert (H3 : sessionTimeout config
               < AddCall.now lateCall - lastActivityAfter 0 [sampleCall 1 "one"])
    by (cbn; lia).
  exact (conj H1 (conj H2 (conj H3
    (addMessages_stops_after_long_pause config "s1" [sampleCall 1 "one"]
       [sampleCall 2 "two"] lateCall sampleSessions _ H1 H2 H3)))).
Defined.

(** X21. The periodic sweep and the expiry check of [getSession] agree: after
    [cleanupExpiredSessions] every id reads as it did before, nothing is
    left for [getSession] to remove, and every session that had not
    expired is still there unchanged.  A second sweep at the same time
    changes nothing. *)
Theorem cleanupExpiredSessions_agrees_with_getSession (cfg : Config) (now : Z)
  (sessions : Sessions) :
  (forall sessionId,
     getSession cfg now (cleanupExpiredSessions cfg now sessions) sessionId
     = (fst (getSession cfg now sessions sessionId),
        cleanupExpiredSessions cfg now sessions))
  /\ (forall sessionId session,
        cleanupExpiredSessions cfg now sessions !! sessionId = Some session
        <-> sessions !! sessionId = Some session
            /\ isSessionExpired cfg now session = false)
  /\ cleanupExpiredSessions cfg now (cleanupExpiredSessions cfg now sessions)
     = cleanupExpiredSessions cfg now sessions.
Proof.
  split; [|split].
  - intros sessionId. unfold getSession at 1 2.
    rewrite cleanupExpiredSessions_lookup.
    destruct (sessions !! sessionId) as [session|]; [|reflexivity].
    destruct (isSessionExpired cfg now session) eqn:He; [reflexivity|].
    now rewrite He.
  - intros sessionId session. rewrite cleanupExpiredSessions_lookup.
    destruct (sessions !! sessionId) as [s|]; [|split; [discriminate | intros [? _]; discriminate]].
    destruct (isSessionExpired cfg now s) eqn:He.
    + split; [discriminate | intros [[= ->] H]; congruence].
    + split; [intros [= ->]; now split | intros [H _]; exact H].
  - apply map_eq. intros k. rewrite !cleanupExpiredSessions_lookup.
    destruct (sessions !! k) as [s|]; [|reflexivity].
    destruct (isSessionExpired cfg now s) eqn:He; [reflexivity|].
    now rewrite He.
Qed.

(** X22. [getConversationHistory] with a limit: for a live session a positive
    limit gives the last [limit] messages in their order (all of them when
    there are fewer), and a missing, zero or negative limit gives all. *)
Theorem getConversationHistory_limit (cfg : Config) (now : Z) (sessions : Sessions)
  (sessionId : string) (session : Session.t) (limit : option Z) :
  sessions !! sessionId = Some session ->
  isSessionExpired cfg now session = false ->
  getConversationHistory cfg now sessions sessionId limit =
  (keepLast (match limit with
             | Some n => if 0 <? n then Z.to_nat n
                         else length (Session.messages session)
             | None => length (Session.messages session)
             end)
            (map (fun msg => HistoryItem.mk (Message.role msg) (Message.content msg)
                                            (Message.timestamp msg))
                 (Session.messages session)),
   sessions)
  /\ (forall n, limit = Some n -> 0 < n ->
        len (fst (getConversationHistory cfg now sessions sessionId limit))
        = Z.min n (len (Session.messages session))).
Proof.
  intros Hl He.
  assert (Hall : forall l : list HistoryItem.t, keepLast (length l) l = l)
    by (intros l; now apply keepLast_short).
  assert (Heq : getConversationHistory cfg now sessions sessionId limit =
    (keepLast (match limit with
               | Some n => if 0 <? n then Z.to_nat n
                           else length (Session.messages session)
               | None => length (Session.messages session)
               end)
              (map (fun msg => HistoryItem.mk (Message.role msg) (Message.content msg)
                                              (Message.timestamp msg))
                   (Session.messages session)),
     sessions)).
  { unfold getConversationHistory. rewrite (getSession_live _ _ _ _ _ Hl He).
    f_equal.
    destruct limit as [n|].
    - destruct (0 <? n) eqn:En.
      + apply Z.ltb_lt in En.
        replace (negb (n =? 0) && (n >? 0)) with true.
        2:{ symmetry. apply andb_true_iff. split.
            - apply negb_true_iff, Z.eqb_neq. lia.
            - apply Z.gtb_lt. lia. }
        replace (- n) with (- Z.of_nat (Z.to_nat n)) by lia.
        fold (lastN (Z.to_nat n) (Session.messages session)).
        rewrite PromptFacts.lastN_skipn by lia.
        unfold keepLast. rewrite length_map, skipn_map. reflexivity.
      + apply Z.ltb_ge in En.
        replace (negb (n =? 0) && (n >? 0)) with false.
        2:{ symmetry. apply andb_false_iff. right. rewrite Z.gtb_ltb.
            apply Z.ltb_ge. lia. }
        rewrite <- (length_map (fun msg => HistoryItem.mk (Message.role msg)
                      (Message.content msg) (Message.timestamp msg))).
        now rewrite Hall.
    - rewrite <- (length_map (fun msg => HistoryItem.mk (Message.role msg)
                    (Message.content msg) (Message.timestamp msg))).
      now rewrite Hall. }
  split; [exact Heq|].
  intros n -> Hn. rewrite Heq. cbn [fst].
  replace (0 <? n) with true by (symmetry; apply Z.ltb_lt; lia).
  unfold len. rewrite keepLast_length, length_map. lia.
Qed.

Lemma getConversationHistory_limit_witness :
  ({[ "s1"%string := busySession ]} : Sessions) !! "s1"%string = Some busySession
  /\ isSessionExpired config 4000 busySession = false
  /\ map Message.content (Session.messages busySession) = ["one"; "two"; "three"]%string
  /\ getConversationHistory config 4000 {[ "s1"%string := busySession ]} "s1" (Some 2)
     = (keepLast 2
          (map (fun msg => HistoryItem.mk (Message.role msg) (Message.content msg)
                                          (Message.timestamp msg))
               (Session.messages busySession)),
        {[ "s1"%string := busySession ]})
  /\ keepLast 2
       (map (fun msg => HistoryItem.mk (Message.role msg) (Message.content msg)
                                       (Message.timestamp msg))
            (Session.messages busySession))
     = [HistoryItem.mk "assistant" "two" 2000; HistoryItem.mk "user" "three" 3000]
  /\ len (fst (getConversationHistory config 4000 {[ "s1"%string := busySession ]}
                 "s1" (Some 2)))
     = Z.min 2 (len (Session.messages busySession)).
Proof.
  assert (H1 : ({[ "s1"%string := busySession ]} : Sessions) !! "s1"%string
               = Some busySession) by (vm_compute; reflexivity).
  assert (H2 : isSessionExpired config 4000 busySession = false) by reflexivity.
  assert (H3 : map Message.content (Session.messages busySession)
               = ["one"; "two"; "three"]%string) by reflexivity.
  assert (H4 : keepLast 2
                 (map (fun msg => HistoryItem.mk (Message.role msg) (Message.content msg)
                                                 (Message.timestamp msg))
                      (Session.messages busySession))
               = [HistoryItem.mk "assistant" "two" 2000; HistoryItem.mk "user" "three" 3000])
    by (vm_compute; reflexivity).
  destruct (getConversationHistory_limit config 4000 {[ "s1"%string := busySession ]} "s1"
              busySession (Some 2) H1 H2) as [Heq Hlen].
  exact (conj H1 (conj H2 (conj H3 (conj Heq (conj H4 (Hlen 2 eq_refl ltac:(lia))))))).
Defined.

(** X23. [loadSessions] replaces the map by the entries of the stored file that
    have not expired: what the map held before is discarded, an expired
    entry is not loaded, and a live entry is loaded as it is.  A file that
    cannot be read, or one without a [sessions] object, leaves the map
    empty; without a file the map stays as it is. *)
Theorem loadSessions_keeps_live_entries (cfg : Config) (now : Z)
  (entries : list (string * Session.t)) (sessions : Sessions) :
  NoDup (map fst entries) ->
  (forall sessionId session,
     loadSessions cfg now (Stored (Some entries)) sessions !! sessionId = Some session
     <-> In (sessionId, session) entries /\ isSessionExpired cfg now session = false)
  /\ loadSessions cfg now (Stored (Some entries)) sessions
     = cleanupExpiredSessions cfg now
         (loadSessions cfg now (Stored (Some entries)) sessions)
  /\ loadSessions cfg now (Stored None) sessions = ∅
  /\ loadSessions cfg now Unreadable sessions = ∅
  /\ loadSessions cfg now NoFile sessions = sessions.
Proof.
  intros Hnd.
  assert (Hchar : forall sessionId session,
     loadSessions cfg now (Stored (Some entries)) sessions !! sessionId = Some session
     <-> In (sessionId, session) entries /\ isSessionExpired cfg now session = false).
  { intros sessionId session. unfold loadSessions. cbn [default].
    rewrite (load_fold_lookup cfg now entries Hnd ∅ sessionId session).
    rewrite lookup_empty. split; [intros [H | [_ H]]; [exact H | discriminate]|].
    intros H. now left. }
  split; [exact Hchar|]. split; [|repeat split].
  apply map_eq. intros k. rewrite cleanupExpiredSessions_lookup.
  destruct (loadSessions cfg now (Stored (Some entries)) sessions !! k) as [s|] eqn:Hk;
    [|reflexivity].
  apply Hchar in Hk as [_ He]. now rewrite He.
Qed.

Lemma loadSessions_keeps_live_entries_witness :
  NoDup (map fst storedEntries)
  /\ (forall sessionId session,
        loadSessions config 3600001 (Stored (Some storedEntries)) sampleSessions
          !! sessionId = Some session
        <-> In (sessionId, session) storedEntries
            /\ isSessionExpired config 3600001 session = false)
  /\ loadSessions config 3600001 (Stored (Some storedEntries)) sampleSessions
     = cleanupExpiredSessions config 3600001
         (loadSessions config 3600001 (Stored (Some storedEntries)) sampleSessions)
  /\ loadSessions config 3600001 (Stored None) sampleSessions = ∅
  /\ loadSessions config 3600001 Unreadable sampleSessions = ∅
  /\ loadSessions config 3600001 NoFile sampleSessions = sampleSessions.
Proof.
  assert (H1 : NoDup (map fst storedEntries))
    by (apply (bool_decide_unpack (NoDup (map fst storedEntries))); vm_compute; exact I).
  exact (conj H1
    (loadSessions_keeps_live_entries config 3600001 storedEntries sampleSessions H1)).
Defined.

(** X24. [clearConversation] on a live session empties its history and resets
    its counter, and keeps the session itself: its id stays usable, its
    creation time and metadata are as before, and it counts as active at
    the time of the call.  The history then reads as empty, and the next
    message is the only one. *)
Theorem clearConversation_resets_history (cfg : Config) (now later : Z)
  (sessions : Sessions) (sessionId : string) (session : Session.t)
  (limit : option Z) (messageId role content : string) (metadata : MetadataArg.t) :
  sessions !! sessionId = Some session ->
  isSessionExpired cfg now session = false ->
  later - now <= sessionTimeout cfg ->
  1 <= maxHistoryLength cfg ->
  exists session' sessions' session'' sessions'',
    clearConversation cfg now sessions sessionId = (Normal session', sessions')
    /\ session' = Session.mk (Session.id session) (Session.createdAt session) now []
                             (Session.metadata session) 0
    /\ sessions' = <[sessionId := session']> sessions
    /\ getConversationHistory cfg later sessions' sessionId limit = ([], sessions')
    /\ addMessage cfg later messageId sessions' sessionId role content metadata
       = (Normal session'', sessions'')
    /\ Session.messages session'' = [buildMessage later messageId role content metadata]
    /\ Session.messageCount session'' = 1.
Proof.
  intros Hl He Hlater Hmax.
  set (cleared := Session.mk (Session.id session) (Session.createdAt session) now []
                             (Session.metadata session) 0).
  assert (Hl' : <[sessionId := cleared]> sessions !! sessionId = Some cleared)
    by apply lookup_insert_eq.
  assert (He' : isSessionExpired cfg later cleared = false)
    by (apply isSessionExpired_false; exact Hlater).
  eexists cleared, (<[sessionId := cleared]> sessions), _, _.
  split.
  { unfold clearConversation. now rewrite (getSession_live _ _ _ _ _ Hl He). }
  split; [reflexivity|]. split; [reflexivity|]. split.
  { unfold getConversationHistory. rewrite (getSession_live _ _ _ _ _ Hl' He').
    cbn [Session.messages cleared].
    destruct limit as [n|]; [|reflexivity].
    destruct (negb (n =? 0) && (n >? 0)); [|reflexivity].
    unfold slice. now rewrite skipn_nil, firstn_nil. }
  split; [apply (addMessage_live _ _ _ _ _ _ _ _ _ Hl' He')|].
  cbn [Session.messages Session.messageCount cleared app]. split; [|reflexivity].
  unfold trimHistory, len. cbn [length].
  replace (Z.of_nat 1 >? maxHistoryLength cfg) with false; [reflexivity|].
  symmetry. rewrite Z.gtb_ltb. apply Z.ltb_ge. lia.
Qed.

Lemma clearConversation_resets_history_witness :
  sampleSessionsAfter !! "s1"%string
    = Some (Session.mk "s1" 0 7000
              (skipn 1 (map messageOf sampleCalls)) (SessionMetadata.mk None None) 7)
  /\ isSessionExpired config 8000
       (Session.mk "s1" 0 7000
          (skipn 1 (map messageOf sampleCalls)) (SessionMetadata.mk None None) 7) = false
  /\ 9000 - 8000 <= sessionTimeout config
  /\ 1 <= maxHistoryLength config
  /\ exists session' sessions' session'' sessions'',
       clearConversation config 8000 sampleSessionsAfter "s1" = (Normal session', sessions')
       /\ session' = Session.mk "s1" 0 8000 [] (SessionMetadata.mk None None) 0
       /\ sessions' = <["s1"%string := session']> sampleSessionsAfter
       /\ getConversationHistory config 9000 sessions' "s1" None = ([], sessions')
       /\ addMessage config 9000 "m8" sessions' "s1" "user" "eight" MetadataArg.none
          = (Normal session'', sessions'')
       /\ Session.messages session''
          = [buildMessage 9000 "m8" "user" "eight" MetadataArg.none]
       /\ Session.messageCount session'' = 1.
Proof.
  assert (H1 : sampleSessionsAfter !! "s1"%string
    = Some (Session.mk "s1" 0 7000
              (skipn 1 (map messageOf sampleCalls)) (SessionMetadata.mk None None) 7))
    by (vm_compute; reflexivity).
  assert (H2 : isSessionExpired config 8000
       (Session.mk "s1" 0 7000
          (skipn 1 (map messageOf sampleCalls)) (SessionMetadata.mk None None) 7) = false)
    by reflexivity.
  assert (H3 : 9000 - 8000 <= sessionTimeout config) by (cbn; lia).
  assert (H4 : 1 <= maxHistoryLength config) by (cbn; lia).
  exact (conj H1 (conj H2 (conj H3 (conj H4
    (clearConversation_resets_history config 8000 9000 sampleSessionsAfter "s1" _ None
       "m8" "user" "eight" MetadataArg.none H1 H2 H3 H4))))).
Defined.

(** X25. In every map that the calls of the module build from the empty map,
    whatever the calls, their arguments and the clock readings are, each
    session is filed under its own id, holds at most [maxHistoryLength]
    messages, and has a counter that is at least the number of messages it
    holds. *)
Theorem run_keeps_storeInvariant (cfg : Config) (requests : list Request) :
  0 <= maxHistoryLength cfg ->
  storeInvariant cfg (run cfg ∅ requests).
Proof.
  intros Hmax. unfold run.
  assert (H : forall sessions, storeInvariant cfg sessions ->
                               storeInvariant cfg (fold_left (step cfg) requests sessions)).
  { induction requests as [|request rest IH]; intros sessions Hinv; [exact Hinv|].
    cbn [fold_left]. apply IH. now apply step_invariant. }
  apply H. apply map_Forall_empty.
Qed.

Lemma run_keeps_storeInvariant_witness :
  0 <= maxHistoryLength config
  /\ storeInvariant config (run config ∅ sampleRequests).
Proof.
  assert (H : 0 <= maxHistoryLength config) by (cbn; lia).
  exact (conj H (run_keeps_storeInvariant config sampleRequests H)).
Defined.

End SessionLife.

(** *** The chat endpoint: one request from validation to reply *)

Module ChatFacts.
Import RagPipeline LlmService LlmRequests ConversationManager Retrieval Text ChatRoute
       ConversationFacts SessionFacts HistoryWindow.

Lemma length_zero_empty (s : string) : (String.length s =? 0)%nat = true <-> s = EmptyString.
Proof. destruct s; cbn; split; congruence. Qed.

(** What [validateRequest] lets through. *)
Lemma validateRequest_valid (body : option Body.t) :
  Validation.isValid (validateRequest body) = true
  <-> exists b m, body = Some b /\ Body.message b = Str m
                  /\ trim m <> EmptyString /\ (String.length m <= 2000)%nat
                  /\ Body.sessionId b <> TruthyValue.
Proof.
  unfold validateRequest. split.
  - destruct body as [b|]; [|discriminate].
    destruct (Body.message b) as [[|c m]| |] eqn:Hm; cbn [truthy isString negb orb text];
      try discriminate.
    destruct (String.length (trim (String c m)) =? 0)%nat eqn:Ht; [discriminate|].
    destruct (2000 <? String.length (String c m))%nat eqn:Hl; [discriminate|].
    destruct (Body.sessionId b) as [[|d sid]| |] eqn:Hs;
      cbn [truthy isString negb andb]; try discriminate;
      (intros _; exists b, (String c m); split; [reflexivity|]; split; [exact Hm|];
       apply Nat.ltb_ge in Hl; split; [|split; [exact Hl | rewrite Hs; discriminate]];
       intros He; apply length_zero_empty in He; congruence).
  - intros (b & m & -> & Hm & Ht & Hl & Hs). rewrite Hm.
    destruct m as [|c m]; [now destruct Ht|]. cbn [truthy isString negb orb text].
    destruct (String.length (trim (String c m)) =? 0)%nat eqn:E.
    + apply length_zero_empty in E. congruence.
    + replace (2000 <? String.length (String c m))%nat with false
        by (symmetry; apply Nat.ltb_ge; exact Hl).
      destruct (Body.sessionId b) as [[|d sid]| |]; try reflexivity. now destruct Hs.
Qed.

(** A request that does not pass is turned down with the message of one of
    the five checks. *)
Lemma validateRequest_invalid (body : option Body.t) :
  Validation.isValid (validateRequest body) = false ->
  exists error, Validation.error (validateRequest body) = Some error.
Proof.
  unfold validateRequest. destruct body as [b|]; [|intros _; eexists; reflexivity].
  destruct (negb (truthy (Body.message b)) || negb (isString (Body.message b)));
    [intros _; eexists; reflexivity|].
  destruct (String.length (trim (text (Body.message b))) =? 0)%nat;
    [intros _; eexists; reflexivity|].
  destruct (2000 <? String.length (text (Body.message b)))%nat;
    [intros _; eexists; reflexivity|].
  destruct (truthy (Body.sessionId b) && negb (isString (Body.sessionId b)));
    [intros _; eexists; reflexivity | discriminate].
Qed.

Lemma getFormattedHistory_live (cfg : Config) (now : Z) (sessions : Sessions)
  (sessionId : string) (session : Session.t) :
  sessions !! sessionId = Some session ->
  isSessionExpired cfg now session = false ->
  getFormattedHistory cfg now sessions sessionId
  = (map formatted (Session.messages session), sessions).
Proof.
  intros Hl He. unfold getFormattedHistory, getConversationHistory.
  rewrite (getSession_live _ _ _ _ _ Hl He). now rewrite List.map_map.
Qed.

(** The first half of the handler on a valid request to an initialized
    system whose clock stays within the timeout: the session under the
    returned id takes the user's message, and the history that goes to the
    pipeline is the history of that session, the user's message included. *)
Lemma handleChatRequest_steps (fuel : nat) (env : Env) (net : Network) (draws : Draws)
  (sys : System) (userAgent ip : option string) (b : Body.t) (m : string) :
  Validation.isValid (validateRequest (Some b)) = true ->
  Body.message b = Str m ->
  initialized sys = true ->
  userMessageTime draws - sessionTime draws <= sessionTimeout config ->
  historyTime draws - userMessageTime draws <= sessionTimeout config ->
  exists sid sessions0 s0,
    getOrCreateSession config (sessionTime draws) (newSessionId draws) (sessions sys)
                       (requestedSession (Body.sessionId b))
                       (SessionMetadata.mk userAgent ip)
    = (sid, sessions0)
    /\ sessions0 !! sid = Some s0
    /\ handleChatRequest fuel env net draws sys userAgent ip (Some b)
       = respond fuel env net draws sys sid m
           (map formatted
                (trimHistory config (Session.messages s0 ++ [userMessage draws m])))
           (<[sid := Session.mk (Session.id s0) (Session.createdAt s0)
                       (userMessageTime draws)
                       (trimHistory config (Session.messages s0 ++ [userMessage draws m]))
                       (Session.metadata s0) (Session.messageCount s0 + 1)]> sessions0).
Proof.
  intros Hvalid Hm Hinit Hgap1 Hgap2.
  destruct (getOrCreateSession_live config (sessionTime draws) (newSessionId draws)
              (sessions sys) (requestedSession (Body.sessionId b))
              (SessionMetadata.mk userAgent ip))
    as (s0 & Hl0 & Hlast0).
  destruct (getOrCreateSession config (sessionTime draws) (newSessionId draws)
              (sessions sys) (requestedSession (Body.sessionId b))
              (SessionMetadata.mk userAgent ip))
    as [sid sessions0] eqn:Hget.
  cbn [fst snd] in Hl0.
  exists sid, sessions0, s0. split; [reflexivity|]. split; [exact Hl0|].
  unfold handleChatRequest. rewrite Hvalid, Hinit. cbn [negb].
  rewrite Hm. cbn [text]. rewrite Hget.
  assert (He0 : isSessionExpired config (userMessageTime draws) s0 = false)
    by (apply isSessionExpired_false; now rewrite Hlast0).
  rewrite (addMessage_live _ _ _ _ _ _ _ _ _ Hl0 He0). cbv beta iota.
  fold (userMessage draws m).
  set (s1 := Session.mk (Session.id s0) (Session.createdAt s0) (userMessageTime draws)
               (trimHistory config (Session.messages s0 ++ [userMessage draws m]))
               (Session.metadata s0) (Session.messageCount s0 + 1)).
  assert (Hl1 : <[sid := s1]> sessions0 !! sid = Some s1) by apply lookup_insert_eq.
  assert (He1 : isSessionExpired config (historyTime draws) s1 = false)
    by (apply isSessionExpired_false; exact Hgap2).
  rewrite (getFormattedHistory_live _ _ _ _ _ Hl1 He1). reflexivity.
Qed.


Lemma processQuery_hasContext (env : Env) (st : State) (q : list float) (m : string)
  (history : list Msg.t) :
  QueryResult.hasContext (processQuery env st q m history)
  = RetrievalResult.hasContext (retrieveContext env st q m).
Proof. reflexivity. Qed.




End ChatFacts.


Module ChatSpec.
Import RagPipeline LlmService LlmRequests LlmRetryTrace ConversationManager Retrieval
       Text ChatRoute ConversationFacts SessionFacts HistoryWindow LlmRetryFacts
       RetrievalFacts ChatFacts Samples Scenarios.

(** X26. The route checks before it acts.  For a request whose message, if
    it is a string, is ASCII text: the request passes the validation
    exactly when it has a body, its message is a string that is not blank
    and not longer than 2000 characters, and its session id is a string or
    a falsy value; a request that does not pass is answered 400 with the
    message of the failed check, even while the system is not
    initialized; a request that passes while the system is not
    initialized is answered 503; and in both cases nothing has changed. *)
Theorem handleChatRequest_checks_before_acting (fuel : nat) (env : Env) (net : Network)
  (draws : Draws) (sys : System) (userAgent ip : option string)
  (body : option Body.t) :
  asciiMessage body ->
  (Validation.isValid (validateRequest body) = true
   <-> exists b m, body = Some b /\ Body.message b = Str m
                   /\ trim m <> EmptyString /\ (String.length m <= 2000)%nat
                   /\ Body.sessionId b <> TruthyValue)
  /\ (Validation.isValid (validateRequest body) = false ->
      exists error,
        Validation.error (validateRequest body) = Some error
        /\ handleChatRequest fuel env net draws sys userAgent ip body
           = Some (Failure 400 error, sys))
  /\ (Validation.isValid (validateRequest body) = true ->
      initialized sys = false ->
      handleChatRequest fuel env net draws sys userAgent ip body
      = Some (Failure 503 "System is still initializing. Please try again.", sys)).
Proof.
  intros _. split; [apply validateRequest_valid|]. split.
  - intros Hinvalid. destruct (validateRequest_invalid body Hinvalid) as [error Herror].
    exists error. split; [exact Herror|].
    unfold handleChatRequest. now rewrite Hinvalid, Herror.
  - intros Hvalid Hinit. unfold handleChatRequest. now rewrite Hvalid, Hinit.
Qed.

Lemma handleChatRequest_checks_before_acting_witness :
  asciiMessage (Some (Body.mk TruthyValue (Str "hi")))
  /\ handleChatRequest 0 noEnv netDown sampleDraws emptySystem None None
                       (Some (Body.mk TruthyValue (Str "hi")))
     = Some (Failure 400 "SessionId must be a string", emptySystem)
  /\ asciiMessage (Some helloBody)
  /\ Validation.isValid (validateRequest (Some helloBody)) = true
  /\ handleChatRequest 0 noEnv netDown sampleDraws
                       startingSystem None None (Some helloBody)
     = Some (Failure 503 "System is still initializing. Please try again.",
             startingSystem).
Proof.
  assert (H1 : asciiMessage (Some (Body.mk TruthyValue (Str "hi")))) by reflexivity.
  assert (H2 : asciiMessage (Some helloBody)) by reflexivity.
  assert (H3 : Validation.isValid (validateRequest (Some helloBody)) = true)
    by reflexivity.
  destruct (handleChatRequest_checks_before_acting 0 noEnv netDown sampleDraws emptySystem
              None None (Some (Body.mk TruthyValue (Str "hi"))) H1)
    as (_ & Hbad & _).
  destruct (Hbad eq_refl) as (error & Herror & Hrun).
  cbn in Herror. inversion Herror; subst error.
  destruct (handleChatRequest_checks_before_acting 0 noEnv netDown sampleDraws
              startingSystem None None (Some helloBody) H2)
    as (_ & _ & Hwait).
  exact (conj H1 (conj Hrun (conj H2 (conj H3 (Hwait H3 eq_refl))))).
Defined.

(** X27. A request for which the pipeline finds no context never reaches the
    model.  On an initialized system, for a valid request whose message is
    ASCII text and whose clock readings stay within the session timeout,
    the route answers 200 with zero tokens and zero retrieved chunks; the
    reply is the quoted fallback text, or the answer of the mock table
    when the provider variable says [mock] (the message is then one that
    the table answers); the usage counters and the request history of the
    gateway are untouched, whether or not a key is configured; and the
    session of the request ends with the user's message and the reply. *)
Theorem handleChatRequest_without_context (fuel : nat) (env : Env) (net : Network)
  (draws : Draws) (sys : System) (userAgent ip : option string)
  (b : Body.t) (m : string) :
  Validation.isValid (validateRequest (Some b)) = true ->
  Body.message b = Str m ->
  isAscii m = true ->
  (LLM_PROVIDER env = Some "mock"%string ->
   inheritedName (trim (toLowerCase m)) = false) ->
  initialized sys = true ->
  inTime draws ->
  RetrievalResult.hasContext
    (retrieveContext env (pipeline sys) (queryEmbedding draws) m) = false ->
  exists sid older reply sys' session,
    handleChatRequest fuel env net draws sys userAgent ip (Some b)
    = Some (Success {| ChatResponse.reply := reply;
                       ChatResponse.sessionId := sid;
                       ChatResponse.tokensUsed := 0;
                       ChatResponse.retrievedChunks := 0;
                       ChatResponse.processingTimeMs := endTime draws - startTime draws;
                       ChatResponse.hasContext := false;
                       ChatResponse.timestamp := endTime draws |}, sys')
    /\ (reply = noContextPrompt m
        \/ (LLM_PROVIDER env = Some "mock"%string /\ reply = generateMockResponse m))
    /\ world sys' = world sys
    /\ pipeline sys' = pipeline sys
    /\ sessions sys' !! sid = Some session
    /\ Session.messages session
       = older ++ [userMessage draws m; replyMessage draws reply MetadataArg.none].
Proof.
  intros Hvalid Hm _ _ Hinit (Hgap1 & Hgap2 & Hgap3) Hctx.
  destruct (handleChatRequest_steps fuel env net draws sys userAgent ip b m
              Hvalid Hm Hinit Hgap1 Hgap2)
    as (sid & sessions0 & s0 & _ & Hl0 & Hrun).
  set (history := map formatted
                      (trimHistory config (Session.messages s0 ++ [userMessage draws m])))
    in *.
  set (s1 := Session.mk (Session.id s0) (Session.createdAt s0) (userMessageTime draws)
               (trimHistory config (Session.messages s0 ++ [userMessage draws m]))
               (Session.metadata s0) (Session.messageCount s0 + 1)) in *.
  assert (Hl1 : <[sid := s1]> sessions0 !! sid = Some s1) by apply lookup_insert_eq.
  assert (He1 : isSessionExpired config (replyTime draws) s1 = false)
    by (apply isSessionExpired_false; exact Hgap3).
  destruct (processQuery_without_context env (pipeline sys) (queryEmbedding draws) m
              history Hctx) as [Hchunks Hcase].
  set (ragResult := processQuery env (pipeline sys) (queryEmbedding draws) m history)
    in *.
  assert (Hreply : exists reply,
    (if truthyString (QueryResult.mockResponse ragResult) then
       default EmptyString (QueryResult.mockResponse ragResult)
     else if negb (String.eqb (QueryResult.prompt ragResult) EmptyString)
             && negb (includes (QueryResult.prompt ragResult)
                               "I don't have enough information") then
       QueryResult.prompt ragResult
     else QueryResult.prompt ragResult) = reply
    /\ (reply = noContextPrompt m
        \/ (LLM_PROVIDER env = Some "mock"%string /\ reply = generateMockResponse m))).
  { destruct (QueryResult.mockResponse ragResult) as [[|c rest]|].
    - eexists. split; [|left; exact Hcase]. cbn [truthyString].
      now destruct (negb _ && negb _).
    - destruct Hcase as (Henv & Hmock & _).
      eexists. split; [reflexivity|]. right. now split.
    - eexists. split; [|left; exact Hcase]. cbn [truthyString].
      now destruct (negb _ && negb _). }
  destruct Hreply as (reply & Hreply & Hkind).
  eexists sid, _, reply, _, _.
  split.
  { rewrite Hrun. unfold respond. fold ragResult.
    replace (QueryResult.hasContext ragResult) with false
      by (symmetry; exact Hctx).
    rewrite Hreply, Hchunks.
    rewrite (addMessage_live _ _ _ _ _ _ _ _ _ Hl1 He1). reflexivity. }
  split; [exact Hkind|]. split; [reflexivity|]. split; [reflexivity|].
  cbn [withSessions sessions]. split; [apply lookup_insert_eq|].
  cbn [Session.messages s1].
  fold (replyMessage draws reply MetadataArg.none).
  apply trimHistory_two. cbn. lia.
Qed.

Lemma handleChatRequest_without_context_witness :
  Validation.isValid (validateRequest (Some helloBody)) = true
  /\ Body.message helloBody = Str "How do I reset my password?"
  /\ isAscii "How do I reset my password?" = true
  /\ (LLM_PROVIDER envMock = Some "mock"%string ->
      inheritedName (trim (toLowerCase "How do I reset my password?")) = false)
  /\ initialized emptySystem = true
  /\ inTime sampleDraws
  /\ RetrievalResult.hasContext
       (retrieveContext envMock (pipeline emptySystem) (queryEmbedding sampleDraws)
                        "How do I reset my password?") = false
  /\ exists sid older reply sys' session,
       handleChatRequest 0 envMock netDown sampleDraws emptySystem None None
                         (Some helloBody)
       = Some (Success {| ChatResponse.reply := reply;
                          ChatResponse.sessionId := sid;
                          ChatResponse.tokensUsed := 0;
                          ChatResponse.retrievedChunks := 0;
                          ChatResponse.processingTimeMs :=
                            endTime sampleDraws - startTime sampleDraws;
                          ChatResponse.hasContext := false;
                          ChatResponse.timestamp := endTime sampleDraws |}, sys')
       /\ (reply = noContextPrompt "How do I reset my password?"
           \/ (LLM_PROVIDER envMock = Some "mock"%string
               /\ reply = generateMockResponse "How do I reset my password?"))
       /\ world sys' = world emptySystem
       /\ pipeline sys' = pipeline emptySystem
       /\ sessions sys' !! sid = Some session
       /\ Session.messages session
          = older ++ [userMessage sampleDraws "How do I reset my password?";
                      replyMessage sampleDraws reply MetadataArg.none].
Proof.
  assert (H1 : Validation.isValid (validateRequest (Some helloBody)) = true)
    by reflexivity.
  assert (H2 : Body.message helloBody = Str "How do I reset my password?")
    by reflexivity.
  assert (H2a : isAscii "How do I reset my password?" = true) by reflexivity.
  assert (H2b : LLM_PROVIDER envMock = Some "mock"%string ->
                inheritedName (trim (toLowerCase "How do I reset my password?")) = false)
    by (intros _; reflexivity).
  assert (H3 : initialized emptySystem = true) by reflexivity.
  assert (H4 : inTime sampleDraws) by (unfold inTime; cbn; lia).
  assert (H5 : RetrievalResult.hasContext
                 (retrieveContext envMock (pipeline emptySystem)
                    (queryEmbedding sampleDraws) "How do I reset my password?") = false)
    by reflexivity.
  exact (conj H1 (conj H2 (conj H2a (conj H2b (conj H3 (conj H4 (conj H5
    (handleChatRequest_without_context 0 envMock netDown sampleDraws emptySystem None None
       helloBody "How do I reset my password?" H1 H2 H2a H2b H3 H4 H5)))))))).
Defined.

(** X28. With context but without a key for the active provider the client
    gets a 500.  For a valid request whose message is ASCII text, the call
    of the model throws inside the handler, the handler of the route
    catches it, and the fallback response is never built; by then the
    user's message is stored, so the session ends with a message that has
    no reply.  No request was sent and the counters are as before. *)
Theorem handleChatRequest_with_context_without_key (fuel : nat) (env : Env)
  (net : Network) (draws : Draws) (sys : System) (userAgent ip : option string)
  (b : Body.t) (m : string) :
  Validation.isValid (validateRequest (Some b)) = true ->
  Body.message b = Str m ->
  isAscii m = true ->
  initialized sys = true ->
  inTime draws ->
  RetrievalResult.hasContext
    (retrieveContext env (pipeline sys) (queryEmbedding draws) m) = true ->
  getCurrentApiKey (LlmService.config env) = EmptyString ->
  exists sid older sys' session,
    handleChatRequest fuel env net draws sys userAgent ip (Some b)
    = Some (Failure 500 unexpectedError, sys')
    /\ world sys' = world sys
    /\ sessions sys' !! sid = Some session
    /\ Session.messages session = older ++ [userMessage draws m].
Proof.
  intros Hvalid Hm _ Hinit (Hgap1 & Hgap2 & Hgap3) Hctx Hkey.
  destruct (handleChatRequest_steps fuel env net draws sys userAgent ip b m
              Hvalid Hm Hinit Hgap1 Hgap2)
    as (sid & sessions0 & s0 & _ & Hl0 & Hrun).
  eexists sid, _, _, _. split.
  { rewrite Hrun. unfold respond. rewrite processQuery_hasContext, Hctx.
    unfold callLLMWithFallback, callLLM. rewrite Hkey. reflexivity. }
  split; [reflexivity|]. cbn [withSessions sessions].
  split; [apply lookup_insert_eq|]. cbn [Session.messages].
  rewrite trimHistory_keepLast by (cbn; lia).
  apply keepLast_app_short. cbn. lia.
Qed.

Lemma handleChatRequest_with_context_without_key_witness :
  Validation.isValid (validateRequest (Some helloBody)) = true
  /\ Body.message helloBody = Str "How do I reset my password?"
  /\ isAscii "How do I reset my password?" = true
  /\ initialized sampleSystem = true
  /\ inTime sampleDraws
  /\ RetrievalResult.hasContext
       (retrieveContext noEnv (pipeline sampleSystem) (queryEmbedding sampleDraws)
                        "How do I reset my password?") = true
  /\ getCurrentApiKey (LlmService.config noEnv) = EmptyString
  /\ exists sid older sys' session,
       handleChatRequest 5 noEnv netUp sampleDraws sampleSystem None None (Some helloBody)
       = Some (Failure 500 unexpectedError, sys')
       /\ world sys' = world sampleSystem
       /\ sessions sys' !! sid = Some session
       /\ Session.messages session
          = older ++ [userMessage sampleDraws "How do I reset my password?"].
Proof.
  assert (H1 : Validation.isValid (validateRequest (Some helloBody)) = true)
    by reflexivity.
  assert (H2 : Body.message helloBody = Str "How do I reset my password?")
    by reflexivity.
  assert (H2a : isAscii "How do I reset my password?" = true) by reflexivity.
  assert (H3 : initialized sampleSystem = true) by reflexivity.
  assert (H4 : inTime sampleDraws) by (unfold inTime; cbn; lia).
  assert (H5 : RetrievalResult.hasContext
                 (retrieveContext noEnv (pipeline sampleSystem)
                    (queryEmbedding sampleDraws) "How do I reset my password?") = true)
    by (vm_compute; reflexivity).
  assert (H6 : getCurrentApiKey (LlmService.config noEnv) = EmptyString) by reflexivity.
  exact (conj H1 (conj H2 (conj H2a (conj H3 (conj H4 (conj H5 (conj H6
    (handleChatRequest_with_context_without_key 5 noEnv netUp sampleDraws sampleSystem
       None None helloBody "How do I reset my password?" H1 H2 H2a H3 H4 H5 H6)))))))).
Defined.





End ChatSpec.
